(** * The agent planner loop and the model gateway, embedded in Rocq

    The development follows the two Go services of the repository:

    - [backend-go-agent-planner] (package [agent]): [AgentLoop],
      [buildPlannerPrompt], [buildFollowupPrompt], [tryParseToolCall],
      [storeSessionDelta], [storePlaybook], [executeToolGRPC],
      [RecordStep], [PublishStatus], [PublishNotification];
    - [backend-go-model-gateway]: [GetPlan] with its two closures
      [stripFences] and [normalizeJSON];
    - the rest of the planner: [handlePlan], [traceIDMiddleware] and
      [writeJSONError] of its [main] package, [NewPlanner], [Close],
      [ConfigFromEnv] and [getenv];
    - the start-up of the gateway: [getEnv], [getEnvInt],
      [normalizeOllamaBaseURL], [initializeLLMClient] and the port and
      the timeout [main] computes.

    Go strings are byte strings, so they are [string] here (a list of
    [ascii], one per byte).  The pieces of the Go standard library the
    two services call ([unicode/utf8], [strings], [net/url],
    [encoding/json]) are modelled first, in [GoUTF8], [GoStrings],
    [GoURL] and [GoJSON]; [strconv] and the integer scan of [fmt]
    follow in [GoStrconv] and [GoFmt].  Whether [url.Parse] accepts an
    address is a collaborator of a run like the clock: the theorems
    about runs hold for whatever it answers, and [GoURL] is the answer
    the concrete runs use. *)

From Stdlib Require Import String Ascii List ZArith NArith Lia Bool.
Import ListNotations.
Open Scope string_scope.
Open Scope Z_scope.

(* ------------------------------------------------------------------ *)
(** ** Bytes *)

(** The value of a byte, as an integer in [0, 256). *)
Definition byte (c : ascii) : Z := Z.of_N (N_of_ascii c).

(** The byte of an integer ([byte(x)] in Go: the low eight bits). *)
Definition chr (z : Z) : ascii := ascii_of_N (Z.to_N (z mod 256)).

(** [s[n:]] for [n <= len(s)]. *)
Fixpoint skipn_str (n : nat) (s : string) : string :=
  match n, s with
  | O, _ => s
  | S n', String _ s' => skipn_str n' s'
  | S _, EmptyString => EmptyString
  end.

(** [s[:n]] for [n <= len(s)]. *)
Fixpoint firstn_str (n : nat) (s : string) : string :=
  match n, s with
  | O, _ => EmptyString
  | S n', String c s' => String c (firstn_str n' s')
  | S _, EmptyString => EmptyString
  end.

Fixpoint rev_str (acc s : string) : string :=
  match s with
  | EmptyString => acc
  | String c s' => rev_str (String c acc) s'
  end.

Definition of_bytes (l : list Z) : string :=
  fold_right (fun z s => String (chr z) s) EmptyString l.

(* ------------------------------------------------------------------ *)
(** ** unicode/utf8 *)

Module GoUTF8.

Definition RuneError : Z := 0xFFFD.
Definition MaxRune : Z := 0x10FFFF.
Definition RuneSelf : Z := 0x80.

(** The [first] table of the package: what a leading byte announces.
    [Lead n lo hi] is a sequence of [n] bytes whose second byte lies
    in [lo, hi] (the [acceptRanges] entry). *)
Inductive first_info : Type :=
| Ascii
| Invalid
| Lead (size : nat) (lo hi : Z).

Definition first (b : Z) : first_info :=
  if b <? 0x80 then Ascii
  else if b <? 0xC2 then Invalid
  else if b <? 0xE0 then Lead 2 0x80 0xBF
  else if b =? 0xE0 then Lead 3 0xA0 0xBF
  else if b <? 0xED then Lead 3 0x80 0xBF
  else if b =? 0xED then Lead 3 0x80 0x9F
  else if b <? 0xF0 then Lead 3 0x80 0xBF
  else if b =? 0xF0 then Lead 4 0x90 0xBF
  else if b <? 0xF4 then Lead 4 0x80 0xBF
  else if b =? 0xF4 then Lead 4 0x80 0x8F
  else Invalid.

(** A continuation byte: [locb <= b <= hicb]. *)
Definition cont (b : Z) : bool := (0x80 <=? b) && (b <=? 0xBF).

(** [utf8.DecodeRuneInString]: the rune at the head of [s] and its
    width in bytes; [(RuneError, 1)] on an encoding error and
    [(RuneError, 0)] on the empty string.  The payload bits of the
    bytes are combined arithmetically ([x & 0x3F] of a continuation
    byte is [x - 0x80], a shift by six a multiplication by 64). *)
Definition DecodeRuneInString (s : string) : Z * nat :=
  match s with
  | EmptyString => (RuneError, 0%nat)
  | String c0 s1 =>
    let s0 := byte c0 in
    match first s0 with
    | Ascii => (s0, 1%nat)
    | Invalid => (RuneError, 1%nat)
    | Lead sz lo hi =>
      match s1 with
      | EmptyString => (RuneError, 1%nat)
      | String c1 s2 =>
        let b1 := byte c1 in
        if (b1 <? lo) || (hi <? b1) then (RuneError, 1%nat)
        else if (sz <=? 2)%nat then ((s0 - 0xC0) * 64 + (b1 - 0x80), 2%nat)
        else
          match s2 with
          | EmptyString => (RuneError, 1%nat)
          | String c2 s3 =>
            let b2 := byte c2 in
            if negb (cont b2) then (RuneError, 1%nat)
            else if (sz <=? 3)%nat then
              ((s0 - 0xE0) * 4096 + (b1 - 0x80) * 64 + (b2 - 0x80), 3%nat)
            else
              match s3 with
              | EmptyString => (RuneError, 1%nat)
              | String c3 _ =>
                let b3 := byte c3 in
                if negb (cont b3) then (RuneError, 1%nat)
                else ((s0 - 0xF0) * 262144 + (b1 - 0x80) * 4096
                      + (b2 - 0x80) * 64 + (b3 - 0x80), 4%nat)
              end
          end
      end
    end
  end.

(** [utf8.RuneStart]: not a continuation byte. *)
Definition RuneStart (b : Z) : bool := negb (cont b).

(** [utf8.AppendRune] / [utf8.EncodeRune]: the bytes of a rune;
    surrogates and values out of range are written as [RuneError]. *)
Definition EncodeRune (r : Z) : string :=
  if (0 <=? r) && (r <=? 0x7F) then of_bytes [r]
  else if (0 <=? r) && (r <=? 0x7FF) then
    of_bytes [0xC0 + r / 64; 0x80 + r mod 64]
  else if (r <? 0) || (MaxRune <? r) || ((0xD800 <=? r) && (r <=? 0xDFFF)) then
    of_bytes [0xEF; 0xBF; 0xBD]
  else if r <=? 0xFFFF then
    of_bytes [0xE0 + r / 4096; 0x80 + (r / 64) mod 64; 0x80 + r mod 64]
  else
    of_bytes [0xF0 + r / 262144; 0x80 + (r / 4096) mod 64;
              0x80 + (r / 64) mod 64; 0x80 + r mod 64].

(** [utf8.DecodeLastRuneInString]. *)
Definition DecodeLastRuneInString (s : string) : Z * nat :=
  match rev_str EmptyString s with
  | EmptyString => (RuneError, 0%nat)
  | String c r1 =>
    if byte c <? RuneSelf then (byte c, 1%nat)
    else
      (* walk back over at most three more bytes to a rune start *)
      let back :=
        match r1 with
        | EmptyString => 1%nat
        | String c1 r2 =>
          if RuneStart (byte c1) then 2%nat
          else match r2 with
               | EmptyString => 2%nat
               | String c2 r3 =>
                 if RuneStart (byte c2) then 3%nat
                 else match r3 with
                      | EmptyString => 3%nat
                      | String c3 _ => 4%nat
                      end
               end
        end in
      let tail := skipn_str (String.length s - back) s in
      let '(r, size) := DecodeRuneInString tail in
      if (size =? back)%nat then (r, size) else (RuneError, 1%nat)
  end.

(** [utf8.ValidString]. *)
Fixpoint valid_fuel (fuel : nat) (s : string) : bool :=
  match fuel with
  | O => true
  | S fuel' =>
    match s with
    | EmptyString => true
    | String c s' =>
      if byte c <? RuneSelf then valid_fuel fuel' s'
      else
        let '(r, size) := DecodeRuneInString s in
        if (size =? 1)%nat then false
        else valid_fuel fuel' (skipn_str size s)
    end
  end.

Definition ValidString (s : string) : bool := valid_fuel (String.length s) s.

End GoUTF8.

(* ------------------------------------------------------------------ *)
(** ** strings and unicode *)

Module GoStrings.
Import GoUTF8.

(** [unicode.IsSpace]: the Latin-1 cases and the [White_Space] table. *)
Definition IsSpace (r : Z) : bool :=
  if (0 <=? r) && (r <=? 0xFF) then
    ((0x09 <=? r) && (r <=? 0x0D)) || (r =? 0x20) || (r =? 0x85) || (r =? 0xA0)
  else
    (r =? 0x1680) || ((0x2000 <=? r) && (r <=? 0x200A)) || (r =? 0x2028)
    || (r =? 0x2029) || (r =? 0x202F) || (r =? 0x205F) || (r =? 0x3000).

(** [strings.HasPrefix]. *)
Fixpoint HasPrefix (s prefix : string) : bool :=
  match prefix, s with
  | EmptyString, _ => true
  | String p prefix', String c s' => Ascii.eqb c p && HasPrefix s' prefix'
  | String _ _, EmptyString => false
  end.

(** [strings.Index]: [None] stands for -1. *)
Fixpoint Index (s substr : string) : option nat :=
  if HasPrefix s substr then Some O
  else match s with
       | EmptyString => None
       | String _ s' => option_map S (Index s' substr)
       end.

(** [strings.LastIndex]: [None] stands for -1. *)
Fixpoint LastIndex (s substr : string) : option nat :=
  match s with
  | EmptyString => if HasPrefix s substr then Some O else None
  | String _ s' =>
    match LastIndex s' substr with
    | Some i => Some (S i)
    | None => if HasPrefix s substr then Some O else None
    end
  end.

(** [strings.TrimLeftFunc(s, unicode.IsSpace)]: runes are decoded from
    the front, an invalid byte being the rune U+FFFD of width one. *)
Fixpoint TrimLeftSpace_fuel (fuel : nat) (s : string) : string :=
  match fuel with
  | O => s
  | S fuel' =>
    match s with
    | EmptyString => EmptyString
    | String _ _ =>
      let '(r, size) := DecodeRuneInString s in
      if IsSpace r then TrimLeftSpace_fuel fuel' (skipn_str size s) else s
    end
  end.

Definition TrimLeftSpace (s : string) : string :=
  TrimLeftSpace_fuel (String.length s) s.

(** [lastIndexFunc(s, unicode.IsSpace, false)]: the start of the last
    rune that is not a space, scanning back from [i]. *)
Fixpoint lastIndexNotSpace (fuel : nat) (s : string) (i : nat) : option nat :=
  match fuel with
  | O => None
  | S fuel' =>
    if (i =? 0)%nat then None
    else
      let '(r, size) := DecodeLastRuneInString (firstn_str i s) in
      let i' := (i - size)%nat in
      if IsSpace r then lastIndexNotSpace fuel' s i' else Some i'
  end.

(** [strings.TrimRightFunc(s, unicode.IsSpace)]. *)
Definition TrimRightSpace (s : string) : string :=
  match lastIndexNotSpace (String.length s) s (String.length s) with
  | Some i =>
    match skipn_str i s with
    | String c _ =>
      if RuneSelf <=? byte c
      then firstn_str (i + snd (DecodeRuneInString (skipn_str i s))) s
      else firstn_str (i + 1) s
    | EmptyString => firstn_str (i + 1) s
    end
  | None => EmptyString
  end.

(** [strings.TrimSpace]: the ASCII fast paths of the function compute
    the same string as [TrimFunc(s, unicode.IsSpace)]. *)
Definition TrimSpace (s : string) : string := TrimRightSpace (TrimLeftSpace s).

(** [strings.TrimRight(s, "/")]. *)
Fixpoint TrimRightSlash (s : string) : string :=
  match s with
  | EmptyString => EmptyString
  | String c s' =>
    match TrimRightSlash s' with
    | EmptyString => if Ascii.eqb c "/" then EmptyString else String c EmptyString
    | t => String c t
    end
  end.

End GoStrings.

(* ------------------------------------------------------------------ *)
(** ** net/url *)

Module GoURL.
Import GoStrings.

(** [stringContainsCTLByte]: an ASCII control byte. *)
Fixpoint stringContainsCTLByte (s : string) : bool :=
  match s with
  | EmptyString => false
  | String c s' => (byte c <? 32) || (byte c =? 127) || stringContainsCTLByte s'
  end.

Definition ishex (c : ascii) : bool :=
  let b := byte c in
  ((48 <=? b) && (b <=? 57)) || ((97 <=? b) && (b <=? 102))
  || ((65 <=? b) && (b <=? 70)).

Definition unhex (c : ascii) : Z :=
  let b := byte c in
  if (48 <=? b) && (b <=? 57) then b - 48
  else if (97 <=? b) && (b <=? 102) then b - 97 + 10
  else if (65 <=? b) && (b <=? 70) then b - 65 + 10
  else 0.

(** [strings.Cut(s, sep)] for a separator of one byte: the text before
    its first occurrence and the text after it (all of [s] and the
    empty string when there is none). *)
Fixpoint Cut (sep : Z) (s : string) : string * string :=
  match s with
  | EmptyString => (EmptyString, EmptyString)
  | String c s' =>
    if byte c =? sep then (EmptyString, s')
    else let '(before, after) := Cut sep s' in (String c before, after)
  end.

(** [strings.Contains(s, sep)] for a separator of one byte. *)
Fixpoint Contains (sep : Z) (s : string) : bool :=
  match s with
  | EmptyString => false
  | String c s' => (byte c =? sep) || Contains sep s'
  end.

(** [getScheme]: [None] is the error [missing protocol scheme],
    otherwise the scheme (empty when there is none) and what follows
    it.  [scheme_end i s] scans [s], the text from the byte [i] on. *)
Fixpoint scheme_end (i : nat) (s : string) : option (option nat) :=
  match s with
  | EmptyString => Some None
  | String c s' =>
    let b := byte c in
    if ((97 <=? b) && (b <=? 122)) || ((65 <=? b) && (b <=? 90)) then scheme_end (S i) s'
    else if ((48 <=? b) && (b <=? 57)) || (b =? 43) || (b =? 45) || (b =? 46) then
      if (i =? 0)%nat then Some None else scheme_end (S i) s'
    else if b =? 58 then
      if (i =? 0)%nat then None else Some (Some i)
    else Some None
  end.

Definition getScheme (rawURL : string) : option (string * string) :=
  match scheme_end 0 rawURL with
  | None => None
  | Some None => Some (EmptyString, rawURL)
  | Some (Some i) => Some (firstn_str i rawURL, skipn_str (i + 1) rawURL)
  end.

(** The modes of [unescape] that [Parse] uses. *)
Inductive encoding : Type :=
| encodePath
| encodeHost
| encodeZone
| encodeUserPassword
| encodeFragment.

(** [shouldEscape(c, encodeHost)]: letters, digits, the sub-delimiters
    and the marks a host may hold are not escaped, every other byte
    is. *)
Definition shouldEscape_host (c : Z) : bool :=
  if ((97 <=? c) && (c <=? 122)) || ((65 <=? c) && (c <=? 90))
     || ((48 <=? c) && (c <=? 57)) then false
  else if existsb (Z.eqb c)
                  (* ! $ & ' ( ) * + , ; = : [ ] < > and the double quote *)
                  [33; 36; 38; 39; 40; 41; 42; 43; 44; 59; 61; 58; 91; 93; 60; 62; 34]
  then false
  else if existsb (Z.eqb c) (* - _ . ~ *) [45; 95; 46; 126] then false
  else true.

(** Whether [unescape(s, mode)] returns without an error: every [%]
    is followed by two hexadecimal digits; in a host an escape stands
    for a byte from 0x80 on or is [%25], in a zone it stands for [%],
    a space or a byte a host may hold; and an ASCII byte of a host or a
    zone is one a host may hold. *)
Fixpoint unescape_ok (mode : encoding) (s : string) : bool :=
  match s with
  | EmptyString => true
  | String c s' =>
    if byte c =? 37 then
      match s' with
      | String h1 (String h2 s'') =>
        let is25 := (byte h1 =? 50) && (byte h2 =? 53) in
        ishex h1 && ishex h2
        && match mode with
           | encodeHost => negb ((unhex h1 <? 8) && negb is25)
           | encodeZone =>
             let v := unhex h1 * 16 + unhex h2 in
             negb (negb is25 && negb (v =? 32) && shouldEscape_host v)
           | _ => true
           end
        && unescape_ok mode s''
      | _ => false
      end
    else
      match mode with
      | encodeHost | encodeZone => negb ((byte c <? 128) && shouldEscape_host (byte c))
      | _ => true
      end
      && unescape_ok mode s'
  end.

Fixpoint all_decimal (s : string) : bool :=
  match s with
  | EmptyString => true
  | String c s' => (48 <=? byte c) && (byte c <=? 57) && all_decimal s'
  end.

(** [validOptionalPort]: empty, or a colon and decimal digits. *)
Definition validOptionalPort (port : string) : bool :=
  match port with
  | EmptyString => true
  | String c digits => (byte c =? 58) && all_decimal digits
  end.

(** [validUserinfo]: letters, digits and some punctuation; a byte from
    0x80 on belongs to a rune that is none of them. *)
Fixpoint validUserinfo (s : string) : bool :=
  match s with
  | EmptyString => true
  | String c s' =>
    let r := byte c in
    (((65 <=? r) && (r <=? 90)) || ((97 <=? r) && (r <=? 122))
     || ((48 <=? r) && (r <=? 57))
     || existsb (Z.eqb r)
                (* - . _ : ~ ! $ & ' ( ) * + , ; = % @ *)
                [45; 46; 95; 58; 126; 33; 36; 38; 39; 40; 41; 42; 43; 44; 59; 61; 37; 64])
    && validUserinfo s'
  end.

(** Whether [parseHost(host)] returns without an error. *)
Definition parseHost_ok (host : string) : bool :=
  if HasPrefix host "[" then
    (* an IP literal, with an optional zone and an optional port *)
    match LastIndex host "]" with
    | None => false
    | Some i =>
      if negb (validOptionalPort (skipn_str (i + 1) host)) then false
      else
        match Index (firstn_str i host) "%25" with
        | Some zone =>
          unescape_ok encodeHost (firstn_str zone host)
          && unescape_ok encodeZone (skipn_str zone (firstn_str i host))
          && unescape_ok encodeHost (skipn_str i host)
        | None => unescape_ok encodeHost host
        end
    end
  else
    match LastIndex host ":" with
    | Some i =>
      if negb (validOptionalPort (skipn_str i host)) then false
      else unescape_ok encodeHost host
    | None => unescape_ok encodeHost host
    end.

(** Whether [parseAuthority(authority)] returns without an error. *)
Definition parseAuthority_ok (authority : string) : bool :=
  match LastIndex authority "@" with
  | None => parseHost_ok authority
  | Some i =>
    parseHost_ok (skipn_str (i + 1) authority)
    && (let userinfo := firstn_str i authority in
        validUserinfo userinfo
        && (if negb (Contains 58 userinfo)
            then unescape_ok encodeUserPassword userinfo
            else
              let '(username, password) := Cut 58 userinfo in
              unescape_ok encodeUserPassword username
              && unescape_ok encodeUserPassword password))
  end.

(** Whether [parse(rawURL, false)] returns without an error, for the
    text before the fragment.  The query is cut off at the first [?]
    (which is also what the branch for a lone [?] at the end leaves)
    and is not looked at. *)
Definition parse_ok (rawURL : string) : bool :=
  if stringContainsCTLByte rawURL then false
  else if String.eqb rawURL "*" then true
  else
    match getScheme rawURL with
    | None => false
    | Some (scheme, rest) =>
      let rest := fst (Cut 63 rest) in
      if negb (HasPrefix rest "/") && negb (String.eqb scheme EmptyString)
      then true (* a rootless path is opaque *)
      else if negb (HasPrefix rest "/") && Contains 58 (fst (Cut 47 rest))
      then false (* first path segment in URL cannot contain colon *)
      else if (negb (String.eqb scheme EmptyString) || negb (HasPrefix rest "///"))
              && HasPrefix rest "//"
      then
        let authority := skipn_str 2 rest in
        let '(authority, rest) :=
          match Index authority "/" with
          | Some i => (firstn_str i authority, skipn_str i authority)
          | None => (authority, EmptyString)
          end in
        parseAuthority_ok authority && unescape_ok encodePath rest
      else unescape_ok encodePath rest
    end.

(** Whether [url.Parse(rawURL)] returns without an error: the
    fragment is cut off at the first [#], the rest is parsed, then the
    fragment is unescaped.  (An IP literal between brackets is checked
    as [parseHost] above does, by its bytes.) *)
Definition Parse_ok (rawURL : string) : bool :=
  let '(u, frag) := Cut 35 rawURL in
  parse_ok u && unescape_ok encodeFragment frag.

End GoURL.

(* ------------------------------------------------------------------ *)
(** ** Characters and literals *)

Definition quote : ascii := "034"%char.
Definition backslash : ascii := "092"%char.
Definition LF : ascii := "010"%char.

(** The newline as a string, for the [\n] of the Go literals. *)
Definition nl : string := String LF EmptyString.

(** Go source writes JSON samples between back quotes; here they are
    written with apostrophes for the double quotes: [dq "{'a':1}"] is the
    text [{"a":1}]. *)
Fixpoint dq (s : string) : string :=
  match s with
  | EmptyString => EmptyString
  | String c s' => String (if Ascii.eqb c "'" then quote else c) (dq s')
  end.

(* ------------------------------------------------------------------ *)
(** ** encoding/json *)

Module GoJSON.
Import GoUTF8.

(** A JSON text as a tree.  A number keeps its literal (the [float64]
    it denotes is not computed); an object keeps its members in source
    order, duplicates included. *)
#[warnings="-register-all"] Inductive json : Type :=
| JNull
| JBool (b : bool)
| JNumber (lit : string)
| JString (s : string)
| JArray (elems : list json)
| JObject (members : list (string * json)).

(** A decoded [map[string]any] is the member list of its object: the
    decoder stores the members in order, so a later duplicate replaces
    an earlier one and [m[key]] is the last member with that key. *)
Definition object := list (string * json).

Fixpoint map_index (m : object) (key : string) : option json :=
  match m with
  | [] => None
  | (k, v) :: m' =>
    match map_index m' key with
    | Some v' => Some v'
    | None => if String.eqb k key then Some v else None
    end
  end.

(* ---------------------------------------------------------------- *)
(** *** Marshal *)

Definition hex (n : Z) : ascii :=
  if n <? 10 then chr (48 + n) else chr (87 + n).

(** [htmlSafeSet]: the ASCII bytes [appendString] copies unescaped
    when [escapeHTML] is set, as it is for [json.Marshal]. *)
Definition htmlSafe (b : Z) : bool :=
  (0x20 <=? b) && (b <? 0x80)
  && negb ((b =? 34) || (b =? 92) || (b =? 60) || (b =? 62) || (b =? 38)).

(** The escape of an ASCII byte outside [htmlSafeSet]. *)
Definition escape_byte (c : ascii) : string :=
  let b := byte c in
  if (b =? 92) || (b =? 34) then String backslash (String c EmptyString)
  else if b =? 8 then String backslash "b"
  else if b =? 12 then String backslash "f"
  else if b =? 10 then String backslash "n"
  else if b =? 13 then String backslash "r"
  else if b =? 9 then String backslash "t"
  else String backslash
         (String "u" (String "0" (String "0"
            (String (hex (b / 16)) (String (hex (b mod 16)) EmptyString))))).

(** The loop of [appendString(dst, src, escapeHTML = true)], without
    the two enclosing quotes.  [fuel] bounds the iterations; every
    iteration consumes at least one byte of [src]. *)
Fixpoint appendString_loop (fuel : nat) (src : string) : string :=
  match fuel with
  | O => EmptyString
  | S fuel' =>
    match src with
    | EmptyString => EmptyString
    | String c rest =>
      if byte c <? RuneSelf then
        (if htmlSafe (byte c) then String c EmptyString else escape_byte c)
        ++ appendString_loop fuel' rest
      else
        let '(r, size) := DecodeRuneInString (firstn_str 4 src) in
        if (r =? RuneError) && (size =? 1)%nat then
          String backslash "ufffd" ++ appendString_loop fuel' rest
        else if (r =? 0x2028) || (r =? 0x2029) then
          String backslash "u202" ++ String (hex (r mod 16)) EmptyString
          ++ appendString_loop fuel' (skipn_str size src)
        else
          firstn_str size src ++ appendString_loop fuel' (skipn_str size src)
    end
  end.

(** A Go string as a JSON string literal. *)
Definition appendString (src : string) : string :=
  String quote (appendString_loop (String.length src) src)
  ++ String quote EmptyString.

(** The values the two services put in a [map[string]any] that is
    marshalled to text: a string, or a non-nil [[]string]. *)
Inductive payload_value : Type :=
| PString (s : string)
| PStrings (l : list string).

Fixpoint marshal_strings (l : list string) : string :=
  match l with
  | [] => EmptyString
  | [s] => appendString s
  | s :: l' => appendString s ++ "," ++ marshal_strings l'
  end.

Definition marshal_value (v : payload_value) : string :=
  match v with
  | PString s => appendString s
  | PStrings l => "[" ++ marshal_strings l ++ "]"
  end.

(** The encoder writes a map with its keys sorted. *)
Fixpoint insert_sorted (kv : string * payload_value)
         (m : list (string * payload_value)) : list (string * payload_value) :=
  match m with
  | [] => [kv]
  | kv' :: m' =>
    if String.leb (fst kv) (fst kv') then kv :: m
    else kv' :: insert_sorted kv m'
  end.

Definition sort_keys (m : list (string * payload_value)) :=
  fold_right insert_sorted [] m.

Fixpoint marshal_members (m : list (string * payload_value)) : string :=
  match m with
  | [] => EmptyString
  | [(k, v)] => appendString k ++ ":" ++ marshal_value v
  | (k, v) :: m' =>
    appendString k ++ ":" ++ marshal_value v ++ "," ++ marshal_members m'
  end.

(** [json.Marshal] of a map literal with distinct keys; it cannot
    fail on these values. *)
Definition Marshal (m : list (string * payload_value)) : string :=
  "{" ++ marshal_members (sort_keys m) ++ "}".

(* ---------------------------------------------------------------- *)
(** *** The scanner and the decoder *)

(** Insignificant white space: space, tab, carriage return, newline. *)
Definition is_ws (c : ascii) : bool :=
  let b := byte c in (b =? 32) || (b =? 9) || (b =? 13) || (b =? 10).

Fixpoint skip_ws (s : string) : string :=
  match s with
  | String c s' => if is_ws c then skip_ws s' else s
  | EmptyString => EmptyString
  end.

Definition is_digit (c : ascii) : bool := (48 <=? byte c) && (byte c <=? 57).

Definition hex_val (c : ascii) : option Z :=
  let b := byte c in
  if (48 <=? b) && (b <=? 57) then Some (b - 48)
  else if (97 <=? b) && (b <=? 102) then Some (b - 87)
  else if (65 <=? b) && (b <=? 70) then Some (b - 55)
  else None.

(** Four hexadecimal digits. *)
Definition hex4 (s : string) : option (Z * string) :=
  match s with
  | String h1 (String h2 (String h3 (String h4 rest))) =>
    match hex_val h1, hex_val h2, hex_val h3, hex_val h4 with
    | Some a, Some b, Some c, Some d =>
      Some (a * 4096 + b * 256 + c * 16 + d, rest)
    | _, _, _, _ => None
    end
  | _ => None
  end.

(** [getu4]: the code unit of a [\uXXXX] at the head of [s]. *)
Definition getu4 (s : string) : option (Z * string) :=
  match s with
  | String c0 (String c1 rest) =>
    if (byte c0 =? 92) && (byte c1 =? 117) then hex4 rest else None
  | _ => None
  end.

(** [utf16.IsSurrogate]. *)
Definition IsSurrogate (r : Z) : bool := (0xD800 <=? r) && (r <? 0xE000).

(** [utf16.DecodeRune]: the code point of a surrogate pair, or
    U+FFFD when the two units are not a pair. *)
Definition utf16_DecodeRune (r1 r2 : Z) : Z :=
  if (0xD800 <=? r1) && (r1 <? 0xDC00) && (0xDC00 <=? r2) && (r2 <? 0xE000)
  then (r1 - 0xD800) * 1024 + (r2 - 0xDC00) + 0x10000
  else RuneError.

(** The byte a one-letter escape stands for. *)
Definition simple_escape (e : ascii) : option ascii :=
  let b := byte e in
  if (b =? 34) || (b =? 92) || (b =? 47) then Some e
  else if b =? 98 then Some (chr 8)
  else if b =? 102 then Some (chr 12)
  else if b =? 110 then Some (chr 10)
  else if b =? 114 then Some (chr 13)
  else if b =? 116 then Some (chr 9)
  else None.

Definition prepend (p : string) (r : option (string * string))
  : option (string * string) :=
  match r with
  | Some (t, rest) => Some (p ++ t, rest)
  | None => None
  end.

(** The body of a string literal, after its opening quote: the
    scanner's checks (no raw control byte, only the escapes of the
    grammar) and [unquote] (escapes replaced, invalid UTF-8 coerced to
    U+FFFD).  The result is the decoded string and the input after
    the closing quote. *)
Fixpoint string_body (fuel : nat) (s : string) : option (string * string) :=
  match fuel with
  | O => None
  | S fuel' =>
    match s with
    | EmptyString => None
    | String c rest =>
      let b := byte c in
      if b =? 34 then Some (EmptyString, rest)
      else if b =? 92 then
        match rest with
        | EmptyString => None
        | String e rest' =>
          match simple_escape e with
          | Some d => prepend (String d EmptyString) (string_body fuel' rest')
          | None =>
            if byte e =? 117 then
              match hex4 rest' with
              | None => None
              | Some (rr, rest2) =>
                if IsSurrogate rr then
                  match getu4 rest2 with
                  | Some (rr1, rest3) =>
                    if utf16_DecodeRune rr rr1 =? RuneError
                    then prepend (EncodeRune RuneError) (string_body fuel' rest2)
                    else prepend (EncodeRune (utf16_DecodeRune rr rr1))
                                 (string_body fuel' rest3)
                  | None => prepend (EncodeRune RuneError) (string_body fuel' rest2)
                  end
                else prepend (EncodeRune rr) (string_body fuel' rest2)
              end
            else None
          end
        end
      else if b <? 32 then None
      else if b <? RuneSelf then
        prepend (String c EmptyString) (string_body fuel' rest)
      else
        let '(rr, size) := DecodeRuneInString s in
        prepend (EncodeRune rr) (string_body fuel' (skipn_str size s))
    end
  end.

(** A string literal whose opening quote has been read; the length of
    the input bounds the loop. *)
Definition string_lit (s : string) : option (string * string) :=
  string_body (S (String.length s)) s.

Fixpoint span_digits (s : string) : string * string :=
  match s with
  | String c s' =>
    if is_digit c then let '(d, r) := span_digits s' in (String c d, r)
    else (EmptyString, s)
  | EmptyString => (EmptyString, EmptyString)
  end.

(** The exponent part of a number, if there is one. *)
Definition scan_exp (lit s : string) : option (string * string) :=
  match s with
  | String c s1 =>
    if (byte c =? 101) || (byte c =? 69) then
      let '(sg, s2) :=
        match s1 with
        | String c' s2 =>
          if (byte c' =? 43) || (byte c' =? 45)
          then (String c' EmptyString, s2) else (EmptyString, s1)
        | EmptyString => (EmptyString, s1)
        end in
      let '(d, s3) := span_digits s2 in
      match d with
      | EmptyString => None
      | _ => Some (lit ++ String c sg ++ d, s3)
      end
    else Some (lit, s)
  | EmptyString => Some (lit, s)
  end.

(** The fraction part of a number, if there is one. *)
Definition scan_frac (lit s : string) : option (string * string) :=
  match s with
  | String c s1 =>
    if byte c =? 46 then
      let '(d, s2) := span_digits s1 in
      match d with
      | EmptyString => None
      | _ => scan_exp (lit ++ String c d) s2
      end
    else scan_exp lit s
  | EmptyString => Some (lit, s)
  end.

(** A number literal: an optional minus, [0] or a digit string
    without leading zero, an optional fraction, an optional exponent. *)
Definition scan_number (s : string) : option (string * string) :=
  let '(sign, s1) :=
    match s with
    | String c s' => if byte c =? 45 then ("-", s') else (EmptyString, s)
    | EmptyString => (EmptyString, s)
    end in
  match s1 with
  | String c s2 =>
    if byte c =? 48 then scan_frac (sign ++ "0") s2
    else if is_digit c then
      let '(d, s3) := span_digits s2 in scan_frac (sign ++ String c d) s3
    else None
  | EmptyString => None
  end.

(** What decoding makes of the bytes of a string literal that has no
    escape: each rune is decoded and written back, so a byte that is
    not part of a valid encoding becomes U+FFFD. *)
Fixpoint coerce_fuel (fuel : nat) (s : string) : string :=
  match fuel with
  | O => EmptyString
  | S fuel' =>
    match s with
    | EmptyString => EmptyString
    | String c rest =>
      if byte c <? RuneSelf then String c (coerce_fuel fuel' rest)
      else
        let '(r, size) := DecodeRuneInString s in
        EncodeRune r ++ coerce_fuel fuel' (skipn_str size s)
    end
  end.

Definition coerce (s : string) : string := coerce_fuel (String.length s) s.

(** [maxNestingDepth]. *)
Definition maxNestingDepth : Z := 10000.

(** A literal name ([true], [false], [null]) at the head of [s]. *)
Fixpoint scan_name (name s : string) : option string :=
  match name, s with
  | EmptyString, _ => Some s
  | String n name', String c s' =>
    if Ascii.eqb c n then scan_name name' s' else None
  | String _ _, EmptyString => None
  end.

(** One JSON value at the head of [s] (after optional white space)
    and the input that follows it.  [depth] counts the enclosing
    arrays and objects. *)
Fixpoint parse_value (fuel : nat) (depth : Z) (s : string)
  : option (json * string) :=
  match fuel with
  | O => None
  | S fuel' =>
    match skip_ws s with
    | EmptyString => None
    | String c rest =>
      let b := byte c in
      if b =? 123 then
        if maxNestingDepth <? depth + 1 then None
        else
          match skip_ws rest with
          | String c' rest' =>
            if byte c' =? 125 then Some (JObject [], rest')
            else
              match parse_members fuel' (depth + 1) rest with
              | Some (ms, r) => Some (JObject ms, r)
              | None => None
              end
          | EmptyString => None
          end
      else if b =? 91 then
        if maxNestingDepth <? depth + 1 then None
        else
          match skip_ws rest with
          | String c' rest' =>
            if byte c' =? 93 then Some (JArray [], rest')
            else
              match parse_elems fuel' (depth + 1) rest with
              | Some (vs, r) => Some (JArray vs, r)
              | None => None
              end
          | EmptyString => None
          end
      else if b =? 34 then
        match string_lit rest with
        | Some (t, r) => Some (JString t, r)
        | None => None
        end
      else if b =? 116 then
        option_map (fun r => (JBool true, r)) (scan_name "rue" rest)
      else if b =? 102 then
        option_map (fun r => (JBool false, r)) (scan_name "alse" rest)
      else if b =? 110 then
        option_map (fun r => (JNull, r)) (scan_name "ull" rest)
      else
        match scan_number (String c rest) with
        | Some (lit, r) => Some (JNumber lit, r)
        | None => None
        end
    end
  end

(** The members of a non-empty object, up to its closing brace. *)
with parse_members (fuel : nat) (depth : Z) (s : string)
  : option (list (string * json) * string) :=
  match fuel with
  | O => None
  | S fuel' =>
    match skip_ws s with
    | String c rest =>
      if byte c =? 34 then
        match string_lit rest with
        | Some (k, r1) =>
          match skip_ws r1 with
          | String c1 r2 =>
            if byte c1 =? 58 then
              match parse_value fuel' depth r2 with
              | Some (v, r3) =>
                match skip_ws r3 with
                | String c3 r4 =>
                  if byte c3 =? 44 then
                    match parse_members fuel' depth r4 with
                    | Some (ms, r5) => Some ((k, v) :: ms, r5)
                    | None => None
                    end
                  else if byte c3 =? 125 then Some ([(k, v)], r4)
                  else None
                | EmptyString => None
                end
              | None => None
              end
            else None
          | EmptyString => None
          end
        | None => None
        end
      else None
    | EmptyString => None
    end
  end

(** The elements of a non-empty array, up to its closing bracket. *)
with parse_elems (fuel : nat) (depth : Z) (s : string)
  : option (list json * string) :=
  match fuel with
  | O => None
  | S fuel' =>
    match parse_value fuel' depth s with
    | Some (v, r1) =>
      match skip_ws r1 with
      | String c r2 =>
        if byte c =? 44 then
          match parse_elems fuel' depth r2 with
          | Some (vs, r3) => Some (v :: vs, r3)
          | None => None
          end
        else if byte c =? 93 then Some ([v], r2)
        else None
      | EmptyString => None
      end
    | None => None
    end
  end.

(** [checkValid] and the tree of the text: one value, white space
    around it, nothing else.  Every call of the parser consumes a byte
    before it calls itself, so the length of the text bounds the
    recursion. *)
Definition parse (s : string) : option json :=
  match parse_value (S (String.length s)) 0 s with
  | Some (v, rest) =>
    match skip_ws rest with
    | EmptyString => Some v
    | String _ _ => None
    end
  | None => None
  end.

(* ---------------------------------------------------------------- *)
(** *** Unmarshal *)

Fixpoint digits_value (acc : Z) (s : string) : Z :=
  match s with
  | String c s' => digits_value (acc * 10 + (byte c - 48)) s'
  | EmptyString => acc
  end.

(** The digits [D] and the decimal exponent [E] of a number literal,
    whose absolute value is [D * 10^E]. *)
Definition number_parts (lit : string) : Z * Z :=
  let s := match lit with
           | String c s' => if byte c =? 45 then s' else lit
           | EmptyString => lit
           end in
  let '(ip, s1) := span_digits s in
  let '(fp, s2) := match s1 with
                   | String c s' =>
                     if byte c =? 46 then span_digits s' else (EmptyString, s1)
                   | EmptyString => (EmptyString, s1)
                   end in
  let e := match s2 with
           | String _ (String c d) =>
             if byte c =? 45 then - digits_value 0 d
             else if byte c =? 43 then digits_value 0 d
             else digits_value 0 (String c d)
           | _ => 0
           end in
  (digits_value 0 (ip ++ fp), e - Z.of_nat (String.length fp)).

(** [strconv.ParseFloat(lit, 64)] reports a range error when the
    literal rounds to an infinity, that is from [2^1024 - 2^970] on
    (half an ulp above the largest [float64]); the decoder then fails
    with an [UnmarshalTypeError]. *)
Definition float64_overflows (lit : string) : bool :=
  let '(D, E) := number_parts lit in
  if 0 <=? E then (2 ^ 1024 - 2 ^ 970 <=? D * 10 ^ E)
  else ((2 ^ 1024 - 2 ^ 970) * 10 ^ (- E) <=? D).

(** Every number of the tree converts to a [float64]. *)
Fixpoint numbers_fit (j : json) : bool :=
  match j with
  | JNumber lit => negb (float64_overflows lit)
  | JArray l => forallb numbers_fit l
  | JObject ms => forallb (fun kv => numbers_fit (snd kv)) ms
  | _ => true
  end.

(** [json.Unmarshal(data, &raw)] for a nil [raw map[string]any].
    [None] is an error; [Some None] leaves [raw] nil (the text is
    [null]); [Some (Some m)] stores the object [m]. *)
Definition Unmarshal_map (data : string) : option (option object) :=
  match parse data with
  | None => None
  | Some JNull => Some None
  | Some (JObject ms) =>
    if numbers_fit (JObject ms) then Some (Some ms) else None
  | Some _ => None
  end.

(** [foldRune] on what can meet an ASCII field name: the ASCII
    letters, the long s and the Kelvin sign.  The fold of any other
    rune lies outside ASCII, and so does the rune itself. *)
Definition foldRune (r : Z) : Z :=
  if (97 <=? r) && (r <=? 122) then r - 32
  else if r =? 0x17F then 83
  else if r =? 0x212A then 75
  else r.

(** [foldName]: the key under which a struct field is looked up when
    no field has exactly the member's name. *)
Fixpoint foldName_fuel (fuel : nat) (s : string) : string :=
  match fuel with
  | O => EmptyString
  | S fuel' =>
    match s with
    | EmptyString => EmptyString
    | String c rest =>
      if byte c <? RuneSelf then
        String (chr (foldRune (byte c))) (foldName_fuel fuel' rest)
      else
        let '(r, n) := DecodeRuneInString s in
        EncodeRune (foldRune r) ++ foldName_fuel fuel' (skipn_str n s)
    end
  end.

Definition foldName (s : string) : string := foldName_fuel (String.length s) s.

(** The member [key] is stored into the field tagged [name]. *)
Definition field_matches (key name : string) : bool :=
  String.eqb key name || String.eqb (foldName key) (foldName name).

(** A slice during decoding: its backing array and its length.  The
    decoder stores an array element by element into the slice it
    finds, so elements beyond the length can come back. *)
Record slice (A : Type) : Type := mkSlice { arr : list A; len : nat }.
Arguments mkSlice {A}.
Arguments arr {A}.
Arguments len {A}.

Definition elements {A : Type} (s : slice A) : list A := firstn (len s) (arr s).

Definition nil_slice {A : Type} : slice A := mkSlice [] 0.

(** The array [elems] stored into a slice with backing array [old]:
    [store e o] is the new element for the member [e] over the old
    element [o], and whether it went without a type error (on an error
    the decoder keeps the error and goes on). *)
Fixpoint store_elems {A : Type} (zero : A) (store : json -> A -> A * bool)
         (elems : list json) (old : list A) : list A * bool :=
  match elems with
  | [] => (old, true)
  | e :: elems' =>
    let '(x, ok) := store e (hd zero old) in
    let '(rest, ok') := store_elems zero store elems' (tl old) in
    (x :: rest, ok && ok')
  end.

(** A JSON value stored into a slice field: [null] makes it nil, an
    array fills it, anything else is a type error. *)
Definition store_slice {A : Type} (zero : A) (store : json -> A -> A * bool)
           (v : json) (s : slice A) : slice A * bool :=
  match v with
  | JNull => (nil_slice, true)
  | JArray [] => (nil_slice, true)
  | JArray elems =>
    let '(a, ok) := store_elems zero store elems (arr s) in
    (mkSlice a (List.length elems), ok)
  | _ => (s, false)
  end.

(** A JSON value stored into a [string]: [null] leaves it. *)
Definition store_string (v : json) (old : string) : string * bool :=
  match v with
  | JString t => (t, true)
  | JNull => (old, true)
  | _ => (old, false)
  end.

(** The value an [any] receives: a number out of range is an error
    and leaves nil. *)
Fixpoint to_any (j : json) : json :=
  match j with
  | JNumber lit => if float64_overflows lit then JNull else j
  | JArray l => JArray (map to_any l)
  | JObject ms => JObject (map (fun kv => (fst kv, to_any (snd kv))) ms)
  | _ => j
  end.

(** A JSON value stored into a [map[string]any]: the members are
    added to the map that is there; [null] makes it nil. *)
Definition store_map (v : json) (old : object) : object * bool :=
  match v with
  | JObject ms =>
    ((old ++ map (fun kv => (fst kv, to_any (snd kv))) ms)%list, numbers_fit v)
  | JNull => ([], true)
  | _ => (old, false)
  end.

End GoJSON.

(* ------------------------------------------------------------------ *)
(** ** backend-go-model-gateway: GetPlan *)

Module Gateway.
Import GoStrings GoJSON.

(** [type llmProvider string] and its two constants. *)
Definition llmProvider := string.
Definition providerOpenRouter : llmProvider := "openrouter".
Definition providerOllama : llmProvider := "ollama".

(** [llmRuntime]; [Client] tells whether the pointer is non-nil. *)
Record llmRuntime : Type := {
  Provider : llmProvider;
  Model : string;
  Client : bool
}.

(** [server]; the request timeout only bounds the call to the model
    and is part of what [CreateChatCompletion] answers. *)
Record server : Type := { llm : option llmRuntime }.

(** The chat request sent to the model (temperature 0.2). *)
Record ChatCompletionRequest : Type := {
  req_Model : string;
  req_system : string;
  req_user : string
}.

(** [PlanResponse]; [LatencyMs] is wall-clock time and is left out. *)
Record PlanResponse : Type := { Plan : string; ModelName : string }.

(** The struct [normalizeJSON] decodes into. *)
Record decoded : Type := { Steps : slice string; Prompt : string }.

(** One object member stored into [decoded]; the flag is cleared by a
    type error, after which decoding goes on. *)
Definition store_member (st : decoded * bool) (kv : string * json)
  : decoded * bool :=
  let '(d, ok) := st in
  let '(k, v) := kv in
  if field_matches k "steps" then
    let '(s, ok') := store_slice EmptyString store_string v (Steps d) in
    ({| Steps := s; Prompt := Prompt d |}, ok && ok')
  else if field_matches k "prompt" then
    let '(p, ok') := store_string v (Prompt d) in
    ({| Steps := Steps d; Prompt := p |}, ok && ok')
  else (d, ok).

(** [json.Unmarshal([]byte(candidate), &decoded)]: [None] when it
    returns an error. *)
Definition Unmarshal_decoded (candidate : string) : option decoded :=
  match parse candidate with
  | Some (JObject ms) =>
    let '(d, ok) :=
      fold_left store_member ms
                ({| Steps := nil_slice; Prompt := EmptyString |}, true) in
    if ok then Some d else None
  | Some JNull => Some {| Steps := nil_slice; Prompt := EmptyString |}
  | _ => None
  end.

Definition fence : string := "```".

(** The closure [stripFences]. *)
Definition stripFences (s : string) : string :=
  let s := TrimSpace s in
  if negb (HasPrefix s fence) then s
  else
    (* drop the first fence line *)
    let s1 := match Index s nl with
              | Some idx => skipn_str (idx + 1) s
              | None => s
              end in
    (* drop the trailing fence *)
    let s2 := match LastIndex s1 fence with
              | Some e => firstn_str e s1
              | None => s1
              end in
    TrimSpace s2.

(** The map both closures marshal. *)
Definition plan_payload (provider : string) (steps : list string)
           (prompt : string) : list (string * payload_value) :=
  [("model_type", PString provider); ("steps", PStrings steps);
   ("prompt", PString prompt)].

(** The closure [normalizeJSON]; [provider] and [prompt] are the
    captured [provider] and [in.GetPrompt()]. *)
Definition normalizeJSON (provider prompt raw : string) : option string :=
  let candidate := TrimSpace raw in
  if negb (HasPrefix candidate "{") then None
  else
    match Unmarshal_decoded candidate with
    | None => None
    | Some d =>
      if (List.length (elements (Steps d)) =? 0)%nat then None
      else Some (Marshal (plan_payload provider (elements (Steps d)) prompt))
    end.

Definition system_message : string :=
  "You are a planning assistant. Return STRICT JSON only.".

Definition user_message (prompt : string) : string :=
  "Given this prompt, return a JSON object with keys: model_type (string), steps (array of strings), prompt (string)."
  ++ nl ++ "Prompt: " ++ prompt.

(** The plan string computed from the content of the first choice. *)
Definition plan_of_content (provider prompt content : string) : string :=
  let trimmed := TrimSpace content in
  (* 1) raw JSON *)
  match normalizeJSON provider prompt trimmed with
  | Some normalized => normalized
  | None =>
    (* 2) fenced JSON *)
    match normalizeJSON provider prompt (stripFences trimmed) with
    | Some normalized => normalized
    | None =>
      (* 3) fallback wrapper *)
      Marshal (plan_payload provider [trimmed] prompt)
    end
  end.

(** The steps [normalizeJSON] finds in [raw], when it succeeds. *)
Definition decoded_steps (raw : string) : option (list string) :=
  let candidate := TrimSpace raw in
  if negb (HasPrefix candidate "{") then None
  else
    match Unmarshal_decoded candidate with
    | None => None
    | Some d =>
      if (List.length (elements (Steps d)) =? 0)%nat then None
      else Some (elements (Steps d))
    end.

(** The steps the plan string carries: those of the raw JSON, else
    those of the fenced JSON, else the trimmed content alone. *)
Definition plan_steps (content : string) : list string :=
  let trimmed := TrimSpace content in
  match decoded_steps trimmed with
  | Some steps => steps
  | None =>
    match decoded_steps (stripFences trimmed) with
    | Some steps => steps
    | None => [trimmed]
    end
  end.

(** [GetPlan]: [CreateChatCompletion] is the call to the model,
    answering an error or the contents of the choices. *)
Definition GetPlan (s : server)
           (CreateChatCompletion : ChatCompletionRequest -> string + list string)
           (prompt : string) : string + PlanResponse :=
  match llm s with
  | None => inl "LLM client not initialized"
  | Some rt =>
    if negb (Client rt) then inl "LLM client not initialized"
    else
      match CreateChatCompletion
              {| req_Model := Model rt;
                 req_system := system_message;
                 req_user := user_message prompt |} with
      | inl err => inl err
      | inr choices =>
        let content := match choices with
                       | c :: _ => c
                       | [] => EmptyString
                       end in
        inr {| Plan := plan_of_content (Provider rt) prompt content;
               ModelName := Model rt |}
      end
  end.

End Gateway.

(* ------------------------------------------------------------------ *)
(** ** backend-go-agent-planner: package agent *)

Module Planner.
Import GoStrings GoJSON.

(** Go's [int] (64 bits on the platforms the service is built for)
    and [int32], as integers with their wrap-around. *)
Definition max_int : Z := 2 ^ 63 - 1.
Definition wrap64 (z : Z) : Z := (z + 2 ^ 63) mod 2 ^ 64 - 2 ^ 63.
Definition wrap32 (z : Z) : Z := (z + 2 ^ 31) mod 2 ^ 32 - 2 ^ 31.

Record Config : Type := {
  ModelGatewayAddr : string;
  MemoryServiceAddr : string;
  MemoryServiceHTTP : string;
  RustSandboxGRPCAddr : string;
  RustSandboxHTTPURL : string;
  AuditDBPath : string;
  RedisAddr : string;
  MaxTurns : Z;
  TopK : Z;
  KBs : list string
}.

(** [Planner]: the configuration and, for each optional client,
    whether the pointer is non-nil. *)
Record PlannerT : Type := {
  cfg : Config;
  toolClient : bool;
  auditDB : bool;
  redis : bool
}.

Definition notificationsChannel : string := "pagi_notifications".

(** [ToolCall]; [Args] is [None] for a nil map. *)
Record ToolCall : Type := {
  Name : string;
  Args : option object;
  Raw : object
}.

(** What the request context carries: the trace id (the empty string
    when the context has none) and the outgoing gRPC metadata. *)
Record Context : Type := {
  trace_id : string;
  outgoing_md : list (string * string)
}.

(** Modelled from the spec: [logger.TraceIDKey] is declared in a
    package that is not among the sources; by section 6 the header is
    [X-Trace-ID] and the metadata key its lower case. *)
Definition trace_md_key : string := "x-trace-id".

Definition injectTraceIDToOutgoingGRPC (ctx : Context) : Context :=
  if String.eqb (TrimSpace (trace_id ctx)) EmptyString then ctx
  else {| trace_id := trace_id ctx;
          outgoing_md := (outgoing_md ctx ++ [(trace_md_key, trace_id ctx)])%list |}.

(* ---------------------------------------------------------------- *)
(** *** Messages exchanged with the collaborators *)

(** The [data] argument of [RecordStep], one constructor per map
    literal of [AgentLoop]. *)
Inductive AuditData : Type :=
| DataPlanStart (prompt : string) (max_turns top_k : Z) (kbs : list string)
| DataError (error : string)
| DataPlan (plan : string)
| DataResult (result : string)
| DataToolCall (tool : string) (args : option object)
| DataToolError (tool error : string)
| DataToolResult (tool output : string).

Inductive NotificationBody : Type :=
| Status (status : string)
| Result (result : string).

(** The payload of a notification, marshalled to JSON on the wire. *)
Record Notification : Type := {
  n_trace_id : string;
  n_session_id : string;
  n_body : NotificationBody;
  n_timestamp : string
}.

(** A playbook entry [{"role": ..., "content": ...}]. *)
Definition entry : Type := (string * string)%type.

(** The JSON bodies posted to the memory service. *)
Inductive HttpBody : Type :=
| StoreBody (session_id : string) (history : list entry)
            (prompt llm_response_text : string)
| PlaybookBody (session_id prompt : string) (history_sequence : list entry).

Inductive HttpRequest : Type :=
| Get (url : string)
| Post (url : string) (body : HttpBody).

(** What [httpClient.Do] returns: an error, or a response. *)
Inductive HttpReply : Type :=
| HttpErr (err : string)
| HttpResp (status : Z) (body : string).

Record RAGContextRequest : Type := {
  Query : string;
  rag_TopK : Z;
  KnowledgeBases : list string
}.

Record RAGMatch : Type := {
  KnowledgeBase : string;
  Id : string;
  Text : string
}.

Record RAGContextResponse : Type := { Matches : list RAGMatch }.

(** [ToolRequest]; [ArgsJson] is the JSON text of [tr_Args]. *)
Record ToolRequest : Type := { ToolName : string; tr_Args : object }.

Record ToolResponse : Type := {
  tr_Status : string;
  Stdout : string;
  Stderr : string
}.

(** One call to a collaborator, with what it answered.  An error is
    its text. *)
Inductive Event : Type :=
| EvAudit (trace session event_type : string) (data : AuditData)
          (err : option string)
| EvPublish (channel : string) (msg : Notification) (err : option string)
| EvHttp (req : HttpRequest) (reply : HttpReply)
| EvGetRAGContext (md : list (string * string)) (req : RAGContextRequest)
                  (reply : string + RAGContextResponse)
| EvGetPlan (md : list (string * string)) (prompt : string)
            (reply : string + string)
| EvExecuteTool (md : list (string * string)) (req : ToolRequest)
                (reply : string + ToolResponse).

(** The collaborators: each answers a call knowing everything that
    happened before it in the run.  [time_Now] is the clock, already
    formatted; [fmt_q] is the [%q] verb of [fmt]; [url_Parse_ok] tells
    whether [url.Parse] accepts an address, that is returns no error
    ([GoURL.Parse_ok] is a model of it, used in the concrete runs). *)
Record Env : Type := {
  audit_RecordStep : list Event -> string -> string -> string -> AuditData
                     -> option string;
  redis_Publish : list Event -> string -> Notification -> option string;
  http_Do : list Event -> HttpRequest -> HttpReply;
  memory_GetRAGContext : list Event -> list (string * string)
                         -> RAGContextRequest -> string + RAGContextResponse;
  model_GetPlan : list Event -> list (string * string) -> string
                  -> string + string;
  tool_ExecuteTool : list Event -> list (string * string) -> ToolRequest
                     -> string + ToolResponse;
  time_Now : list Event -> string;
  fmt_q : string -> string;
  url_Parse_ok : string -> bool
}.

(* ---------------------------------------------------------------- *)
(** *** The run monad: the calls made so far are threaded through,
    and a panic ends the run *)

(** A computation takes the log of the calls made so far and yields a
    value, or [None] when it panics, with the log extended. *)
Definition M (A : Type) : Type := list Event -> option A * list Event.

Definition ret {A : Type} (a : A) : M A := fun tr => (Some a, tr).

Definition bind {A B : Type} (m : M A) (f : A -> M B) : M B :=
  fun tr => match m tr with
            | (Some a, tr') => f a tr'
            | (None, tr') => (None, tr')
            end.

Definition panic {A : Type} : M A := fun tr => (None, tr).

Declare Scope run_scope.
Delimit Scope run_scope with run.
Notation "x <- m ;; k" := (bind m (fun x => k))
  (at level 61, m at next level, right associativity) : run_scope.
Notation "m ;;; k" := (bind m (fun _ => k))
  (at level 61, right associativity) : run_scope.
Local Open Scope run_scope.

(** A call: ask the collaborator, log the exchange. *)
Definition call {A : Type} (ask : list Event -> A) (log : A -> Event) : M A :=
  fun tr => let a := ask tr in (Some a, (tr ++ [log a])%list).

(* ---------------------------------------------------------------- *)
(** *** Pure helpers *)

(** [v, _ := m[key].(string)]. *)
Definition string_field (m : object) (key : string) : string :=
  match map_index m key with
  | Some (JString s) => s
  | _ => EmptyString
  end.

(** The body of the loop over [history]: the builder after [m]. *)
Definition write_history (b : string) (m : object) : string :=
  let role := string_field m "role" in
  let content := string_field m "content" in
  if negb (String.eqb role EmptyString) || negb (String.eqb content EmptyString)
  then b ++ (role ++ ": " ++ content ++ nl)
  else b.

(** The body of the loop over the matches. *)
Definition write_match (b : string) (m : RAGMatch) : string :=
  let b := b ++ ("**" ++ KnowledgeBase m ++ "**" ++ nl) in
  let b := b ++ ("ID: " ++ Id m ++ nl) in
  b ++ ("Text: " ++ Text m ++ nl ++ "---" ++ nl).

(** [buildPlannerPrompt]; [rag] is [None] for a nil response.  The
    [strings.Builder] is the string written so far. *)
Definition buildPlannerPrompt (userPrompt : string) (history : list object)
           (rag : option RAGContextResponse) : string :=
  let b := EmptyString in
  let b := b ++ ("<session_history>" ++ nl) in
  let b := fold_left write_history history b in
  let b := b ++ ("</session_history>" ++ nl ++ nl) in
  let b := b ++ ("<rag_context>" ++ nl) in
  let b := match rag with
           | Some r => fold_left write_match (Matches r) b
           | None => b
           end in
  let b := b ++ ("</rag_context>" ++ nl ++ nl) in
  let b := b ++ ("<user_prompt>" ++ nl) in
  let b := b ++ userPrompt in
  b ++ (nl ++ "</user_prompt>" ++ nl).

Definition buildFollowupPrompt (originalPrompt plan toolResult : string) : string :=
  originalPrompt ++ nl ++ nl ++ "<plan>" ++ nl ++ plan ++ nl ++ "</plan>"
  ++ nl ++ nl ++ "<tool_result>" ++ nl ++ toolResult ++ nl ++ "</tool_result>" ++ nl.

(** [tryParseToolCall]; [None] is the nil pointer. *)
Definition tryParseToolCall (planJSON : string) : option ToolCall :=
  match Unmarshal_map planJSON with
  | None => None
  | Some raw =>
    let raw := match raw with Some m => m | None => [] end in
    match map_index raw "tool" with
    | Some (JObject toolObj) =>
      let name := string_field toolObj "name" in
      let args := match map_index toolObj "args" with
                  | Some (JObject a) => Some a
                  | _ => None
                  end in
      if String.eqb (TrimSpace name) EmptyString then None
      else Some {| Name := name; Args := args; Raw := raw |}
    | _ => None
    end
  end.

(** The struct [fetchSessionHistory] decodes the reply into has the one
    field [Messages []map[string]any]. *)
Definition store_messages (s : slice object) (kv : string * json) : slice object :=
  if field_matches (fst kv) "messages"
  then fst (store_slice [] store_map (snd kv) s)
  else s.

(** [json.NewDecoder(resp.Body).Decode(&payload)] with its error
    dropped: the first JSON value of the body is decoded, and what the
    decoder stored before an error stays. *)
Definition Decode_messages (body : string) : list object :=
  match parse_value (S (String.length body)) 0 body with
  | Some (JObject ms, _) => elements (fold_left store_messages ms nil_slice)
  | _ => []
  end.

(** The string [executeToolGRPC] returns for a tool response. *)
Definition encode_tool_output (resp : ToolResponse) : string :=
  Marshal [("status", PString (tr_Status resp));
           ("stdout", PString (Stdout resp));
           ("stderr", PString (Stderr resp))].

(** The text [PublishStatus] and [PublishNotification] hand to the
    broker: [json.Marshal(payload)]. *)
Definition notification_json (m : Notification) : string :=
  Marshal [("trace_id", PString (n_trace_id m));
           ("session_id", PString (n_session_id m));
           match n_body m with
           | Status status => ("status", PString status)
           | Result result => ("result", PString result)
           end;
           ("timestamp", PString (n_timestamp m))].

(* ---------------------------------------------------------------- *)
(** *** The methods of the planner *)

Section Run.

Variable env : Env.
Variable p : PlannerT.

Definition RecordStep (ctx : Context) (sessionID eventType : string)
           (data : AuditData) : M (option string) :=
  if negb (auditDB p) then ret None
  else call (fun tr => audit_RecordStep env tr (trace_id ctx) sessionID eventType data)
            (EvAudit (trace_id ctx) sessionID eventType data).

Definition publish (ctx : Context) (sessionID : string) (body : NotificationBody)
  : M (option string) :=
  fun tr =>
    let payload := {| n_trace_id := trace_id ctx;
                      n_session_id := sessionID;
                      n_body := body;
                      n_timestamp := time_Now env tr |} in
    call (fun tr => redis_Publish env tr notificationsChannel payload)
         (EvPublish notificationsChannel payload) tr.

Definition PublishStatus (ctx : Context) (sessionID status : string)
  : M (option string) :=
  if negb (redis p) then ret None else publish ctx sessionID (Status status).

Definition PublishNotification (ctx : Context) (sessionID result : string)
  : M (option string) :=
  if negb (redis p) then ret None else publish ctx sessionID (Result result).

Definition request_url (req : HttpRequest) : string :=
  match req with
  | Get url => url
  | Post url _ => url
  end.

(** [req, _ := http.NewRequestWithContext(...)] followed by
    [p.httpClient.Do(req)]: when [url.Parse] rejects the address the
    request is nil, its error is dropped, and the first use of the nil
    request panics; otherwise the request is sent. *)
Definition http (req : HttpRequest) : M HttpReply :=
  if url_Parse_ok env (request_url req)
  then call (fun tr => http_Do env tr req) (EvHttp req)
  else panic.

Definition memory_url (path : string) : string :=
  TrimRightSlash (MemoryServiceHTTP (cfg p)) ++ path.

(** [fetchSessionHistory]: the messages (nil on an error) and the error. *)
Definition fetchSessionHistory (ctx : Context) (sessionID : string)
  : M (list object * option string) :=
  reply <- http (Get (memory_url "/memory/latest?session_id=" ++ sessionID)) ;;
  match reply with
  | HttpErr err => ret ([], Some err)
  | HttpResp status body =>
    if 300 <=? status then ret ([], Some ("memory/latest: " ++ body))
    else ret (Decode_messages body, None)
  end.

Definition storeSessionDelta (ctx : Context)
           (sessionID userPrompt assistantText : string) : M (option string) :=
  let body := StoreBody sessionID
                        [("user", userPrompt); ("assistant", assistantText)]
                        userPrompt assistantText in
  reply <- http (Post (memory_url "/memory/store") body) ;;
  match reply with
  | HttpErr err => ret (Some err)
  | HttpResp _ _ => ret None
  end.

Definition storePlaybook (ctx : Context) (sessionID prompt : string)
           (historySequence : list entry) : M (option string) :=
  (* skip storing trivial 1-step sessions *)
  if (List.length historySequence <? 3)%nat then ret None
  else
    reply <- http (Post (memory_url "/memory/playbook")
                        (PlaybookBody sessionID prompt historySequence)) ;;
    match reply with
    | HttpErr err => ret (Some err)
    | HttpResp status out =>
      if 300 <=? status then ret (Some ("memory/playbook: " ++ out))
      else ret None
    end.

(** [executeToolGRPC]: an error text or the encoded output.  Marshalling
    the arguments cannot fail, they are decoded JSON. *)
Definition executeToolGRPC (ctx : Context) (toolName : string)
           (args : option object) : M (string + string) :=
  if negb (toolClient p) then ret (inl "rust sandbox tool client is nil")
  else
    let args := match args with Some a => a | None => [] end in
    let req := {| ToolName := toolName; tr_Args := args |} in
    reply <- call (fun tr => tool_ExecuteTool env tr (outgoing_md ctx) req)
                  (EvExecuteTool (outgoing_md ctx) req) ;;
    match reply with
    | inl err => ret (inl ("ExecuteTool(" ++ fmt_q env toolName ++ "): " ++ err))
    | inr resp => ret (inr (encode_tool_output resp))
    end.

Definition executeTool := executeToolGRPC.

(** The variables [AgentLoop] updates from turn to turn. *)
Record LoopState : Type := {
  prompt : string;
  playbookSeq : list entry;
  hadToolStep : bool
}.

(** How a turn leaves the loop body: by a [return], or on to the next
    turn. *)
Inductive TurnResult : Type :=
| Return (result : string) (err : option string) (st : LoopState)
| Continue (st : LoopState).

(** The body of the [for] loop of [AgentLoop]. *)
Definition turn_body (ctx : Context) (sessionID basePrompt : string)
           (st : LoopState) : M TurnResult :=
  (* 1) session history *)
  h <- fetchSessionHistory ctx sessionID ;;
  let history := fst h in
  (* 2) RAG context; the response is nil when the call fails *)
  let rag_req := {| Query := prompt st;
                    rag_TopK := wrap32 (TopK (cfg p));
                    KnowledgeBases := KBs (cfg p) |} in
  r <- call (fun tr => memory_GetRAGContext env tr (outgoing_md ctx) rag_req)
            (EvGetRAGContext (outgoing_md ctx) rag_req) ;;
  let rag := match r with inr resp => Some resp | inl _ => None end in
  let plannerInput := buildPlannerPrompt (prompt st) history rag in
  (* 3) planning *)
  planResp <- call (fun tr => model_GetPlan env tr (outgoing_md ctx) plannerInput)
                   (EvGetPlan (outgoing_md ctx) plannerInput) ;;
  match planResp with
  | inl err =>
    RecordStep ctx sessionID "PLAN_ERROR" (DataError err) ;;;
    ret (Return EmptyString (Some ("GetPlan: " ++ err)) st)
  | inr plan =>
    RecordStep ctx sessionID "PLAN_MODEL_RESPONSE" (DataPlan plan) ;;;
    match tryParseToolCall plan with
    | None =>
      (* successful completion path *)
      let seq := (playbookSeq st ++ [("assistant", plan)])%list in
      RecordStep ctx sessionID "PLAN_END" (DataResult plan) ;;;
      (if hadToolStep st then storePlaybook ctx sessionID basePrompt seq
       else ret None) ;;;
      storeSessionDelta ctx sessionID (prompt st) plan ;;;
      PublishNotification ctx sessionID plan ;;;
      PublishStatus ctx sessionID "COMPLETED" ;;;
      ret (Return plan None
                  {| prompt := prompt st; playbookSeq := seq;
                     hadToolStep := hadToolStep st |})
    | Some toolCall =>
      RecordStep ctx sessionID "TOOL_CALL"
                 (DataToolCall (Name toolCall) (Args toolCall)) ;;;
      (* 4) tool execution *)
      out <- executeTool ctx (Name toolCall) (Args toolCall) ;;
      match out with
      | inl err =>
        RecordStep ctx sessionID "TOOL_ERROR"
                   (DataToolError (Name toolCall) err) ;;;
        (* feed the tool error back into the loop *)
        ret (Continue {| prompt := prompt st ++ nl ++ nl ++ "Tool error: " ++ err;
                         playbookSeq := playbookSeq st;
                         hadToolStep := hadToolStep st |})
      | inr toolOut =>
        RecordStep ctx sessionID "TOOL_RESULT"
                   (DataToolResult (Name toolCall) toolOut) ;;;
        let seq := ((playbookSeq st ++ [("assistant", plan)])
                      ++ [("tool_result", toolOut)])%list in
        (* 5) feedback *)
        let prompt' := buildFollowupPrompt (prompt st) plan toolOut in
        storeSessionDelta ctx sessionID "[tool-plan]" plan ;;;
        storeSessionDelta ctx sessionID "[tool-output]" toolOut ;;;
        ret (Continue {| prompt := prompt'; playbookSeq := seq;
                         hadToolStep := true |})
      end
    end
  end.

(** What a run of [AgentLoop] comes to: the two values it returns, the
    loop variables when it returned, the number of times the loop body
    was entered, and whether it left by the [return] after the loop. *)
Record Outcome : Type := {
  result : string;
  error : option string;
  final : LoopState;
  iterations : nat;
  exhausted : bool
}.

Definition sentinel : string := "Max turns reached; unable to complete request.".

(** [for turn := 1; turn <= maxTurns; turn++ { ... }] and the [return]
    that follows it.  [fuel] bounds the number of tests of the loop
    condition; [None] is a run cut short by it. *)
Fixpoint loop (fuel : nat) (ctx : Context) (sessionID basePrompt : string)
         (maxTurns turn : Z) (n : nat) (st : LoopState) : M (option Outcome) :=
  match fuel with
  | O => ret None
  | S fuel' =>
    if turn <=? maxTurns then
      r <- turn_body ctx sessionID basePrompt st ;;
      match r with
      | Return res err st' =>
        ret (Some {| result := res; error := err; final := st';
                     iterations := S n; exhausted := false |})
      | Continue st' =>
        loop fuel' ctx sessionID basePrompt maxTurns (wrap64 (turn + 1)) (S n) st'
      end
    else
      ret (Some {| result := sentinel; error := None; final := st;
                   iterations := n; exhausted := true |})
  end.

(** The turn budget: [p.cfg.MaxTurns], or 3 when that is not positive. *)
Definition effective_max_turns : Z :=
  if MaxTurns (cfg p) <=? 0 then 3 else MaxTurns (cfg p).

(** [AgentLoop], with the outcome of the run. *)
Definition AgentLoop_run (fuel : nat) (ctx : Context) (prompt0 sessionID : string)
  : M (option Outcome) :=
  let ctx := injectTraceIDToOutgoingGRPC ctx in
  let basePrompt := prompt0 in
  RecordStep ctx sessionID "PLAN_START"
             (DataPlanStart basePrompt (MaxTurns (cfg p)) (TopK (cfg p)) (KBs (cfg p))) ;;;
  PublishStatus ctx sessionID "STARTED" ;;;
  let st := {| prompt := prompt0;
               playbookSeq := [("user", basePrompt)];
               hadToolStep := false |} in
  loop fuel ctx sessionID basePrompt effective_max_turns 1 0 st.

(** Enough fuel for every budget below the largest [int]. *)
Definition enough_fuel : nat := S (Z.to_nat effective_max_turns).

(** [url.Parse] accepts the three addresses of the memory service a
    request of the session uses. *)
Definition urls_parse (sessionID : string) : bool :=
  url_Parse_ok env (memory_url "/memory/latest?session_id=" ++ sessionID)
  && url_Parse_ok env (memory_url "/memory/store")
  && url_Parse_ok env (memory_url "/memory/playbook").

(** A whole run from an empty log: the outcome when [AgentLoop]
    returns ([None] when it panics or the fuel is used up) and the calls
    made. *)
Definition run (ctx : Context) (prompt0 sessionID : string)
  : option Outcome * list Event :=
  match AgentLoop_run enough_fuel ctx prompt0 sessionID [] with
  | (Some (Some o), tr) => (Some o, tr)
  | (_, tr) => (None, tr)
  end.

(** [AgentLoop] as the caller sees it: the result text and the error. *)
Definition AgentLoop (ctx : Context) (prompt0 sessionID : string)
  : option (string * option string) :=
  option_map (fun o => (result o, error o)) (fst (run ctx prompt0 sessionID)).

(** [AgentLoop] panics. *)
Definition panics (ctx : Context) (prompt0 sessionID : string) : Prop :=
  fst (AgentLoop_run enough_fuel ctx prompt0 sessionID []) = None.

End Run.

End Planner.

(* ------------------------------------------------------------------ *)
(** ** What a log of calls shows *)

Module Observe.
Import GoJSON Planner.

(** The event types passed to [RecordStep], in order. *)
Definition audit_types (tr : list Event) : list string :=
  flat_map (fun e => match e with EvAudit _ _ t _ _ => [t] | _ => [] end) tr.

(** The notifications published, in order. *)
Definition published (tr : list Event) : list NotificationBody :=
  flat_map (fun e => match e with EvPublish _ m _ => [n_body m] | _ => [] end) tr.

(** The bodies posted to [/memory/store] and to [/memory/playbook]. *)
Definition session_deltas (tr : list Event) : list (string * string) :=
  flat_map (fun e => match e with
                     | EvHttp (Post _ (StoreBody _ _ user assistant)) _ =>
                       [(user, assistant)]
                     | _ => []
                     end) tr.

Definition playbook_posts (tr : list Event) : list (list entry) :=
  flat_map (fun e => match e with
                     | EvHttp (Post _ (PlaybookBody _ _ seq)) _ => [seq]
                     | _ => []
                     end) tr.

(** The replies of the model gateway, in order. *)
Definition plan_replies (tr : list Event) : list (string + string) :=
  flat_map (fun e => match e with EvGetPlan _ _ r => [r] | _ => [] end) tr.

(** The requests sent to the model gateway. *)
Definition plan_requests (tr : list Event) : list string :=
  flat_map (fun e => match e with EvGetPlan _ i _ => [i] | _ => [] end) tr.

(** The line of a history message and the block of a match, as the
    planner input shows them. *)
Definition history_line (m : object) : string :=
  string_field m "role" ++ ": " ++ string_field m "content" ++ nl.

Definition match_block (m : RAGMatch) : string :=
  "**" ++ KnowledgeBase m ++ "**" ++ nl ++ "ID: " ++ Id m ++ nl
  ++ "Text: " ++ Text m ++ nl ++ "---" ++ nl.

Definition concat_str (l : list string) : string :=
  fold_right append EmptyString l.

(** The planner input assembled from the lines of [history] and the
    blocks of [matches]. *)
Definition three_sections (userPrompt : string) (history : list object)
           (matches : list RAGMatch) : string :=
  "<session_history>" ++ nl ++ concat_str (map history_line history)
  ++ "</session_history>" ++ nl ++ nl
  ++ "<rag_context>" ++ nl ++ concat_str (map match_block matches)
  ++ "</rag_context>" ++ nl ++ nl
  ++ "<user_prompt>" ++ nl ++ userPrompt ++ nl ++ "</user_prompt>" ++ nl.

(** The planner input in the words of the specification: one line per
    history message, one block per match. *)
Definition spec_planner_input (userPrompt : string) (history : list object)
           (rag : option RAGContextResponse) : string :=
  three_sections userPrompt history
                 (match rag with Some r => Matches r | None => [] end).

(** A history message with a role or a content to show. *)
Definition has_text (m : object) : bool :=
  negb (String.eqb (string_field m "role") EmptyString)
  || negb (String.eqb (string_field m "content") EmptyString).

(** The interpreter in the words of the specification: the name and
    the arguments of the tool call, the arguments being the empty
    mapping when [tool.args] is absent or not an object. *)
Definition spec_interpret (plan_text : string) : option (string * option object) :=
  match parse plan_text with
  | Some (JObject ms) =>
    match map_index ms "tool" with
    | Some (JObject tool) =>
      match map_index tool "name" with
      | Some (JString name) =>
        if String.eqb name EmptyString then None
        else Some (name,
                   Some (match map_index tool "args" with
                         | Some (JObject args) => args
                         | _ => []
                         end))
      | _ => None
      end
    | _ => None
    end
  | _ => None
  end.

(** The name and the arguments of what [tryParseToolCall] returns. *)
Definition interpret (plan_text : string) : option (string * option object) :=
  option_map (fun tc => (Name tc, Args tc)) (tryParseToolCall plan_text).

(** [wp m Q tr]: running [m] after the calls [tr] does not panic and
    gives a value and a log that satisfy [Q]. *)
Definition wp {A : Type} (m : M A) (Q : A -> list Event -> Prop)
           (tr : list Event) : Prop :=
  exists a tr', m tr = (Some a, tr') /\ Q a tr'.

Section Turn.

Variable env : Env.
Variable p : PlannerT.
Variable ctx : Context.
Variable sessionID basePrompt : string.

(** The call [RecordStep] makes, if the audit database is there. *)
Definition audit_ev (eventType : string) (data : AuditData) (err : option string)
  : list Event :=
  if auditDB p then [EvAudit (trace_id ctx) sessionID eventType data err] else [].

(** The call a publish makes, if the broker is there. *)
Definition publish_ev (body : NotificationBody) (ts : string) (err : option string)
  : list Event :=
  if redis p
  then [EvPublish notificationsChannel
                  {| n_trace_id := trace_id ctx; n_session_id := sessionID;
                     n_body := body; n_timestamp := ts |} err]
  else [].

(** The history [fetchSessionHistory] makes of a reply. *)
Definition history_of (reply : HttpReply) : list object :=
  match reply with
  | HttpErr _ => []
  | HttpResp status body => if 300 <=? status then [] else Decode_messages body
  end.

Definition rag_of (r : string + RAGContextResponse) : option RAGContextResponse :=
  match r with inr resp => Some resp | inl _ => None end.

Definition rag_request (st : LoopState) : RAGContextRequest :=
  {| Query := prompt st; rag_TopK := wrap32 (TopK (cfg p));
     KnowledgeBases := KBs (cfg p) |}.

(** The two context calls that open a turn. *)
Definition context_events (st : LoopState) (reply : HttpReply)
           (rag : string + RAGContextResponse) : list Event :=
  [EvHttp (Get (memory_url p "/memory/latest?session_id=" ++ sessionID)) reply;
   EvGetRAGContext (outgoing_md ctx) (rag_request st) rag].

Definition planner_input (st : LoopState) (reply : HttpReply)
           (rag : string + RAGContextResponse) : string :=
  buildPlannerPrompt (prompt st) (history_of reply) (rag_of rag).

Definition store_event (user assistant : string) (reply : HttpReply) : Event :=
  EvHttp (Post (memory_url p "/memory/store")
               (StoreBody sessionID [("user", user); ("assistant", assistant)]
                          user assistant)) reply.

(** The call [storePlaybook] makes on the completion path. *)
Definition playbook_events (st : LoopState) (seq : list entry) (reply : HttpReply)
  : list Event :=
  if hadToolStep st && (3 <=? List.length seq)%nat
  then [EvHttp (Post (memory_url p "/memory/playbook")
                     (PlaybookBody sessionID basePrompt seq)) reply]
  else [].

(** What [executeTool] does for a tool call: the call it makes (none
    without a client) and what it returns. *)
Inductive tool_dispatch (tc : ToolCall) (tr : list Event)
  : list Event -> string + string -> Prop :=
| dispatch_no_client :
    toolClient p = false ->
    tool_dispatch tc tr [] (inl "rust sandbox tool client is nil")
| dispatch_error : forall err,
    toolClient p = true ->
    let req := {| ToolName := Name tc;
                  tr_Args := match Args tc with Some a => a | None => [] end |} in
    tool_ExecuteTool env tr (outgoing_md ctx) req = inl err ->
    tool_dispatch tc tr [EvExecuteTool (outgoing_md ctx) req (inl err)]
                  (inl ("ExecuteTool(" ++ fmt_q env (Name tc) ++ "): " ++ err))
| dispatch_ok : forall resp,
    toolClient p = true ->
    let req := {| ToolName := Name tc;
                  tr_Args := match Args tc with Some a => a | None => [] end |} in
    tool_ExecuteTool env tr (outgoing_md ctx) req = inr resp ->
    tool_dispatch tc tr [EvExecuteTool (outgoing_md ctx) req (inr resp)]
                  (inr (encode_tool_output resp)).

(** The four ways through the loop body: from the variables [st] and
    the log [tr], the way the body is left and the calls it adds. *)
Inductive turn_case (st : LoopState) (tr : list Event)
  : TurnResult -> list Event -> Prop :=
| turn_plan_error : forall reply rag err a,
    model_GetPlan env (tr ++ context_events st reply rag) (outgoing_md ctx)
                  (planner_input st reply rag) = inl err ->
    turn_case st tr
      (Return EmptyString (Some ("GetPlan: " ++ err)) st)
      (context_events st reply rag
       ++ [EvGetPlan (outgoing_md ctx) (planner_input st reply rag) (inl err)]
       ++ audit_ev "PLAN_ERROR" (DataError err) a)
| turn_final : forall reply rag plan a1 a2 pb_reply st_reply ts1 e1 ts2 e2,
    model_GetPlan env (tr ++ context_events st reply rag) (outgoing_md ctx)
                  (planner_input st reply rag) = inr plan ->
    tryParseToolCall plan = None ->
    let seq := (playbookSeq st ++ [("assistant", plan)])%list in
    turn_case st tr
      (Return plan None
              {| prompt := prompt st; playbookSeq := seq;
                 hadToolStep := hadToolStep st |})
      (context_events st reply rag
       ++ [EvGetPlan (outgoing_md ctx) (planner_input st reply rag) (inr plan)]
       ++ audit_ev "PLAN_MODEL_RESPONSE" (DataPlan plan) a1
       ++ audit_ev "PLAN_END" (DataResult plan) a2
       ++ playbook_events st seq pb_reply
       ++ [store_event (prompt st) plan st_reply]
       ++ publish_ev (Result plan) ts1 e1
       ++ publish_ev (Status "COMPLETED") ts2 e2)
| turn_tool_error : forall reply rag plan tc a1 a2 a3 tevs err,
    model_GetPlan env (tr ++ context_events st reply rag) (outgoing_md ctx)
                  (planner_input st reply rag) = inr plan ->
    tryParseToolCall plan = Some tc ->
    let before :=
      (context_events st reply rag
       ++ [EvGetPlan (outgoing_md ctx) (planner_input st reply rag) (inr plan)]
       ++ audit_ev "PLAN_MODEL_RESPONSE" (DataPlan plan) a1
       ++ audit_ev "TOOL_CALL" (DataToolCall (Name tc) (Args tc)) a2)%list in
    tool_dispatch tc (tr ++ before) tevs (inl err) ->
    turn_case st tr
      (Continue {| prompt := prompt st ++ nl ++ nl ++ "Tool error: " ++ err;
                   playbookSeq := playbookSeq st;
                   hadToolStep := hadToolStep st |})
      (before ++ tevs
       ++ audit_ev "TOOL_ERROR" (DataToolError (Name tc) err) a3)
| turn_tool_ok : forall reply rag plan tc a1 a2 a3 tevs out r1 r2,
    model_GetPlan env (tr ++ context_events st reply rag) (outgoing_md ctx)
                  (planner_input st reply rag) = inr plan ->
    tryParseToolCall plan = Some tc ->
    let before :=
      (context_events st reply rag
       ++ [EvGetPlan (outgoing_md ctx) (planner_input st reply rag) (inr plan)]
       ++ audit_ev "PLAN_MODEL_RESPONSE" (DataPlan plan) a1
       ++ audit_ev "TOOL_CALL" (DataToolCall (Name tc) (Args tc)) a2)%list in
    tool_dispatch tc (tr ++ before) tevs (inr out) ->
    turn_case st tr
      (Continue {| prompt := buildFollowupPrompt (prompt st) plan out;
                   playbookSeq := ((playbookSeq st ++ [("assistant", plan)])
                                     ++ [("tool_result", out)])%list;
                   hadToolStep := true |})
      (before ++ tevs
       ++ audit_ev "TOOL_RESULT" (DataToolResult (Name tc) out) a3
       ++ [store_event "[tool-plan]" plan r1; store_event "[tool-output]" out r2]).

(** The shape of the loop from the test of [turn <= maxTurns] on: the
    outcome and the calls added to the log [tr]. *)
Inductive loop_run (maxTurns : Z)
  : Z -> nat -> LoopState -> list Event -> Outcome -> list Event -> Prop :=
| run_exhausted : forall turn n st tr,
    maxTurns < turn ->
    loop_run maxTurns turn n st tr
             {| result := sentinel; error := None; final := st;
                iterations := n; exhausted := true |} []
| run_return : forall turn n st tr res err st' evs,
    turn <= maxTurns ->
    turn_case st tr (Return res err st') evs ->
    loop_run maxTurns turn n st tr
             {| result := res; error := err; final := st';
                iterations := S n; exhausted := false |} evs
| run_continue : forall turn n st tr st' evs o evs',
    turn <= maxTurns ->
    turn_case st tr (Continue st') evs ->
    loop_run maxTurns (wrap64 (turn + 1)) (S n) st' (tr ++ evs)%list o evs' ->
    loop_run maxTurns turn n st tr o (evs ++ evs')%list.

End Turn.

(** The variables at the first test of the loop condition. *)
Definition start_state (prompt0 : string) : LoopState :=
  {| prompt := prompt0; playbookSeq := [("user", prompt0)]; hadToolStep := false |}.

(** The two calls a run opens with; [ctx] is the context after
    [injectTraceIDToOutgoingGRPC]. *)
Definition opening (p : PlannerT) (ctx : Context) (sessionID prompt0 : string)
           (a : option string) (ts : string) (e : option string) : list Event :=
  (audit_ev p ctx sessionID "PLAN_START"
            (DataPlanStart prompt0 (MaxTurns (cfg p)) (TopK (cfg p)) (KBs (cfg p))) a
   ++ publish_ev p ctx sessionID (Status "STARTED") ts e)%list.

(** A run that left by the completion path. *)
Definition finalized (o : Outcome) : bool :=
  negb (exhausted o) && match error o with None => true | Some _ => false end.

(** The terminal audit event of a run, if it has one. *)
Definition terminal (o : Outcome) : list string :=
  if exhausted o then []
  else match error o with
       | None => ["PLAN_END"]
       | Some _ => ["PLAN_ERROR"]
       end.

(** The audit events of the turns that go on to another turn. *)
Definition is_step (t : string) : Prop :=
  t = "PLAN_MODEL_RESPONSE" \/ t = "TOOL_CALL" \/ t = "TOOL_RESULT" \/ t = "TOOL_ERROR".

(** The model gateway answers every request with a plan that is a tool
    call. *)
Definition always_tool_call (env : Env) : Prop :=
  forall tr md input,
    exists plan, model_GetPlan env tr md input = inr plan
                 /\ tryParseToolCall plan <> None.

(** An audit stream that begins with one [PLAN_START] and ends with
    one [PLAN_END] or [PLAN_ERROR], with no other start or terminal. *)
Definition bracketed (l : list string) : Prop :=
  exists mid t,
    l = ("PLAN_START" :: mid ++ [t])%list
    /\ (t = "PLAN_END" \/ t = "PLAN_ERROR")
    /\ ~ In "PLAN_START" mid /\ ~ In "PLAN_END" mid /\ ~ In "PLAN_ERROR" mid.

End Observe.

(* ------------------------------------------------------------------ *)
(** ** Scripted collaborators, for concrete runs *)

Module Scenarios.
Import GoJSON Planner Observe.

Definition is_GetPlan (e : Event) : bool :=
  match e with EvGetPlan _ _ _ => true | _ => false end.

Definition is_ExecuteTool (e : Event) : bool :=
  match e with EvExecuteTool _ _ _ => true | _ => false end.

(** Collaborators that answer the n-th plan request with the n-th
    entry of [plans] ([last_plan] once the list is used up) and the n-th
    tool request with the n-th entry of [tools]; the memory service has
    no history and no match, every write succeeds. *)
Definition scripted (plans : list (string + string)) (last_plan : string + string)
           (tools : list (string + ToolResponse))
           (last_tool : string + ToolResponse) : Env :=
  {| audit_RecordStep := fun _ _ _ _ _ => None;
     redis_Publish := fun _ _ _ => None;
     http_Do := fun _ _ => HttpResp 200 (dq "{'messages':[]}");
     memory_GetRAGContext := fun _ _ _ => inr {| Matches := [] |};
     model_GetPlan := fun tr _ _ =>
       nth (List.length (filter is_GetPlan tr)) plans last_plan;
     tool_ExecuteTool := fun tr _ _ =>
       nth (List.length (filter is_ExecuteTool tr)) tools last_tool;
     time_Now := fun _ => "2026-01-01T00:00:00Z";
     fmt_q := fun s => String quote s ++ String quote EmptyString;
     url_Parse_ok := GoURL.Parse_ok |}.

Definition config (max_turns : Z) : Config :=
  {| ModelGatewayAddr := "localhost:50051";
     MemoryServiceAddr := "localhost:50052";
     MemoryServiceHTTP := "http://localhost:8003";
     RustSandboxGRPCAddr := "localhost:50053";
     RustSandboxHTTPURL := "http://localhost:8001";
     AuditDBPath := "./pagi_audit.db";
     RedisAddr := "localhost:6379";
     MaxTurns := max_turns;
     TopK := 3;
     KBs := ["Mind-KB"; "Domain-KB"; "Body-KB"; "Soul-KB"] |}.

(** A planner with every client connected. *)
Definition planner (max_turns : Z) : PlannerT :=
  {| cfg := config max_turns; toolClient := true; auditDB := true; redis := true |}.

Definition ctx0 : Context := {| trace_id := "trace-1"; outgoing_md := [] |}.

Definition tool_plan : string := dq "{'tool':{'name':'search','args':{'q':'foo'}}}".

Definition tool_ok : ToolResponse :=
  {| tr_Status := "ok"; Stdout := "bar"; Stderr := EmptyString |}.

(** The model asks for a tool on every turn and the tool service runs it. *)
Definition always_tool : Env := scripted [] (inr tool_plan) [] (inr tool_ok).

(** One tool turn, then a final answer. *)
Definition tool_then_answer : Env :=
  scripted [inr tool_plan] (inr "answer: bar") [] (inr tool_ok).

(** The tool call fails on the first turn, then a final answer. *)
Definition tool_fails_then_answer : Env :=
  scripted [inr tool_plan] (inr "done") [] (inl "rpc error: unavailable").

(** A final answer on the first turn. *)
Definition answer_at_once : Env := scripted [] (inr "hi there") [] (inr tool_ok).

(** The model gateway fails on the first turn. *)
Definition plan_fails : Env :=
  scripted [] (inl "rpc error: deadline exceeded") [] (inr tool_ok).

(** A gateway server with a connected client, and a model that answers
    with fenced JSON. *)
Definition server0 : Gateway.server :=
  {| Gateway.llm := Some {| Gateway.Provider := Gateway.providerOllama;
                            Gateway.Model := "llama3";
                            Gateway.Client := true |} |}.

Definition fenced_content : string :=
  "```json" ++ nl ++ dq "{'steps':['look up foo','answer']}" ++ nl ++ "```".

Definition model0 (req : Gateway.ChatCompletionRequest) : string + list string :=
  inr [fenced_content].

(** A history message whose role and content are empty strings. *)
Definition blank_message : object :=
  [("role", JString EmptyString); ("content", JString EmptyString)].

(** A tool call whose name is a single space, and one without
    arguments. *)
Definition blank_name_plan : string := dq "{'tool':{'name':' '}}".
Definition no_args_plan : string := dq "{'tool':{'name':'t'}}".

(** The request [executeTool] sends for [tool_plan]. *)
Definition search_request : ToolRequest :=
  {| ToolName := "search"; tr_Args := [("q", JString "foo")] |}.

End Scenarios.

(* ------------------------------------------------------------------ *)
(** ** The shape of a run of [AgentLoop], turn by turn *)

Module Shapes.
Import GoJSON Planner Observe.

(** The addresses fetched, the retrieval requests and the tool requests
    of a log, in order. *)
Definition history_requests (tr : list Event) : list string :=
  flat_map (fun e => match e with EvHttp (Get url) _ => [url] | _ => [] end) tr.

Definition rag_requests (tr : list Event) : list RAGContextRequest :=
  flat_map (fun e => match e with EvGetRAGContext _ r _ => [r] | _ => [] end) tr.

Definition tool_requests (tr : list Event) : list ToolRequest :=
  flat_map (fun e => match e with EvExecuteTool _ r _ => [r] | _ => [] end) tr.

(** The audit events of a turn that goes on to another turn: the tool
    ran ([true]) or failed ([false]). *)
Definition step_audit (ok : bool) : list string :=
  ["PLAN_MODEL_RESPONSE"; "TOOL_CALL"; if ok then "TOOL_RESULT" else "TOOL_ERROR"].

(** The audit events of the turn that returns. *)
Definition closing_audit (o : Outcome) : list string :=
  if exhausted o then []
  else match error o with
       | None => ["PLAN_MODEL_RESPONSE"; "PLAN_END"]
       | Some _ => ["PLAN_ERROR"]
       end.

(** The number of turns that went on to another turn. *)
Definition steps_taken (o : Outcome) : nat :=
  if exhausted o then iterations o else pred (iterations o).

(** What a successful tool turn, with its plan and its tool output,
    stores as session deltas and appends to the playbook. *)
Definition step_deltas (s : string * string) : list (string * string) :=
  [("[tool-plan]", fst s); ("[tool-output]", snd s)].

Definition step_entries (s : string * string) : list entry :=
  [("assistant", fst s); ("tool_result", snd s)].

(** What the completion path stores and appends. *)
Definition final_delta (o : Outcome) : list (string * string) :=
  if finalized o then [(prompt (final o), result o)] else [].

Definition final_entry (o : Outcome) : list entry :=
  if finalized o then [("assistant", result o)] else [].

(** What a turn asks for before it decides: the history, the
    retrieval context and the plan.  [asked tr] is what a log shows of
    it, in order. *)
Inductive Ask : Type := AskHistory | AskContext | AskPlan.

Definition asked (tr : list Event) : list Ask :=
  flat_map (fun e => match e with
                     | EvHttp (Get _) _ => [AskHistory]
                     | EvGetRAGContext _ _ _ => [AskContext]
                     | EvGetPlan _ _ _ => [AskPlan]
                     | _ => []
                     end) tr.

(** [n] turns that each ask for the three, in this order. *)
Definition asked_in_turns (n : nat) : list Ask :=
  concat (repeat [AskHistory; AskContext; AskPlan] n).

(** The tool traffic of a log, in order: [false] for a [TOOL_CALL]
    record, [true] for a request to the tool service. *)
Definition tool_traffic (tr : list Event) : list bool :=
  flat_map (fun e => match e with
                     | EvAudit _ _ t _ _ =>
                       if String.eqb t "TOOL_CALL" then [false] else []
                     | EvExecuteTool _ _ _ => [true]
                     | _ => []
                     end) tr.

(** The traffic of [n] turns that each record the call and then make
    one request. *)
Definition dispatched (n : nat) : list bool := concat (repeat [false; true] n).

(** What a notification names on the wire: its text is a JSON object
    whose members [trace_id] and [session_id] are these two strings,
    an invalid byte of theirs written as U+FFFD. *)
Definition names_on_wire (traceID sessionID : string) (m : Notification) : Prop :=
  exists ms,
    parse (notification_json m) = Some (JObject ms)
    /\ map_index ms "trace_id" = Some (JString (coerce traceID))
    /\ map_index ms "session_id" = Some (JString (coerce sessionID)).

(** Who a call of the log is made for: the trace and the session of
    an audit record and of a notification, in its payload and on the
    wire, the metadata of a gRPC call. *)
Definition carries (ctx : Context) (sessionID : string) (e : Event) : Prop :=
  match e with
  | EvAudit t s _ _ _ => t = trace_id ctx /\ s = sessionID
  | EvPublish ch m _ =>
    ch = notificationsChannel /\ n_trace_id m = trace_id ctx /\ n_session_id m = sessionID
    /\ names_on_wire (trace_id ctx) sessionID m
  | EvGetRAGContext md _ _ => md = outgoing_md ctx
  | EvGetPlan md _ _ => md = outgoing_md ctx
  | EvExecuteTool md _ _ => md = outgoing_md ctx
  | EvHttp _ _ => True
  end.

(** The model behind [GetPlan] is the gateway of this repository: a
    server [s] whose completion call may depend on what happened
    before. *)
Definition gateway_backed (env : Env) (s : Gateway.server)
           (completion : list Event -> Gateway.ChatCompletionRequest
                         -> string + list string) : Prop :=
  forall tr md input,
    model_GetPlan env tr md input
    = match Gateway.GetPlan s (completion tr) input with
      | inl err => inl err
      | inr resp => inr (Gateway.Plan resp)
      end.

End Shapes.

(* ------------------------------------------------------------------ *)
(** ** strconv *)

Module GoStrconv.

(** The two errors of a [NumError]. *)
Inductive NumError : Type := ErrSyntax | ErrRange.

Definition maxUint64 : Z := 2 ^ 64 - 1.

(** The loop of [ParseUint(s, 10, 64)] from the accumulator [n] on:
    a byte that is not a decimal digit is a syntax error, a value that
    leaves [uint64] a range error, whichever comes first. *)
Fixpoint parse_uint_loop (n : Z) (s : string) : NumError + Z :=
  match s with
  | EmptyString => inr n
  | String c s' =>
    let b := byte c in
    if (48 <=? b) && (b <=? 57) then
      let d := b - 48 in
      (* cutoff = maxUint64/10 + 1: n*10 overflows *)
      if maxUint64 / 10 + 1 <=? n then inl ErrRange
      else
        let n1 := n * 10 + d in
        (* n+d overflows *)
        if maxUint64 <? n1 then inl ErrRange else parse_uint_loop n1 s'
    else inl ErrSyntax
  end.

(** [strconv.ParseUint(s, 10, 0)]. *)
Definition ParseUint (s : string) : NumError + Z :=
  match s with
  | EmptyString => inl ErrSyntax
  | _ => parse_uint_loop 0 s
  end.

(** [strconv.ParseInt(s, 10, 0)] on a 64-bit platform: the sign is
    picked off, the rest parsed unsigned and checked against
    [cutoff = 1 << 63]. *)
Definition ParseInt (s : string) : NumError + Z :=
  match s with
  | EmptyString => inl ErrSyntax
  | String c rest =>
    let neg := byte c =? 45 in
    let s1 := if (byte c =? 43) || (byte c =? 45) then rest else s in
    match ParseUint s1 with
    | inl ErrSyntax => inl ErrSyntax
    | r =>
      (* a range error of [ParseUint] comes with the value [maxUint64] *)
      let un := match r with inr un => un | inl _ => maxUint64 end in
      let cutoff := 2 ^ 63 in
      if negb neg && (cutoff <=? un) then inl ErrRange
      else if neg && (cutoff <? un) then inl ErrRange
      else inr (if neg then - un else un)
    end
  end.

(** The digit loop of the fast path of [Atoi]: [ch -= '0'] is computed
    on a byte, so a byte below ['0'] wraps above 9. *)
Fixpoint atoi_loop (n : Z) (s : string) : option Z :=
  match s with
  | EmptyString => Some n
  | String c s' =>
    let ch := (byte c - 48) mod 256 in
    if 9 <? ch then None else atoi_loop (n * 10 + ch) s'
  end.

(** [strconv.Atoi] on a 64-bit platform: the fast path for a text of
    fewer than 19 bytes, [ParseInt] otherwise. *)
Definition Atoi (s : string) : NumError + Z :=
  let sLen := String.length s in
  if (0 <? sLen)%nat && (sLen <? 19)%nat then
    match s with
    | EmptyString => inl ErrSyntax
    | String c rest =>
      let signed := (byte c =? 45) || (byte c =? 43) in
      let s1 := if signed then rest else s in
      if signed && (String.length s1 <? 1)%nat then inl ErrSyntax
      else
        match atoi_loop 0 s1 with
        | None => inl ErrSyntax
        | Some n => inr (if byte c =? 45 then - n else n)
        end
    end
  else ParseInt s.

(** The text of a decimal integer: an optional sign and at least one
    digit.  [decimal s] is its value. *)
Fixpoint all_digits (s : string) : bool :=
  match s with
  | EmptyString => true
  | String c s' => (48 <=? byte c) && (byte c <=? 57) && all_digits s'
  end.

Definition decimal (s : string) : option Z :=
  match s with
  | EmptyString => None
  | String c rest =>
    let signed := (byte c =? 45) || (byte c =? 43) in
    let ds := if signed then rest else s in
    match ds with
    | EmptyString => None
    | _ =>
      if all_digits ds
      then Some (if byte c =? 45 then - GoJSON.digits_value 0 ds
                 else GoJSON.digits_value 0 ds)
      else None
    end
  end.

End GoStrconv.

(* ------------------------------------------------------------------ *)
(** ** strings: suffixes and lower case *)

Module GoStringsMore.
Import GoUTF8.

(** [strings.HasSuffix]. *)
Definition HasSuffix (s suffix : string) : bool :=
  (String.length suffix <=? String.length s)%nat
  && String.eqb (skipn_str (String.length s - String.length suffix) s) suffix.

Fixpoint isASCII (s : string) : bool :=
  match s with
  | EmptyString => true
  | String c s' => (byte c <? RuneSelf) && isASCII s'
  end.

Section Lower.

(** [unicode.To(unicode.LowerCase, r)] for a rune beyond ASCII: the
    case tables of the [unicode] package, left open here. *)
Variable lower_table : Z -> Z.

(** [unicode.ToLower]. *)
Definition unicode_ToLower (r : Z) : Z :=
  if r <=? 0x7F then (if (65 <=? r) && (r <=? 90) then r + 32 else r)
  else lower_table r.

(** [strings.Map(mapping, s)]: the runes of [s], an invalid byte being
    U+FFFD, are mapped and written back; a negative result drops the
    rune.  (The function copies the bytes of the leading runes that the
    mapping leaves alone; they are the bytes written back here.) *)
Fixpoint Map_fuel (fuel : nat) (mapping : Z -> Z) (s : string) : string :=
  match fuel with
  | O => EmptyString
  | S fuel' =>
    match s with
    | EmptyString => EmptyString
    | String _ _ =>
      let '(c, size) := DecodeRuneInString s in
      let r := mapping c in
      (if 0 <=? r then EncodeRune r else EmptyString)
      ++ Map_fuel fuel' mapping (skipn_str size s)
    end
  end.

Definition Map (mapping : Z -> Z) (s : string) : string :=
  Map_fuel (String.length s) mapping s.

(** The loop of the ASCII path of [ToLower]. *)
Fixpoint lower_bytes (s : string) : string :=
  match s with
  | EmptyString => EmptyString
  | String c s' =>
    String (if (65 <=? byte c) && (byte c <=? 90) then chr (byte c + 32) else c)
           (lower_bytes s')
  end.

(** [strings.ToLower]. *)
Definition ToLower (s : string) : string :=
  if isASCII s then lower_bytes s else Map unicode_ToLower s.

End Lower.

(** What [TrimSpace] leaves: a string that is empty or begins with a
    rune that is not a space, and one that is empty or ends with such a
    rune. *)
Definition starts_ok (s : string) : Prop :=
  s = EmptyString \/ GoStrings.IsSpace (fst (DecodeRuneInString s)) = false.

Definition ends_ok (s : string) : Prop :=
  s = EmptyString \/ GoStrings.IsSpace (fst (DecodeLastRuneInString s)) = false.

(** The byte at [i], if there is one, starts a rune. *)
Definition boundary (s : string) (i : nat) : Prop :=
  i = String.length s
  \/ exists c rest, skipn_str i s = String c rest /\ cont (byte c) = false.

End GoStringsMore.

(* ------------------------------------------------------------------ *)
(** ** backend-go-model-gateway: configuration and start-up *)

Module GatewayMain.
Import GoStrings GoStringsMore GoStrconv Gateway.

Definition DEFAULT_GRPC_PORT : Z := 50051.
Definition defaultProvider : string := "openrouter".
Definition defaultOllamaBaseURL : string := "http://localhost:11434".
Definition defaultRequestTimeoutSec : Z := 5.

(** The process environment: [os.Getenv], which gives the empty string
    for a variable that is not set. *)
Definition Environ : Type := string -> string.

Definition getEnv (os_Getenv : Environ) (key fallback : string) : string :=
  let v := os_Getenv key in
  if negb (String.eqb v EmptyString) then v else fallback.

Definition getEnvInt (os_Getenv : Environ) (key : string) (fallback : Z) : Z :=
  let v := os_Getenv key in
  if String.eqb v EmptyString then fallback
  else
    match Atoi v with
    | inl _ => fallback
    | inr i => if i <=? 0 then fallback else i
    end.

Definition normalizeOllamaBaseURL (base : string) : string :=
  let base := TrimRightSlash base in
  if HasSuffix base "/v1" then base else base ++ "/v1".

(** What the service sets of the configuration of the OpenAI client. *)
Record ClientConfig : Type := { authToken : string; BaseURL : string }.

Section Init.

Variable lower_table : Z -> Z.
(** The [%q] verb of [fmt]. *)
Variable fmt_q : string -> string.

(** [initializeLLMClient]: an error text, or the runtime with the
    configuration its client was made from. *)
Definition initializeLLMClient (os_Getenv : Environ)
  : string + (llmRuntime * ClientConfig) :=
  let provider := ToLower lower_table (getEnv os_Getenv "LLM_PROVIDER" defaultProvider) in
  if String.eqb provider providerOllama then
    let ollamaBase :=
      normalizeOllamaBaseURL (getEnv os_Getenv "OLLAMA_BASE_URL" defaultOllamaBaseURL) in
    let model := getEnv os_Getenv "OLLAMA_MODEL_NAME" "llama3" in
    inr ({| Provider := providerOllama; Model := model; Client := true |},
         {| authToken := EmptyString; BaseURL := ollamaBase |})
  else if String.eqb provider providerOpenRouter || String.eqb provider EmptyString then
    let apiKey := os_Getenv "OPENROUTER_API_KEY" in
    if String.eqb apiKey EmptyString
    then inl "OPENROUTER_API_KEY is required when LLM_PROVIDER=openrouter"
    else
      let model :=
        getEnv os_Getenv "OPENROUTER_MODEL_NAME" "mistralai/mistral-7b-instruct:free" in
      inr ({| Provider := providerOpenRouter; Model := model; Client := true |},
           {| authToken := apiKey; BaseURL := "https://openrouter.ai/api/v1" |})
  else
    inl ("unsupported LLM_PROVIDER=" ++ fmt_q provider
         ++ " (supported: openrouter, ollama)").

(** The server [main] registers: the runtime of [initializeLLMClient],
    or nothing when that failed and the process exits. *)
Definition main_server (os_Getenv : Environ) : string + server :=
  match initializeLLMClient os_Getenv with
  | inl err => inl err
  | inr (rt, _) => inr {| llm := Some rt |}
  end.

End Init.

(** The port [main] listens on. *)
Definition grpc_port (os_Getenv : Environ) : Z :=
  match Atoi (os_Getenv "MODEL_GATEWAY_GRPC_PORT") with
  | inl _ => DEFAULT_GRPC_PORT
  | inr port => if port =? 0 then DEFAULT_GRPC_PORT else port
  end.

(** [time.Duration(timeoutSec) * time.Second], in nanoseconds: a
    product of two [int64]. *)
Definition requestTimeout (os_Getenv : Environ) : Z :=
  Planner.wrap64
    (getEnvInt os_Getenv "REQUEST_TIMEOUT_SECONDS" defaultRequestTimeoutSec
     * 1000000000).

End GatewayMain.

(* ------------------------------------------------------------------ *)
(** ** backend-go-agent-planner: the HTTP endpoint *)

Module Server.
Import GoJSON Planner.

(** [PlanRequest], with the tags [prompt] and [session_id]. *)
Record PlanRequest : Type := { Prompt : string; SessionID : string }.

(** One object member stored into a [PlanRequest]; the flag is cleared
    by a type error, after which decoding goes on. *)
Definition store_request_member (st : PlanRequest * bool) (kv : string * json)
  : PlanRequest * bool :=
  let '(r, ok) := st in
  let '(k, v) := kv in
  if field_matches k "prompt" then
    let '(x, ok') := store_string v (Prompt r) in
    ({| Prompt := x; SessionID := SessionID r |}, ok && ok')
  else if field_matches k "session_id" then
    let '(x, ok') := store_string v (SessionID r) in
    ({| Prompt := Prompt r; SessionID := x |}, ok && ok')
  else (r, ok).

(** [json.NewDecoder(r.Body).Decode(&req)]: the first JSON value of
    the body is decoded, what follows it is not read; [None] when it
    returns an error. *)
Definition Decode_PlanRequest (body : string) : option PlanRequest :=
  match parse_value (S (String.length body)) 0 body with
  | Some (JObject ms, _) =>
    let '(r, ok) :=
      fold_left store_request_member ms
                ({| Prompt := EmptyString; SessionID := EmptyString |}, true) in
    if ok then Some r else None
  | Some (JNull, _) => Some {| Prompt := EmptyString; SessionID := EmptyString |}
  | _ => None
  end.

(** The request the handler goes on with: the body decodes and
    neither field is empty. *)
Definition accepted (body : string) : option PlanRequest :=
  match Decode_PlanRequest body with
  | None => None
  | Some req =>
    if String.eqb (Prompt req) EmptyString || String.eqb (SessionID req) EmptyString
    then None else Some req
  end.

(** What the handler writes: the status, the [Content-Type] header and
    the body. *)
Record Response : Type := {
  StatusCode : Z;
  ContentType : string;
  Body : string
}.

Definition StatusOK : Z := 200.
Definition StatusBadRequest : Z := 400.
Definition StatusInternalServerError : Z := 500.

(** [json.NewEncoder(w).Encode(v)] for a map or a struct of strings:
    the JSON text and a newline. *)
Definition Encode (m : list (string * payload_value)) : string := Marshal m ++ nl.

Definition writeJSONError (status : Z) (msg : string) : Response :=
  {| StatusCode := status;
     ContentType := "application/json";
     Body := Encode [("error", PString msg)] |}.

Section Handler.

Variable env : Env.
Variable p : PlannerT.

(** The handler [handlePlan] returns, run on a request with the
    context [ctx] and the body [body]: the response, or [None] when
    [AgentLoop] panics, and the calls made.  (The log lines of the
    handler are left out.) *)
Definition handlePlan (ctx : Context) (body : string)
  : option Response * list Event :=
  match Decode_PlanRequest body with
  | None => (Some (writeJSONError StatusBadRequest "Invalid request body"), [])
  | Some req =>
    if String.eqb (Prompt req) EmptyString || String.eqb (SessionID req) EmptyString
    then (Some (writeJSONError StatusBadRequest "Prompt and session_id are required"), [])
    else
      match run env p ctx (Prompt req) (SessionID req) with
      | (None, tr) => (None, tr)
      | (Some o, tr) =>
        match error o with
        | Some err =>
          (Some (writeJSONError StatusInternalServerError
                                ("Agent execution failed: " ++ err)), tr)
        | None =>
          (Some {| StatusCode := StatusOK;
                   ContentType := "application/json";
                   Body := Encode [("result", PString (result o))] |}, tr)
        end
      end
  end.

End Handler.

(** [context.WithValue(r.Context(), logger.TraceIDKey, traceID)]. *)
Definition with_trace (ctx : Context) (traceID : string) : Context :=
  {| trace_id := traceID; outgoing_md := outgoing_md ctx |}.

(** What a request served through [traceIDMiddleware] gives: the
    trace id set in the response header, and the response of the next
    handler. *)
Record Served : Type := {
  TraceHeader : string;
  response : option Response
}.

(** [traceIDMiddleware]: [header] is the trace id header of the
    request (empty when it has none), [uuid_New] the text of a fresh
    UUID. *)
Definition traceIDMiddleware (uuid_New : string)
           (next : Context -> string -> option Response * list Event)
           (ctx : Context) (header body : string) : Served * list Event :=
  let traceID := if String.eqb header EmptyString then uuid_New else header in
  let '(r, tr) := next (with_trace ctx traceID) body in
  ({| TraceHeader := traceID; response := r |}, tr).

(** The trace and the session an audit record and a notification are
    written for, the notification in its payload and on the wire. *)
Definition written_for (traceID sessionID : string) (e : Event) : Prop :=
  match e with
  | EvAudit t s _ _ _ => t = traceID /\ s = sessionID
  | EvPublish _ m _ =>
    n_trace_id m = traceID /\ n_session_id m = sessionID
    /\ Shapes.names_on_wire traceID sessionID m
  | _ => True
  end.

End Server.

(* ------------------------------------------------------------------ *)
(** ** backend-go-agent-planner: the life of a planner *)

Module Lifecycle.
Import Planner.

(** What a planner holds and has to close. *)
Inductive Resource : Type :=
| ModelConn
| MemoryConn
| RustConn
| AuditDBHandle
| RedisClient.

(** One step of [NewPlanner] or [Close]: a resource is asked for at a
    target (the dial of a connection, the opening of the audit
    database, the making of the broker client) with the error it gave,
    the broker is pinged, a resource is closed. *)
Inductive BootEvent : Type :=
| EvOpen (r : Resource) (target : string) (err : option string)
| EvPing (err : option string)
| EvClose (r : Resource).

(** The outside world at start-up, each answer depending on what
    happened before. *)
Record Boot : Type := {
  grpc_DialContext : list BootEvent -> string -> option string;
  audit_NewAuditDB : list BootEvent -> string -> option string;
  redis_Ping : list BootEvent -> option string
}.

(** A pointer to a [Planner]: the planner and, for each connection, whether the
    pointer is non-nil. *)
Record Handle : Type := {
  planner : PlannerT;
  modelConn : bool;
  memoryConn : bool;
  rustConn : bool
}.

(** Start-up steps thread the log of the steps made so far. *)
Definition B (A : Type) : Type := list BootEvent -> A * list BootEvent.

Definition unit_B {A : Type} (a : A) : B A := fun tr => (a, tr).

Definition bind_B {A C : Type} (m : B A) (f : A -> B C) : B C :=
  fun tr => let '(a, tr') := m tr in f a tr'.

Declare Scope boot_scope.
Delimit Scope boot_scope with boot.
Notation "x <- m ;; k" := (bind_B m (fun x => k))
  (at level 61, m at next level, right associativity) : boot_scope.
Notation "m ;;; k" := (bind_B m (fun _ => k))
  (at level 61, right associativity) : boot_scope.
Local Open Scope boot_scope.

Section Boot.

Variable boot : Boot.

(** The closure [dial] of [NewPlanner]. *)
Definition dial (r : Resource) (addr : string) : B (option string) :=
  fun tr => let err := grpc_DialContext boot tr addr in
            (err, (tr ++ [EvOpen r addr err])%list).

Definition open_audit (path : string) : B (option string) :=
  fun tr => let err := audit_NewAuditDB boot tr path in
            (err, (tr ++ [EvOpen AuditDBHandle path err])%list).

(** [redis.NewClient] cannot fail. *)
Definition new_redis (addr : string) : B unit :=
  fun tr => (tt, (tr ++ [EvOpen RedisClient addr None])%list).

Definition ping : B (option string) :=
  fun tr => let err := redis_Ping boot tr in (err, (tr ++ [EvPing err])%list).

(** [_ = x.Close()]: the error of a close is dropped. *)
Definition close (r : Resource) : B unit :=
  fun tr => (tt, (tr ++ [EvClose r])%list).

(** [NewPlanner]: an error text, or the planner.  (The warning logged
    when the broker does not answer is left out.) *)
Definition NewPlanner (cfg : Config) : B (string + Handle) :=
  e1 <- dial ModelConn (ModelGatewayAddr cfg) ;;
  match e1 with
  | Some err => unit_B (inl ("dial model gateway: " ++ err))
  | None =>
    e2 <- dial MemoryConn (MemoryServiceAddr cfg) ;;
    match e2 with
    | Some err =>
      close ModelConn ;;;
      unit_B (inl ("dial memory service: " ++ err))
    | None =>
      e3 <- dial RustConn (RustSandboxGRPCAddr cfg) ;;
      match e3 with
      | Some err =>
        close MemoryConn ;;;
        close ModelConn ;;;
        unit_B (inl ("dial rust sandbox: " ++ err))
      | None =>
        e4 <- open_audit (AuditDBPath cfg) ;;
        match e4 with
        | Some err =>
          close RustConn ;;;
          close MemoryConn ;;;
          close ModelConn ;;;
          unit_B (inl ("init audit db: " ++ err))
        | None =>
          new_redis (RedisAddr cfg) ;;;
          e5 <- ping ;;
          redisClient <- match e5 with
                         | Some _ => close RedisClient ;;; unit_B false
                         | None => unit_B true
                         end ;;
          unit_B (inr {| planner := {| Planner.cfg := cfg;
                                       toolClient := true;
                                       auditDB := true;
                                       redis := redisClient |};
                         modelConn := true;
                         memoryConn := true;
                         rustConn := true |})
        end
      end
    end
  end.

(** The method [Close]; [None] is the nil planner. *)
Definition Close (p : option Handle) : B unit :=
  match p with
  | None => unit_B tt
  | Some h =>
    (if modelConn h then close ModelConn else unit_B tt) ;;;
    (if memoryConn h then close MemoryConn else unit_B tt) ;;;
    (if rustConn h then close RustConn else unit_B tt) ;;;
    (if auditDB (planner h) then close AuditDBHandle else unit_B tt) ;;;
    (if redis (planner h) then close RedisClient else unit_B tt)
  end.

End Boot.

(** The resources a log shows as obtained, and as closed, in order. *)
Definition opened (tr : list BootEvent) : list Resource :=
  flat_map (fun e => match e with EvOpen r _ None => [r] | _ => [] end) tr.

Definition closed (tr : list BootEvent) : list Resource :=
  flat_map (fun e => match e with EvClose r => [r] | _ => [] end) tr.

(** The errors of the steps that failed, the ping apart. *)
Definition failures (tr : list BootEvent) : list string :=
  flat_map (fun e => match e with EvOpen _ _ (Some err) => [err] | _ => [] end) tr.

End Lifecycle.

(* ------------------------------------------------------------------ *)
(** ** fmt: scanning an integer *)

Module GoFmt.
Import GoUTF8 GoStrings GoStrconv.

(** [hugeWid]: the scanner reads no more runes than this. *)
Definition hugeWid : Z := 2 ^ 30.

(** The scanner [ss] as far as [Sscanf] with the format [%d] uses
    it: the input not yet read and [count], the runes consumed. *)
Record ss : Type := { input : string; count : Z }.

(** [getRune]: the next rune and the scanner after it; [None] is
    [eof], at the end of the input or at the limit.  An invalid byte is
    read as U+FFFD. *)
Definition getRune (s : ss) : option (Z * ss) :=
  if hugeWid <=? count s then None
  else
    match input s with
    | EmptyString => None
    | String _ _ =>
      let '(r, size) := DecodeRuneInString (input s) in
      Some (r, {| input := skipn_str size (input s); count := count s + 1 |})
    end.

(** [s.peek("\n")]. *)
Definition peek_newline (s : ss) : bool :=
  match getRune s with
  | Some (r, _) => r =? 10
  | None => false
  end.

(** The table [space] of the package holds the runes of
    [unicode.IsSpace]. *)
Definition isSpace (r : Z) : bool := IsSpace r.

(** [SkipSpace] for [Sscanf], where a newline is no space: [None] is
    the error [unexpected newline].  [fuel] bounds the runes read. *)
Fixpoint SkipSpace (fuel : nat) (s : ss) : option ss :=
  match fuel with
  | O => Some s
  | S fuel' =>
    match getRune s with
    | None => Some s
    | Some (r, s') =>
      if (r =? 13) && peek_newline s' then SkipSpace fuel' s'
      else if r =? 10 then None
      else if negb (isSpace r) then Some s (* UnreadRune *)
      else SkipSpace fuel' s'
    end
  end.

(** [s.accept(ok)] for a set [ok] of ASCII characters: the rune read
    into the token buffer, or the scanner left where it was. *)
Definition accept (ok : Z -> bool) (s : ss) (buf : string) : option (ss * string) :=
  match getRune s with
  | None => None
  | Some (r, s') => if ok r then Some (s', buf ++ String (chr r) EmptyString) else None
  end.

Definition is_sign (r : Z) : bool := (r =? 43) || (r =? 45).
Definition is_decimal_digit (r : Z) : bool := (48 <=? r) && (r <=? 57).

(** The text begins with a decimal digit; the text is made of spaces
    and tabs. *)
Definition digit_next (s : string) : bool :=
  match s with
  | EmptyString => false
  | String c _ => is_decimal_digit (byte c)
  end.

(** A text the scan of an integer fails on at once: it is empty, or
    begins with a line feed or with an ASCII character that is no
    space, sign or digit. *)
Definition unreadable_head (s : string) : bool :=
  match s with
  | EmptyString => true
  | String c _ =>
    (byte c =? 10)
    || ((byte c <? RuneSelf) && negb (IsSpace (byte c)) && negb (is_sign (byte c))
        && negb (is_decimal_digit (byte c)))
  end.

Fixpoint blanks (s : string) : bool :=
  match s with
  | EmptyString => true
  | String c s' => ((byte c =? 32) || (byte c =? 9)) && blanks s'
  end.

(** [for s.accept(digits) {}]. *)
Fixpoint accept_digits (fuel : nat) (s : ss) (buf : string) : ss * string :=
  match fuel with
  | O => (s, buf)
  | S fuel' =>
    match accept is_decimal_digit s buf with
    | Some (s', buf') => accept_digits fuel' s' buf'
    | None => (s, buf)
    end
  end.

(** [scanInt('d', 64)] after the spaces: [None] is an error. *)
Definition scanInt (fuel : nat) (s : ss) : option Z :=
  match SkipSpace fuel s with
  | None => None
  | Some s =>
    (* notEOF *)
    match getRune s with
    | None => None
    | Some _ =>
      let '(s, buf) := match accept is_sign s EmptyString with
                       | Some sb => sb
                       | None => (s, EmptyString)
                       end in
      (* scanNumber: notEOF, one digit at least *)
      match accept is_decimal_digit s buf with
      | None => None
      | Some (s, buf) =>
        let '(_, tok) := accept_digits fuel s buf in
        match ParseInt tok with
        | inl _ => None
        | inr i => Some i
        end
      end
    end
  end.

(** [fmt.Sscanf(str, "%d", &v)] for an [int] [v]: the value stored,
    or [None] when the call fails and [v] is left as it was.  What
    follows the number in [str] is not read. *)
Definition Sscanf_d (str : string) : option Z :=
  let s := {| input := str; count := 0 |} in
  match SkipSpace (String.length str) s with
  | None => None
  | Some s => scanInt (String.length str) s
  end.

End GoFmt.

(* ------------------------------------------------------------------ *)
(** ** backend-go-agent-planner: the configuration *)

Module PlannerConfig.
Import GoFmt Planner.

Definition Environ : Type := string -> string.

Definition getenv (os_Getenv : Environ) (key fallback : string) : string :=
  let v := os_Getenv key in
  if negb (String.eqb v EmptyString) then v else fallback.

(** The scan of a variable of the environment that is set and not
    empty, by [fmt.Sscanf] with the format [%d], into a variable [n]
    that holds [initial]; the result of [Sscanf] is dropped. *)
Definition scan_setting (os_Getenv : Environ) (key : string) (initial : Z) : Z :=
  let v := os_Getenv key in
  if negb (String.eqb v EmptyString) then
    match Sscanf_d v with
    | Some n => n
    | None => initial
    end
  else initial.

Definition ConfigFromEnv (os_Getenv : Environ) : Config :=
  let maxTurns := scan_setting os_Getenv "AGENT_MAX_TURNS" 3 in
  let topK := scan_setting os_Getenv "AGENT_RAG_TOP_K" 3 in
  {| ModelGatewayAddr := getenv os_Getenv "MODEL_GATEWAY_ADDR" "localhost:50051";
     MemoryServiceAddr := getenv os_Getenv "MEMORY_GRPC_ADDR" "localhost:50052";
     MemoryServiceHTTP := getenv os_Getenv "MEMORY_URL" "http://localhost:8003";
     RustSandboxGRPCAddr := getenv os_Getenv "RUST_SANDBOX_GRPC_ADDR" "localhost:50053";
     RustSandboxHTTPURL := getenv os_Getenv "RUST_SANDBOX_URL" "http://localhost:8001";
     AuditDBPath := getenv os_Getenv "PAGI_AUDIT_DB_PATH" "./pagi_audit.db";
     RedisAddr := getenv os_Getenv "REDIS_ADDR" "localhost:6379";
     MaxTurns := maxTurns;
     TopK := topK;
     KBs := ["Mind-KB"; "Domain-KB"; "Body-KB"; "Soul-KB"] |}.

End PlannerConfig.

(* ------------------------------------------------------------------ *)
(** ** More concrete runs: start-up, configuration, the endpoint *)

Module Deployments.
Import GoJSON Planner Observe Scenarios.

(** A planner whose memory service is at [memoryHTTP]. *)
Definition planner_at (memoryHTTP : string) : PlannerT :=
  {| cfg := {| ModelGatewayAddr := "localhost:50051";
               MemoryServiceAddr := "localhost:50052";
               MemoryServiceHTTP := memoryHTTP;
               RustSandboxGRPCAddr := "localhost:50053";
               RustSandboxHTTPURL := "http://localhost:8001";
               AuditDBPath := "./pagi_audit.db";
               RedisAddr := "localhost:6379";
               MaxTurns := 3;
               TopK := 3;
               KBs := ["Mind-KB"; "Domain-KB"; "Body-KB"; "Soul-KB"] |};
     toolClient := true; auditDB := true; redis := true |}.

(** A planner that was given no tool client. *)
Definition planner_without_tools (max_turns : Z) : PlannerT :=
  {| cfg := config max_turns; toolClient := false; auditDB := true; redis := true |}.

(** The collaborators of [scripted], with the gateway of this
    repository behind [GetPlan]: the server [server0] and a model that
    always answers with [fenced_content]. *)
Definition completion0 (tr : list Event) : Gateway.ChatCompletionRequest
                                           -> string + list string := model0.

Definition behind_gateway : Env :=
  {| audit_RecordStep := fun _ _ _ _ _ => None;
     redis_Publish := fun _ _ _ => None;
     http_Do := fun _ _ => HttpResp 200 (dq "{'messages':[]}");
     memory_GetRAGContext := fun _ _ _ => inr {| Matches := [] |};
     model_GetPlan := fun tr _ input =>
       match Gateway.GetPlan server0 (completion0 tr) input with
       | inl err => inl err
       | inr resp => inr (Gateway.Plan resp)
       end;
     tool_ExecuteTool := fun _ _ _ => inr tool_ok;
     time_Now := fun _ => "2026-01-01T00:00:00Z";
     fmt_q := fun s => String quote s ++ String quote EmptyString;
     url_Parse_ok := GoURL.Parse_ok |}.

(** A start-up where everything answers, and one where the sandbox
    cannot be dialled. *)
Definition all_up : Lifecycle.Boot :=
  {| Lifecycle.grpc_DialContext := fun _ _ => None;
     Lifecycle.audit_NewAuditDB := fun _ _ => None;
     Lifecycle.redis_Ping := fun _ => None |}.

Definition sandbox_down : Lifecycle.Boot :=
  {| Lifecycle.grpc_DialContext := fun _ addr =>
       if String.eqb addr "localhost:50053" then Some "context deadline exceeded"
       else None;
     Lifecycle.audit_NewAuditDB := fun _ _ => None;
     Lifecycle.redis_Ping := fun _ => None |}.

(** An environment with the one variable [key] set to [value]. *)
Definition setenv (key value : string) : string -> string :=
  fun k => if String.eqb k key then value else EmptyString.

(** A case table that maps no rune; the [%q] verb on a text that
    needs no escape. *)
Definition no_case : Z -> Z := fun r => r.
Definition quoted (s : string) : string := String quote s ++ String quote EmptyString.

(** A request body of the endpoint. *)
Definition plan_body : string := dq "{'prompt':'hi','session_id':'s1'}".

End Deployments.

(* ================================================================== *)
(** * Properties *)

Module ByteFacts.

Lemma byte_range c : 0 <= byte c < 256.
Proof.
  unfold byte. pose proof (N_ascii_bounded c) as H. lia.
Qed.

Lemma chr_byte c : chr (byte c) = c.
Proof.
  unfold chr, byte. pose proof (byte_range c) as H. unfold byte in H.
  rewrite Z.mod_small by lia. rewrite N2Z.id. apply ascii_N_embedding.
Qed.

Lemma byte_chr z : 0 <= z < 256 -> byte (chr z) = z.
Proof.
  intros H. unfold chr, byte. rewrite Z.mod_small by lia.
  rewrite N_ascii_embedding by lia. lia.
Qed.

Lemma length_append (a b : string) :
  String.length (a ++ b) = (String.length a + String.length b)%nat.
Proof. induction a; simpl; congruence. Qed.

Lemma append_assoc (a b c : string) : (a ++ b) ++ c = a ++ (b ++ c).
Proof. induction a; simpl; congruence. Qed.

Lemma append_nil_r (a : string) : a ++ EmptyString = a.
Proof. induction a; simpl; congruence. Qed.

Lemma firstn_skipn_str n s : firstn_str n s ++ skipn_str n s = s.
Proof.
  revert s; induction n as [|n IH]; intros [|c s]; simpl; try reflexivity.
  now rewrite IH.
Qed.

Lemma skipn_firstn_app n s t :
  (n <= String.length s)%nat -> skipn_str n (firstn_str n s ++ t) = t.
Proof.
  revert s; induction n as [|n IH]; intros [|c s] H; simpl in *; try reflexivity; try lia.
  apply IH. lia.
Qed.

Lemma length_skipn_str n s :
  String.length (skipn_str n s) = (String.length s - n)%nat.
Proof.
  revert s; induction n as [|n IH]; intros [|c s]; simpl; try reflexivity; try lia.
  apply IH.
Qed.

Lemma length_firstn_str n s :
  (n <= String.length s)%nat -> String.length (firstn_str n s) = n.
Proof.
  revert s; induction n as [|n IH]; intros [|c s] H; simpl in *; try reflexivity; try lia.
  rewrite IH; lia.
Qed.

End ByteFacts.

Module UTF8Facts.
Import GoUTF8 ByteFacts.

(** The decoder reads at most [UTFMax] bytes. *)
Lemma decode_firstn4 s : DecodeRuneInString (firstn_str 4 s) = DecodeRuneInString s.
Proof.
  destruct s as [|c0 [|c1 [|c2 [|c3 s]]]]; reflexivity.
Qed.

Ltac split_ifs :=
  repeat match goal with
         | |- context [if ?a <? ?b then _ else _] => destruct (Z.ltb_spec a b)
         | |- context [if ?a =? ?b then _ else _] => destruct (Z.eqb_spec a b)
         | |- context [if ?a <=? ?b then _ else _] => destruct (Z.leb_spec a b)
         | H : context [if ?a <? ?b then _ else _] |- _ => destruct (Z.ltb_spec a b)
         | H : context [if ?a =? ?b then _ else _] |- _ => destruct (Z.eqb_spec a b)
         | H : context [if ?a <=? ?b then _ else _] |- _ => destruct (Z.leb_spec a b)
         end.

(** What [first] announces, by the value of the leading byte. *)
Lemma first_lead b sz lo hi :
  first b = Lead sz lo hi ->
  0x80 <= lo /\ hi <= 0xBF /\
  ((sz = 2%nat /\ 0xC2 <= b <= 0xDF /\ lo = 0x80 /\ hi = 0xBF)
   \/ (sz = 3%nat /\ 0xE0 <= b <= 0xEF
       /\ (b = 0xE0 -> lo = 0xA0) /\ (b = 0xED -> hi = 0x9F))
   \/ (sz = 4%nat /\ 0xF0 <= b <= 0xF4
       /\ (b = 0xF0 -> lo = 0x90) /\ (b = 0xF4 -> hi = 0x8F))).
Proof.
  unfold first. split_ifs; intros Hf; inversion Hf; subst; lia.
Qed.


(** Split on every integer comparison of the goal, dropping the cases
    arithmetic excludes. *)
Ltac split_cmp :=
  repeat match goal with
         | |- context [?a <? ?b] => destruct (Z.ltb_spec a b); try lia
         | |- context [?a <=? ?b] => destruct (Z.leb_spec a b); try lia
         | |- context [?a =? ?b] => destruct (Z.eqb_spec a b); try lia
         end.

Lemma chr_eq a c : a = byte c -> chr a = c.
Proof. intros ->. apply chr_byte. Qed.

Lemma encode2 c0 c1 :
  0xC2 <= byte c0 <= 0xDF -> 0x80 <= byte c1 <= 0xBF ->
  EncodeRune ((byte c0 - 0xC0) * 64 + (byte c1 - 0x80))
  = String c0 (String c1 EmptyString).
Proof.
  intros H0 H1. unfold EncodeRune, MaxRune. split_cmp; cbn [andb orb negb];
  unfold of_bytes; cbn [fold_right]; repeat f_equal; apply chr_eq;
    Z.to_euclidean_division_equations; lia.
Qed.

Lemma encode3 c0 c1 c2 :
  0xE0 <= byte c0 <= 0xEF -> 0x80 <= byte c1 <= 0xBF -> 0x80 <= byte c2 <= 0xBF ->
  (byte c0 = 0xE0 -> 0xA0 <= byte c1) -> (byte c0 = 0xED -> byte c1 <= 0x9F) ->
  EncodeRune ((byte c0 - 0xE0) * 4096 + (byte c1 - 0x80) * 64 + (byte c2 - 0x80))
  = String c0 (String c1 (String c2 EmptyString)).
Proof.
  intros H0 H1 H2 Hlo Hhi. unfold EncodeRune, MaxRune. split_cmp; cbn [andb orb negb];
  unfold of_bytes; cbn [fold_right]; repeat f_equal; apply chr_eq;
    Z.to_euclidean_division_equations; lia.
Qed.

Lemma encode4 c0 c1 c2 c3 :
  0xF0 <= byte c0 <= 0xF4 -> 0x80 <= byte c1 <= 0xBF -> 0x80 <= byte c2 <= 0xBF ->
  0x80 <= byte c3 <= 0xBF ->
  (byte c0 = 0xF0 -> 0x90 <= byte c1) -> (byte c0 = 0xF4 -> byte c1 <= 0x8F) ->
  EncodeRune ((byte c0 - 0xF0) * 262144 + (byte c1 - 0x80) * 4096
              + (byte c2 - 0x80) * 64 + (byte c3 - 0x80))
  = String c0 (String c1 (String c2 (String c3 EmptyString))).
Proof.
  intros H0 H1 H2 H3 Hlo Hhi. unfold EncodeRune, MaxRune. split_cmp; cbn [andb orb negb];
  unfold of_bytes; cbn [fold_right]; repeat f_equal; apply chr_eq;
    Z.to_euclidean_division_equations; lia.
Qed.


Lemma first_ascii b : first b = Ascii -> b < 0x80.
Proof. unfold first. split_cmp; intros Hf; try discriminate Hf; lia. Qed.

Lemma cont_spec b : cont b = true <-> 0x80 <= b <= 0xBF.
Proof. unfold cont. rewrite andb_true_iff, !Z.leb_le. tauto. Qed.

(** A non-ASCII byte either starts no valid encoding, and is decoded
    as [(RuneError, 1)], or starts a valid encoding of two to four
    bytes, which [EncodeRune] writes back byte for byte and which is
    decoded the same whatever follows it. *)
Lemma decode_cases c0 s1 :
  RuneSelf <= byte c0 ->
  DecodeRuneInString (String c0 s1) = (RuneError, 1%nat)
  \/ exists r size,
      DecodeRuneInString (String c0 s1) = (r, size)
      /\ (2 <= size <= 4)%nat
      /\ (size <= String.length (String c0 s1))%nat
      /\ EncodeRune r = firstn_str size (String c0 s1)
      /\ forall t, DecodeRuneInString (firstn_str size (String c0 s1) ++ t) = (r, size).
Proof.
  unfold RuneSelf. intros Hc0. unfold DecodeRuneInString at 1 2.
  destruct (first (byte c0)) as [| |sz lo hi] eqn:F.
  - apply first_ascii in F. lia.
  - now left.
  - destruct (first_lead _ _ _ _ F) as (Hlo & Hhi & Hsz).
    destruct s1 as [|c1 s2]; [now left|].
    destruct (Z.ltb_spec (byte c1) lo); [now left|].
    destruct (Z.ltb_spec hi (byte c1)); [now left|]. cbn [orb].
    destruct Hsz as [(-> & Hb & -> & ->)|[(-> & Hb & Hl & Hh)|(-> & Hb & Hl & Hh)]];
      cbn [Nat.leb].
    + right. eexists _, 2%nat. split; [reflexivity|].
      split; [lia|]. split; [simpl; lia|]. split.
      * apply encode2; lia.
      * intros t. cbn [firstn_str append]. unfold DecodeRuneInString. rewrite F.
        destruct (Z.ltb_spec (byte c1) 128); [lia|].
        destruct (Z.ltb_spec 191 (byte c1)); [lia|]. reflexivity.
    + destruct s2 as [|c2 s3]; [now left|].
      destruct (cont (byte c2)) eqn:C2; [|now left]. cbn [negb].
      apply cont_spec in C2.
      right. eexists _, 3%nat. split; [reflexivity|].
      split; [lia|]. split; [simpl; lia|]. split.
      * apply encode3; lia.
      * intros t. cbn [firstn_str append]. unfold DecodeRuneInString. rewrite F.
        destruct (Z.ltb_spec (byte c1) lo); [lia|].
        destruct (Z.ltb_spec hi (byte c1)); [lia|]. cbn [orb Nat.leb].
        apply cont_spec in C2. rewrite C2. reflexivity.
    + destruct s2 as [|c2 s3]; [now left|].
      destruct (cont (byte c2)) eqn:C2; [|now left]. cbn [negb].
      destruct s3 as [|c3 s4]; [now left|].
      destruct (cont (byte c3)) eqn:C3; [|now left]. cbn [negb].
      apply cont_spec in C2. apply cont_spec in C3.
      right. eexists _, 4%nat. split; [reflexivity|].
      split; [lia|]. split; [simpl; lia|]. split.
      * apply encode4; lia.
      * intros t. cbn [firstn_str append]. unfold DecodeRuneInString. rewrite F.
        destruct (Z.ltb_spec (byte c1) lo); [lia|].
        destruct (Z.ltb_spec hi (byte c1)); [lia|]. cbn [orb Nat.leb].
        apply cont_spec in C2. apply cont_spec in C3. rewrite C2, C3. reflexivity.
Qed.

End UTF8Facts.

Module JSONFacts.
Import GoUTF8 GoJSON ByteFacts UTF8Facts.

(** An ASCII byte, copied or escaped by the encoder, is read back as
    itself. *)
Lemma body_ascii c f rest :
  byte c < RuneSelf ->
  string_body (S f) ((if htmlSafe (byte c) then String c EmptyString else escape_byte c) ++ rest)
  = prepend (String c EmptyString) (string_body f rest).
Proof.
  destruct c as [[] [] [] [] [] [] [] []]; intros H;
    try (exfalso; vm_compute in H; discriminate H); reflexivity.
Qed.

Lemma body_replacement f rest :
  string_body (S f) ((String backslash "ufffd") ++ rest)
  = prepend (EncodeRune RuneError) (string_body f rest).
Proof. reflexivity. Qed.

Lemma body_separator r f rest :
  r = 0x2028 \/ r = 0x2029 ->
  string_body (S f) ((String backslash "u202" ++ String (hex (r mod 16)) EmptyString) ++ rest)
  = prepend (EncodeRune r) (string_body f rest).
Proof. intros [->| ->]; reflexivity. Qed.

Lemma body_verbatim c0 s1 r size f rest :
  RuneSelf <= byte c0 ->
  (1 <= size <= String.length (String c0 s1))%nat ->
  (forall t, DecodeRuneInString (firstn_str size (String c0 s1) ++ t) = (r, size)) ->
  string_body (S f) (firstn_str size (String c0 s1) ++ rest)
  = prepend (EncodeRune r) (string_body f rest).
Proof.
  unfold RuneSelf. intros Hc0 Hsize Hdec.
  specialize (Hdec rest).
  destruct size as [|size]; [lia|].
  cbn [firstn_str append] in *. cbn [string_body].
  destruct (Z.eqb_spec (byte c0) 34); [lia|].
  destruct (Z.eqb_spec (byte c0) 92); [lia|].
  destruct (Z.ltb_spec (byte c0) 32); [lia|].
  unfold RuneSelf. destruct (Z.ltb_spec (byte c0) 128); [lia|].
  rewrite Hdec. cbn [skipn_str].
  rewrite skipn_firstn_app; [reflexivity|]. simpl in Hsize. lia.
Qed.


Lemma prepend_some p t rest : prepend p (Some (t, rest)) = Some (p ++ t, rest).
Proof. reflexivity. Qed.

(** Reading back what [appendString] wrote, up to the closing quote,
    gives the coerced string. *)
Lemma body_roundtrip fuel : forall src f2 rest,
  (String.length src <= fuel)%nat ->
  (String.length (appendString_loop fuel src) < f2)%nat ->
  string_body f2 (appendString_loop fuel src ++ String quote rest)
  = Some (coerce_fuel fuel src, rest).
Proof.
  induction fuel as [|fuel IH]; intros src f2 rest Hlen Hf2.
  - destruct f2 as [|f2]; [simpl in Hf2; lia|]. reflexivity.
  - destruct src as [|c src'].
    + destruct f2 as [|f2]; [simpl in Hf2; lia|]. reflexivity.
    + cbn [appendString_loop coerce_fuel] in *.
      destruct (Z.ltb_spec (byte c) RuneSelf) as [Hascii|Hhigh].
      * rewrite length_append in Hf2.
        assert (Hchunk : (1 <= String.length
                                 (if htmlSafe (byte c) then String c EmptyString
                                  else escape_byte c))%nat).
        { destruct (htmlSafe (byte c)); [simpl; lia|].
          unfold escape_byte. repeat match goal with
                                     | |- context [if ?b then _ else _] => destruct b
                                     end; simpl; lia. }
        destruct f2 as [|f2]; [lia|].
        rewrite append_assoc, body_ascii by assumption.
        rewrite IH by (simpl in Hlen; lia). reflexivity.
      * rewrite decode_firstn4 in *.
        destruct (decode_cases c src' Hhigh) as [Herr|(r & size & Hdec & Hsz & Hle & Henc & Happ)].
        -- rewrite Herr in *. cbn [Z.eqb Nat.eqb andb] in *.
           change (RuneError =? RuneError) with true in *. cbn [andb] in *.
           rewrite length_append in Hf2.
           destruct f2 as [|f2]; [simpl in Hf2; lia|].
           rewrite append_assoc, body_replacement.
           cbn [skipn_str].
           rewrite IH by (simpl in Hlen, Hf2; lia). reflexivity.
        -- rewrite Hdec in *.
           assert (Hs1 : (size =? 1)%nat = false) by (apply Nat.eqb_neq; lia).
           rewrite Hs1, andb_false_r in *.
           assert (Hrest : (String.length (skipn_str size (String c src')) <= fuel)%nat).
           { rewrite length_skipn_str. cbn [String.length] in *. lia. }
           destruct ((r =? 0x2028) || (r =? 0x2029)) eqn:Hsep.
           ++ rewrite !length_append in Hf2.
              destruct f2 as [|f2]; [simpl in Hf2; lia|].
              rewrite <- !append_assoc. rewrite (append_assoc _ _ (String quote rest)).
              rewrite body_separator
                by (apply orb_true_iff in Hsep; rewrite !Z.eqb_eq in Hsep; exact Hsep).
              rewrite IH by (simpl in Hf2; lia). reflexivity.
           ++ rewrite length_append in Hf2.
              rewrite length_firstn_str in Hf2 by exact Hle.
              destruct f2 as [|f2]; [lia|].
              rewrite append_assoc.
              rewrite (body_verbatim c src' r size) by (try assumption; lia).
              rewrite IH by (try assumption; lia).
              rewrite prepend_some, Henc. reflexivity.
Qed.

(** A string without encoding errors is left as it is. *)
Lemma coerce_valid fuel : forall s,
  (String.length s <= fuel)%nat ->
  valid_fuel fuel s = true -> coerce_fuel fuel s = s.
Proof.
  induction fuel as [|fuel IH]; intros s Hlen Hv.
  - destruct s; [reflexivity|simpl in Hlen; lia].
  - destruct s as [|c s']; [reflexivity|].
    cbn [valid_fuel coerce_fuel] in *.
    destruct (Z.ltb_spec (byte c) RuneSelf) as [Hascii|Hhigh].
    + rewrite IH; [reflexivity|simpl in Hlen; lia|assumption].
    + destruct (decode_cases c s' Hhigh) as [Herr|(r & size & Hdec & Hsz & Hle & Henc & Happ)].
      * rewrite Herr in Hv. discriminate.
      * rewrite Hdec in *.
        assert (Hs1 : (size =? 1)%nat = false) by (apply Nat.eqb_neq; lia).
        rewrite Hs1 in Hv. rewrite IH.
        -- rewrite Henc. apply firstn_skipn_str.
        -- rewrite length_skipn_str. cbn [String.length] in *. lia.
        -- assumption.
Qed.

(** The literal [appendString] writes for [s] is read back as the
    string value [coerce s]. *)
Lemma string_roundtrip s rest fuel depth :
  parse_value (S fuel) depth (appendString s ++ rest) = Some (JString (coerce s), rest).
Proof.
  unfold appendString. cbn [append parse_value skip_ws].
  change (is_ws quote) with false. cbv iota.
  change (byte quote =? 123) with false. change (byte quote =? 91) with false.
  change (byte quote =? 34) with true. cbv iota.
  unfold string_lit. rewrite append_assoc. cbn [append].
  rewrite body_roundtrip; [reflexivity|lia|].
  rewrite length_append. simpl. lia.
Qed.

Lemma string_roundtrip_valid s rest fuel depth :
  ValidString s = true ->
  parse_value (S fuel) depth (appendString s ++ rest) = Some (JString s, rest).
Proof.
  intros Hv. rewrite string_roundtrip. unfold coerce.
  rewrite coerce_valid; [reflexivity|lia|exact Hv].
Qed.


Lemma string_lit_roundtrip s rest :
  string_lit (appendString_loop (String.length s) s ++ String quote rest)
  = Some (coerce s, rest).
Proof.
  unfold string_lit. rewrite body_roundtrip; [reflexivity|lia|].
  rewrite length_append. simpl. lia.
Qed.

Lemma appendString_head s rest :
  appendString s ++ rest
  = String quote (appendString_loop (String.length s) s ++ String quote rest).
Proof. unfold appendString. cbn [append]. now rewrite append_assoc. Qed.

Lemma parse_elems_S fuel depth s :
  parse_elems (S fuel) depth s
  = match parse_value fuel depth s with
    | Some (v, r1) =>
      match skip_ws r1 with
      | String c r2 =>
        if byte c =? 44 then
          match parse_elems fuel depth r2 with
          | Some (vs, r3) => Some (v :: vs, r3)
          | None => None
          end
        else if byte c =? 93 then Some ([v], r2)
        else None
      | EmptyString => None
      end
    | None => None
    end.
Proof. reflexivity. Qed.

(** The elements [marshal_strings] wrote, up to the closing bracket. *)
Lemma elems_roundtrip l : forall fuel depth rest,
  l <> [] -> (List.length l < fuel)%nat ->
  parse_elems fuel depth (marshal_strings l ++ String "]" rest)
  = Some (map (fun s => JString (coerce s)) l, rest).
Proof.
  induction l as [|s l IH]; intros fuel depth rest Hne Hf; [congruence|].
  destruct fuel as [|[|fuel]]; [simpl in Hf; lia|simpl in Hf; lia|].
  destruct l as [|s' l'].
  - cbn [marshal_strings]. rewrite parse_elems_S, string_roundtrip.
    reflexivity.
  - change (marshal_strings (s :: s' :: l'))
      with (appendString s ++ "," ++ marshal_strings (s' :: l')).
    rewrite parse_elems_S, !append_assoc, string_roundtrip.
    change ("," ++ ?x) with (String "," x). cbn [skip_ws].
    change (is_ws ",") with false. cbv iota.
    change (byte "," =? 44) with true. cbv iota.
    rewrite IH; [reflexivity|discriminate|simpl in *; lia].
Qed.

(** A non-empty [[]string] is read back as an array of strings. *)
Lemma strings_roundtrip l fuel depth rest :
  l <> [] -> (List.length l < fuel)%nat -> depth < maxNestingDepth ->
  parse_value (S fuel) depth (marshal_value (PStrings l) ++ rest)
  = Some (JArray (map (fun s => JString (coerce s)) l), rest).
Proof.
  intros Hne Hf Hd. unfold marshal_value.
  rewrite !append_assoc. cbn [append parse_value skip_ws].
  change (is_ws "[") with false. cbv iota.
  change (byte "[" =? 123) with false. change (byte "[" =? 91) with true. cbv iota.
  destruct (Z.ltb_spec maxNestingDepth (depth + 1)); [lia|].
  destruct l as [|s l]; [congruence|].
  assert (Hq : exists t, marshal_strings (s :: l) ++ String "]" rest = String quote t).
  { destruct l; cbn [marshal_strings]; [|rewrite append_assoc];
      rewrite appendString_head; eauto. }
  destruct Hq as (t & Hq).
  change ("]" ++ rest) with (String "]" rest).
  rewrite Hq at 1. cbn [skip_ws]. change (is_ws quote) with false. cbv iota.
  change (byte quote =? 93) with false. cbv iota.
  rewrite elems_roundtrip by assumption. reflexivity.
Qed.

(** One member written by [marshal_members], read by [parse_members]. *)
Lemma member_roundtrip k text fuel depth :
  parse_members (S fuel) depth (appendString k ++ ":" ++ text)
  = match parse_value fuel depth text with
    | Some (v, r3) =>
      match skip_ws r3 with
      | String c3 r4 =>
        if byte c3 =? 44 then
          match parse_members fuel depth r4 with
          | Some (ms, r5) => Some ((coerce k, v) :: ms, r5)
          | None => None
          end
        else if byte c3 =? 125 then Some ([(coerce k, v)], r4)
        else None
      | EmptyString => None
      end
    | None => None
    end.
Proof.
  rewrite appendString_head. cbn [parse_members skip_ws].
  change (is_ws quote) with false. cbv iota.
  change (byte quote =? 34) with true. cbv iota.
  rewrite string_lit_roundtrip. cbn [append skip_ws].
  change (is_ws ":") with false. cbv iota.
  change (byte ":" =? 58) with true. cbv iota. reflexivity.
Qed.

Lemma length_appendString s : (2 <= String.length (appendString s))%nat.
Proof.
  unfold appendString. cbn [String.length]. rewrite length_append.
  cbn [String.length]. lia.
Qed.

Lemma length_marshal_strings l :
  (2 * List.length l <= String.length (marshal_strings l))%nat.
Proof.
  induction l as [|s [|s' l] IH]; [simpl; lia| |].
  - cbn [marshal_strings List.length]. pose proof (length_appendString s). lia.
  - change (marshal_strings (s :: s' :: l))
      with (appendString s ++ "," ++ marshal_strings (s' :: l)).
    rewrite !length_append. pose proof (length_appendString s).
    cbn [List.length] in *. lia.
Qed.

End JSONFacts.

Module GatewayFacts.
Import GoUTF8 GoStrings GoJSON Gateway ByteFacts UTF8Facts JSONFacts.

Lemma Marshal_plan_payload provider steps prompt :
  Marshal (plan_payload provider steps prompt)
  = "{" ++ (appendString "model_type" ++ ":" ++ (marshal_value (PString provider)
            ++ "," ++ (appendString "prompt" ++ ":" ++ (marshal_value (PString prompt)
            ++ "," ++ (appendString "steps" ++ ":" ++ (marshal_value (PStrings steps)
            ++ "}")))))).
Proof.
  unfold Marshal, plan_payload.
  change (sort_keys _) with
    [("model_type", PString provider); ("prompt", PString prompt);
     ("steps", PStrings steps)].
  cbn [marshal_members]. now rewrite !append_assoc.
Qed.

Lemma parse_value_object fuel depth t :
  depth < maxNestingDepth ->
  parse_value (S fuel) depth (String "{" (String quote t))
  = match parse_members fuel (depth + 1) (String quote t) with
    | Some (ms, r) => Some (JObject ms, r)
    | None => None
    end.
Proof.
  intros Hd. cbn [parse_value skip_ws].
  change (is_ws "{") with false. cbv iota.
  change (byte "{" =? 123) with true. cbv iota.
  destruct (Z.ltb_spec maxNestingDepth (depth + 1)); [lia|].
  change (is_ws quote) with false. cbv iota.
  change (byte quote =? 125) with false. cbv iota. reflexivity.
Qed.

(** The plan string is a JSON object with the three keys. *)
Lemma payload_roundtrip provider steps prompt :
  steps <> [] ->
  parse (Marshal (plan_payload provider steps prompt))
  = Some (JObject [("model_type", JString (coerce provider));
                   ("prompt", JString (coerce prompt));
                   ("steps", JArray (map (fun s => JString (coerce s)) steps))]).
Proof.
  intros Hne. unfold parse. rewrite Marshal_plan_payload.
  match goal with |- context [S (String.length ?t)] => set (text := t) end.
  assert (HL : (List.length steps + 6 <= String.length text)%nat).
  { subst text. unfold marshal_value. rewrite !length_append.
    pose proof (length_marshal_strings steps).
    pose proof (length_appendString provider). simpl String.length. lia. }
  destruct (String.length text) as [|[|[|[|[|L]]]]]; try lia.
  subst text.
  change ("{" ++ ?x) with (String "{" x).
  rewrite (appendString_head "model_type").
  rewrite parse_value_object by (unfold maxNestingDepth; lia).
  rewrite <- (appendString_head "model_type").
  rewrite member_roundtrip.
  unfold marshal_value at 1. rewrite string_roundtrip.
  change ("," ++ ?x) with (String "," x). cbn [skip_ws].
  change (is_ws ",") with false. cbv iota.
  change (byte "," =? 44) with true. cbv iota.
  rewrite member_roundtrip.
  unfold marshal_value at 1. rewrite string_roundtrip.
  change ("," ++ ?x) with (String "," x). cbn [skip_ws].
  change (is_ws ",") with false. cbv iota.
  change (byte "," =? 44) with true. cbv iota.
  rewrite member_roundtrip.
  rewrite strings_roundtrip; [|assumption|lia|unfold maxNestingDepth; lia].
  reflexivity.
Qed.


Lemma normalizeJSON_steps provider prompt raw :
  normalizeJSON provider prompt raw
  = option_map (fun steps => Marshal (plan_payload provider steps prompt))
               (decoded_steps raw).
Proof.
  unfold normalizeJSON, decoded_steps.
  destruct (negb (HasPrefix (TrimSpace raw) "{")); [reflexivity|].
  destruct (Unmarshal_decoded (TrimSpace raw)) as [d|]; [|reflexivity].
  destruct (List.length (elements (Steps d)) =? 0)%nat; reflexivity.
Qed.

Lemma decoded_steps_nonempty raw steps : decoded_steps raw = Some steps -> steps <> [].
Proof.
  unfold decoded_steps.
  destruct (negb (HasPrefix (TrimSpace raw) "{")); [discriminate|].
  destruct (Unmarshal_decoded (TrimSpace raw)) as [d|]; [|discriminate].
  destruct (List.length (elements (Steps d)) =? 0)%nat eqn:E; [discriminate|].
  intros H; inversion H; subst. intros Hnil. rewrite Hnil in E. discriminate.
Qed.

Lemma plan_of_content_steps provider prompt content :
  plan_of_content provider prompt content
  = Marshal (plan_payload provider (plan_steps content) prompt)
  /\ plan_steps content <> [].
Proof.
  unfold plan_of_content, plan_steps. rewrite !normalizeJSON_steps.
  destruct (decoded_steps (TrimSpace content)) as [st|] eqn:E1; cbn [option_map].
  - split; [reflexivity|]. eapply decoded_steps_nonempty; eauto.
  - destruct (decoded_steps (stripFences (TrimSpace content))) as [st|] eqn:E2;
      cbn [option_map].
    + split; [reflexivity|]. eapply decoded_steps_nonempty; eauto.
    + split; [reflexivity|discriminate].
Qed.

(** The three ways to a plan, on samples. *)
Example plan_from_raw_json :
  plan_of_content "ollama" "p" (dq " {'steps':['a','b'], 'note': 1} ")
  = dq "{'model_type':'ollama','prompt':'p','steps':['a','b']}".
Proof. vm_compute. reflexivity. Qed.

Example plan_from_fenced_json :
  plan_of_content "ollama" "p" Scenarios.fenced_content
  = dq "{'model_type':'ollama','prompt':'p','steps':['look up foo','answer']}".
Proof. vm_compute. reflexivity. Qed.

Example plan_from_prose :
  plan_of_content "ollama" "p" "  first do this  "
  = dq "{'model_type':'ollama','prompt':'p','steps':['first do this']}".
Proof. vm_compute. reflexivity. Qed.

End GatewayFacts.

Module PureFacts.
Import GoStrings GoJSON Planner Observe ByteFacts.

Lemma write_history_fold history : forall b,
  fold_left write_history history b
  = b ++ concat_str (map history_line (filter has_text history)).
Proof.
  induction history as [|m history IH]; intros b; cbn [fold_left filter].
  - simpl. now rewrite append_nil_r.
  - rewrite IH. unfold write_history, has_text.
    destruct (negb (String.eqb (string_field m "role") EmptyString)
              || negb (String.eqb (string_field m "content") EmptyString)).
    + cbn [map concat_str fold_right]. unfold history_line.
      now rewrite !append_assoc.
    + reflexivity.
Qed.

Lemma write_match_fold matches : forall b,
  fold_left write_match matches b = b ++ concat_str (map match_block matches).
Proof.
  induction matches as [|m matches IH]; intros b; cbn [fold_left].
  - simpl. now rewrite append_nil_r.
  - rewrite IH. unfold write_match. cbn [map concat_str fold_right].
    unfold match_block. now rewrite !append_assoc.
Qed.

(** C8, amended: the planner input consists of the three labelled
    sections in the order session history, RAG context, user prompt,
    all three tags present even when nothing is inside; the history
    section has one line "role: content" for each history message that
    has a non-empty role or content (a message with neither is skipped),
    the RAG section one block per match, and the user prompt section
    the working prompt. *)
Theorem planner_input_sections userPrompt history rag :
  buildPlannerPrompt userPrompt history rag
  = three_sections userPrompt (filter has_text history)
                   (match rag with Some r => Matches r | None => [] end)
  /\ (forallb has_text history = true ->
      buildPlannerPrompt userPrompt history rag
      = spec_planner_input userPrompt history rag)
  /\ buildPlannerPrompt userPrompt [] None
     = "<session_history>" ++ nl ++ "</session_history>" ++ nl ++ nl
       ++ "<rag_context>" ++ nl ++ "</rag_context>" ++ nl ++ nl
       ++ "<user_prompt>" ++ nl ++ userPrompt ++ nl ++ "</user_prompt>" ++ nl.
Proof.
  assert (H : buildPlannerPrompt userPrompt history rag
              = three_sections userPrompt (filter has_text history)
                               (match rag with Some r => Matches r | None => [] end)).
  { unfold buildPlannerPrompt, three_sections.
    rewrite write_history_fold.
    destruct rag as [r|].
    - rewrite write_match_fold. cbn [append]. now rewrite !append_assoc.
    - cbn [append map concat_str fold_right]. now rewrite !append_assoc. }
  split; [exact H|]. split; [|reflexivity].
  intros Hall. rewrite H. unfold spec_planner_input. f_equal.
  clear H. induction history as [|m history IH]; [reflexivity|].
  cbn [forallb filter] in *. apply andb_true_iff in Hall. destruct Hall as (Hm & Hall).
  rewrite Hm. f_equal. auto.
Qed.

(** C4, amended: [tryParseToolCall] returns a tool call exactly when
    the text decodes as a JSON object (every number in range) that has
    a field [tool] holding an object whose [name] is a string with
    something other than white space in it; the call has that name, the
    object [tool.args] as arguments when there is one and nil arguments
    otherwise, and the decoded object as [Raw]. *)
Theorem tryParseToolCall_spec planJSON tc :
  tryParseToolCall planJSON = Some tc <->
  exists ms tool,
    parse planJSON = Some (JObject ms)
    /\ numbers_fit (JObject ms) = true
    /\ map_index ms "tool" = Some (JObject tool)
    /\ Name tc = string_field tool "name"
    /\ TrimSpace (Name tc) <> EmptyString
    /\ Args tc = match map_index tool "args" with
                 | Some (JObject args) => Some args
                 | _ => None
                 end
    /\ Raw tc = ms.
Proof.
  unfold tryParseToolCall, Unmarshal_map. split.
  - destruct (parse planJSON) as [[| | | | |ms]|]; try (cbn; discriminate).
    destruct (numbers_fit (JObject ms)) eqn:Hfit; [|discriminate].
    destruct (map_index ms "tool") as [[| | | | |tool]|] eqn:Htool; try discriminate.
    destruct (String.eqb_spec (TrimSpace (string_field tool "name")) EmptyString) as [|Hne];
      [discriminate|].
    intros H; inversion H; subst; clear H. exists ms, tool. cbn [Name Args Raw].
    repeat split; auto.
  - intros (ms & tool & Hparse & Hfit & Htool & Hname & Hne & Hargs & Hraw).
    rewrite Hparse, Hfit, Htool.
    destruct (String.eqb_spec (TrimSpace (string_field tool "name")) EmptyString) as [He|_].
    + rewrite <- Hname in He. contradiction.
    + destruct tc as [n a r]. cbn [Name Args Raw] in *. subst. reflexivity.
Qed.

(** The nil arguments of a tool call become the empty mapping only in
    the request sent to the tool service. *)
Lemma dispatch_args env p ctx tc tr md req reply out :
  tool_dispatch env p ctx tc tr [EvExecuteTool md req reply] out ->
  ToolName req = Name tc
  /\ tr_Args req = match Args tc with Some a => a | None => [] end.
Proof. intros H; inversion H; subst; auto. Qed.

(** C8 as stated fails: a history message with an empty role and an
    empty content gets no line, where the specification has one line
    per message. *)
Lemma planner_input_skips_blank_message :
  buildPlannerPrompt "p" [Scenarios.blank_message] None
  = "<session_history>" ++ nl ++ "</session_history>" ++ nl ++ nl
    ++ "<rag_context>" ++ nl ++ "</rag_context>" ++ nl ++ nl
    ++ "<user_prompt>" ++ nl ++ "p" ++ nl ++ "</user_prompt>" ++ nl
  /\ spec_planner_input "p" [Scenarios.blank_message] None
     = "<session_history>" ++ nl ++ ": " ++ nl ++ "</session_history>" ++ nl ++ nl
       ++ "<rag_context>" ++ nl ++ "</rag_context>" ++ nl ++ nl
       ++ "<user_prompt>" ++ nl ++ "p" ++ nl ++ "</user_prompt>" ++ nl
  /\ buildPlannerPrompt "p" [Scenarios.blank_message] None
     <> spec_planner_input "p" [Scenarios.blank_message] None.
Proof.
  split; [reflexivity|]. split; [reflexivity|].
  apply String.eqb_neq. vm_compute. reflexivity.
Qed.

Lemma planner_input_sections_witness :
  buildPlannerPrompt "p" [[("role", JString "user"); ("content", JString "hi")]] None
  = spec_planner_input "p" [[("role", JString "user"); ("content", JString "hi")]] None.
Proof.
  apply (proj1 (proj2 (planner_input_sections
                         "p" [[("role", JString "user"); ("content", JString "hi")]] None))).
  reflexivity.
Defined.

(** C4 as stated fails twice: a name made of white space gives no tool
    call, where the specification only excludes the empty name; and
    absent arguments stay nil, where the specification has the empty
    mapping. *)
Lemma interpret_differs_from_spec :
  (interpret Scenarios.blank_name_plan = None
   /\ spec_interpret Scenarios.blank_name_plan = Some (" ", Some [])
   /\ interpret Scenarios.blank_name_plan <> spec_interpret Scenarios.blank_name_plan)
  /\ (interpret Scenarios.no_args_plan = Some ("t", None)
      /\ spec_interpret Scenarios.no_args_plan = Some ("t", Some [])
      /\ interpret Scenarios.no_args_plan <> spec_interpret Scenarios.no_args_plan).
Proof.
  split; (split; [vm_compute; reflexivity|]; split; [vm_compute; reflexivity|]);
    vm_compute; discriminate.
Qed.

Lemma tryParseToolCall_spec_witness :
  tryParseToolCall Scenarios.tool_plan
  = Some {| Name := "search";
            Args := Some [("q", JString "foo")];
            Raw := [("tool", JObject [("name", JString "search");
                                      ("args", JObject [("q", JString "foo")])])] |}.
Proof.
  apply (proj2 (tryParseToolCall_spec Scenarios.tool_plan _)).
  eexists _, _. split; [vm_compute; reflexivity|].
  split; [vm_compute; reflexivity|]. split; [vm_compute; reflexivity|].
  split; [reflexivity|]. split; [vm_compute; discriminate|].
  split; reflexivity.
Defined.

End PureFacts.

Module PlannerFacts.
Import GoJSON Planner Observe ByteFacts.

Section Turn.
Variable env : Env.
Variable p : PlannerT.
Variable ctx : Context.
Variable sessionID basePrompt : string.

Lemma wp_ret {A} (a : A) Q tr : Q a tr -> wp (ret a) Q tr.
Proof. intros H. exists a, tr. auto. Qed.

Lemma wp_bind {A B} (m : M A) (f : A -> M B) Q tr :
  wp m (fun a tr' => wp (f a) Q tr') tr -> wp (bind m f) Q tr.
Proof.
  intros (a & tr' & Hm & b & tr'' & Hf & HQ). exists b, tr''.
  unfold bind. rewrite Hm. auto.
Qed.

Lemma wp_call {A} (ask : list Event -> A) log Q tr :
  Q (ask tr) (tr ++ [log (ask tr)])%list -> wp (call ask log) Q tr.
Proof. intros H. eexists _, _. split; [reflexivity|exact H]. Qed.

Lemma wp_http req Q tr :
  url_Parse_ok env (request_url req) = true ->
  Q (http_Do env tr req) (tr ++ [EvHttp req (http_Do env tr req)])%list ->
  wp (http env req) Q tr.
Proof. intros Hurl H. unfold http. rewrite Hurl. now apply wp_call. Qed.

Lemma wp_RecordStep ty data Q tr :
  (forall a, Q a (tr ++ audit_ev p ctx sessionID ty data a)%list) ->
  wp (RecordStep env p ctx sessionID ty data) Q tr.
Proof.
  intros H. unfold RecordStep, audit_ev in *. destruct (auditDB p); simpl.
  - apply wp_call, H.
  - apply wp_ret. specialize (H None). now rewrite app_nil_r in H.
Qed.

Lemma wp_PublishStatus status Q tr :
  (forall ts e, Q e (tr ++ publish_ev p ctx sessionID (Status status) ts e)%list) ->
  wp (PublishStatus env p ctx sessionID status) Q tr.
Proof.
  intros H. unfold PublishStatus, publish_ev, publish in *. destruct (redis p); simpl.
  - apply wp_call, H.
  - apply wp_ret. specialize (H EmptyString None). now rewrite app_nil_r in H.
Qed.

Lemma wp_PublishNotification res Q tr :
  (forall ts e, Q e (tr ++ publish_ev p ctx sessionID (Result res) ts e)%list) ->
  wp (PublishNotification env p ctx sessionID res) Q tr.
Proof.
  intros H. unfold PublishNotification, publish_ev, publish in *. destruct (redis p); simpl.
  - apply wp_call, H.
  - apply wp_ret. specialize (H EmptyString None). now rewrite app_nil_r in H.
Qed.

Hypothesis Hurls : urls_parse env p sessionID = true.

Lemma latest_url_parses :
  url_Parse_ok env (memory_url p "/memory/latest?session_id=" ++ sessionID) = true.
Proof.
  unfold urls_parse in Hurls. apply andb_true_iff in Hurls. destruct Hurls as (H & _).
  apply andb_true_iff in H. tauto.
Qed.

Lemma store_url_parses : url_Parse_ok env (memory_url p "/memory/store") = true.
Proof.
  unfold urls_parse in Hurls. apply andb_true_iff in Hurls. destruct Hurls as (H & _).
  apply andb_true_iff in H. tauto.
Qed.

Lemma playbook_url_parses : url_Parse_ok env (memory_url p "/memory/playbook") = true.
Proof.
  unfold urls_parse in Hurls. apply andb_true_iff in Hurls. tauto.
Qed.

Lemma wp_fetchSessionHistory Q tr :
  (forall reply e,
      Q (history_of reply, e)
        (tr ++ [EvHttp (Get (memory_url p "/memory/latest?session_id=" ++ sessionID)) reply])%list) ->
  wp (fetchSessionHistory env p ctx sessionID) Q tr.
Proof.
  intros H. unfold fetchSessionHistory.
  apply wp_bind, wp_http; [exact latest_url_parses|].
  destruct (http_Do env tr _) as [err|status body] eqn:E.
  - apply wp_ret. apply (H (HttpErr err)).
  - specialize (H (HttpResp status body)). simpl in H.
    destruct (300 <=? status); apply wp_ret, H.
Qed.

Lemma wp_storeSessionDelta user assistant Q tr :
  (forall reply e, Q e (tr ++ [store_event p sessionID user assistant reply])%list) ->
  wp (storeSessionDelta env p ctx sessionID user assistant) Q tr.
Proof.
  intros H. unfold storeSessionDelta.
  apply wp_bind, wp_http; [exact store_url_parses|].
  destruct (http_Do env tr _) eqn:E; apply wp_ret, H.
Qed.

Lemma wp_storePlaybook st seq Q tr :
  hadToolStep st = true ->
  (forall reply e, Q e (tr ++ playbook_events p sessionID basePrompt st seq reply)%list) ->
  wp (storePlaybook env p ctx sessionID basePrompt seq) Q tr.
Proof.
  intros Hh H. unfold storePlaybook, playbook_events in *. rewrite Hh in H.
  rewrite Nat.ltb_antisym. cbn [andb] in H.
  destruct (3 <=? List.length seq)%nat; cbn [negb].
  - apply wp_bind, wp_http; [exact playbook_url_parses|].
    destruct (http_Do env tr _) eqn:E; [apply wp_ret, H|].
    destruct (300 <=? status); apply wp_ret, H.
  - apply wp_ret. specialize (H (HttpErr EmptyString) None).
    now rewrite app_nil_r in H.
Qed.

Lemma wp_executeTool tc Q tr :
  (forall tevs out, tool_dispatch env p ctx tc tr tevs out -> Q out (tr ++ tevs)%list) ->
  wp (executeTool env p ctx (Name tc) (Args tc)) Q tr.
Proof.
  intros H. unfold executeTool, executeToolGRPC.
  destruct (toolClient p) eqn:Hc; simpl.
  - apply wp_bind, wp_call.
    destruct (tool_ExecuteTool env tr _ _) as [err|resp] eqn:E; apply wp_ret.
    + apply (H _ _ (dispatch_error env p ctx tc tr err Hc E)).
    + apply (H _ _ (dispatch_ok env p ctx tc tr resp Hc E)).
  - apply wp_ret. specialize (H _ _ (dispatch_no_client env p ctx tc tr Hc)).
    now rewrite app_nil_r in H.
Qed.

(** When the addresses parse, the loop body does not panic and follows
    one of the four cases. *)
Lemma turn_body_spec st tr :
  wp (turn_body env p ctx sessionID basePrompt st)
     (fun r tr' => exists evs, tr' = (tr ++ evs)%list /\
                               turn_case env p ctx sessionID basePrompt st tr r evs) tr.
Proof.
  unfold turn_body.
  apply wp_bind, wp_fetchSessionHistory; intros reply e0; simpl fst.
  apply wp_bind, wp_call.
  set (rag := memory_GetRAGContext env _ _ _).
  fold (rag_request p st). fold (rag_of rag).
  apply wp_bind, wp_call.
  fold (planner_input st reply rag).
  rewrite <- app_assoc. change ([?a] ++ [?b])%list with [a; b].
  fold (context_events p ctx sessionID st reply rag).
  destruct (model_GetPlan env _ _ _) as [err|plan] eqn:Hplan.
  - apply wp_bind, wp_RecordStep; intros a. apply wp_ret.
    eexists; split; [| eapply turn_plan_error; exact Hplan].
    now rewrite <- !app_assoc.
  - apply wp_bind, wp_RecordStep; intros a1.
    destruct (tryParseToolCall plan) as [tc|] eqn:Htc.
    + apply wp_bind, wp_RecordStep; intros a2.
      apply wp_bind, wp_executeTool; intros tevs out Hd.
      destruct out as [err|out].
      * apply wp_bind, wp_RecordStep; intros a3. apply wp_ret.
        eexists; split; [| eapply turn_tool_error; [exact Hplan|exact Htc|]].
        2:{ rewrite <- !app_assoc in Hd. exact Hd. }
        now rewrite <- !app_assoc.
      * apply wp_bind, wp_RecordStep; intros a3.
        apply wp_bind, wp_storeSessionDelta; intros r1 e1.
        apply wp_bind, wp_storeSessionDelta; intros r2 e2. apply wp_ret.
        eexists; split; [| eapply turn_tool_ok; [exact Hplan|exact Htc|]].
        2:{ rewrite <- !app_assoc in Hd. exact Hd. }
        now rewrite <- !app_assoc.
    + apply wp_bind, wp_RecordStep; intros a2.
      apply wp_bind.
      assert (Hpb : forall Q tr0,
                 (forall reply e, Q e (tr0 ++ playbook_events p sessionID basePrompt st
                                      (playbookSeq st ++ [("assistant", plan)]) reply)%list) ->
                 wp (if hadToolStep st
                     then storePlaybook env p ctx sessionID basePrompt
                                        (playbookSeq st ++ [("assistant", plan)])
                     else ret None) Q tr0).
      { intros Q tr0 H. destruct (hadToolStep st) eqn:Hh.
        - eapply wp_storePlaybook; eauto.
        - apply wp_ret. specialize (H (HttpErr EmptyString) None).
          unfold playbook_events in H. rewrite Hh in H. simpl in H.
          now rewrite app_nil_r in H. }
      apply Hpb; intros pb_reply e3.
      apply wp_bind, wp_storeSessionDelta; intros r1 e1.
      apply wp_bind, wp_PublishNotification; intros ts1 pe1.
      apply wp_bind, wp_PublishStatus; intros ts2 pe2. apply wp_ret.
      eexists; split; [| eapply turn_final; [exact Hplan|exact Htc]].
      now rewrite <- !app_assoc.
Qed.

(** The loop, once it returns, has one of the shapes of [loop_run]. *)
Lemma loop_spec maxTurns fuel : forall turn n st tr o tr',
  loop env p fuel ctx sessionID basePrompt maxTurns turn n st tr = (Some (Some o), tr') ->
  exists evs, tr' = (tr ++ evs)%list /\
              loop_run env p ctx sessionID basePrompt maxTurns turn n st tr o evs.
Proof.
  induction fuel as [|fuel IH]; intros turn n st tr o tr' H; cbn [loop] in H.
  - discriminate.
  - destruct (Z.leb_spec turn maxTurns) as [Hle|Hgt].
    + unfold bind in H.
      destruct (turn_body_spec st tr) as (r & tr1 & Hb & evs & -> & Hc).
      rewrite Hb in H.
      destruct r as [res err st'|st'].
      * inversion H; subst. exists evs; split; [reflexivity|].
        now apply run_return.
      * apply IH in H. destruct H as (evs' & -> & Hr).
        exists (evs ++ evs')%list. split; [now rewrite app_assoc|].
        eapply run_continue; eauto.
    + inversion H; subst. exists []. split; [now rewrite app_nil_r|].
      now apply run_exhausted.
Qed.

(** With a budget below the largest [int], the loop returns. *)
Lemma loop_returns maxTurns fuel : forall turn n st tr,
  maxTurns < max_int -> - 2 ^ 63 <= turn ->
  (Z.to_nat (maxTurns - turn + 1) < fuel)%nat ->
  exists o tr',
    loop env p fuel ctx sessionID basePrompt maxTurns turn n st tr = (Some (Some o), tr').
Proof.
  unfold max_int.
  induction fuel as [|fuel IH]; intros turn n st tr Hmax Hlo Hf; [lia|]. cbn [loop].
  destruct (Z.leb_spec turn maxTurns) as [Hle|Hgt]; [|unfold ret; eauto].
  unfold bind.
  destruct (turn_body_spec st tr) as (r & tr1 & Hb & _). rewrite Hb.
  destruct r as [res err st'|st']; [unfold ret; eauto|].
  assert (Hw : wrap64 (turn + 1) = turn + 1).
  { unfold wrap64. rewrite Z.mod_small; lia. }
  rewrite Hw. apply IH; lia.
Qed.

End Turn.

Section Projections.
Variable env : Env.
Variable p : PlannerT.
Variable ctx : Context.
Variable sessionID basePrompt : string.

Lemma audit_types_app a b : audit_types (a ++ b) = (audit_types a ++ audit_types b)%list.
Proof. apply flat_map_app. Qed.
Lemma published_app a b : published (a ++ b) = (published a ++ published b)%list.
Proof. apply flat_map_app. Qed.
Lemma session_deltas_app a b : session_deltas (a ++ b) = (session_deltas a ++ session_deltas b)%list.
Proof. apply flat_map_app. Qed.
Lemma playbook_posts_app a b : playbook_posts (a ++ b) = (playbook_posts a ++ playbook_posts b)%list.
Proof. apply flat_map_app. Qed.
Lemma plan_replies_app a b : plan_replies (a ++ b) = (plan_replies a ++ plan_replies b)%list.
Proof. apply flat_map_app. Qed.
Lemma plan_requests_app a b : plan_requests (a ++ b) = (plan_requests a ++ plan_requests b)%list.
Proof. apply flat_map_app. Qed.

(** The events of a dispatch are at most one call to the tool service. *)
Lemma tool_dispatch_events tc tr tevs out :
  tool_dispatch env p ctx tc tr tevs out ->
  tevs = [] \/ exists req reply, tevs = [EvExecuteTool (outgoing_md ctx) req reply].
Proof. intros H; inversion H; subst; eauto. Qed.

End Projections.

Create Rewrite HintDb obs.
#[local] Hint Rewrite audit_types_app published_app session_deltas_app
  playbook_posts_app plan_replies_app plan_requests_app : obs.

(** Unfold the events of a turn and compute what a projection shows. *)
Ltac obs_events :=
  unfold opening, context_events, audit_ev, publish_ev, playbook_events, store_event in *.

Ltac obs_dispatch :=
  repeat match goal with
         | H : tool_dispatch _ _ _ _ _ ?tevs _ |- _ =>
           destruct (tool_dispatch_events _ _ _ _ _ _ _ H) as [->|(? & ? & ->)]; clear H
         end.

Ltac inv_turn H := inversion H; subst; clear H.

Ltac split_in H :=
  repeat first [ progress (rewrite in_app_iff in H)
               | progress (simpl in H)
               | match type of H with
                 | context [if ?b then _ else _] => destruct b
                 end ].

Ltac case_ifs :=
  repeat match goal with
         | |- context [if ?b then _ else _] =>
           lazymatch b with
           | andb ?x _ => destruct x; simpl
           | _ => destruct b; simpl
           end
         end.

Section LoopFacts.
Variable env : Env.
Variable p : PlannerT.
Variable ctx : Context.
Variable sessionID basePrompt : string.

(** The audit events of the loop: steps, then the terminal event. *)
Lemma loop_audit maxTurns turn n st tr o evs :
  loop_run env p ctx sessionID basePrompt maxTurns turn n st tr o evs ->
  exists mid, Forall is_step mid /\
              audit_types evs = if auditDB p then (mid ++ terminal o)%list else [].
Proof.
  induction 1 as [turn n st tr Hgt
                 |turn n st tr res err st' evs Hle Hc
                 |turn n st tr st' evs o evs' Hle Hc Hr IH].
  - exists []. split; [constructor|]. now destruct (auditDB p).
  - inv_turn Hc; obs_events; autorewrite with obs; destruct (auditDB p); simpl.
    + exists []; split; [constructor|]. reflexivity.
    + exists []; split; [constructor|]. now destruct (redis p).
    + exists ["PLAN_MODEL_RESPONSE"]; split; [repeat constructor|].
      unfold terminal; simpl.
      destruct (hadToolStep _ && _), (redis p); reflexivity.
    + exists []; split; [constructor|].
      destruct (hadToolStep _ && _), (redis p); reflexivity.
  - destruct IH as (mid & Hmid & IH).
    inv_turn Hc; obs_dispatch; obs_events; autorewrite with obs; rewrite IH;
      destruct (auditDB p); simpl;
        try (exists []; split; [constructor|reflexivity]).
    all: eexists (_ :: _ :: _ :: mid); split;
      [repeat constructor; auto; unfold is_step; auto | reflexivity].
Qed.

(** The notifications of the loop: a result and [COMPLETED] on the
    completion path, nothing otherwise. *)
Lemma loop_published maxTurns turn n st tr o evs :
  loop_run env p ctx sessionID basePrompt maxTurns turn n st tr o evs ->
  published evs = if redis p && finalized o
                  then [Result (result o); Status "COMPLETED"] else [].
Proof.
  induction 1 as [turn n st tr Hgt
                 |turn n st tr res err st' evs Hle Hc
                 |turn n st tr st' evs o evs' Hle Hc Hr IH].
  - now rewrite andb_false_r.
  - inv_turn Hc; obs_events; autorewrite with obs; unfold finalized; simpl;
      case_ifs; reflexivity.
  - inv_turn Hc; obs_dispatch; obs_events; autorewrite with obs; rewrite IH;
      destruct (auditDB p); reflexivity.
Qed.

(** The playbook posts of the loop. *)
Lemma loop_playbook maxTurns turn n st tr o evs :
  loop_run env p ctx sessionID basePrompt maxTurns turn n st tr o evs ->
  playbook_posts evs =
  if finalized o && hadToolStep (final o)
     && (3 <=? List.length (playbookSeq (final o)))%nat
  then [playbookSeq (final o)] else [].
Proof.
  induction 1 as [turn n st tr Hgt
                 |turn n st tr res err st' evs Hle Hc
                 |turn n st tr st' evs o evs' Hle Hc Hr IH].
  - reflexivity.
  - inv_turn Hc; obs_events; autorewrite with obs; unfold finalized; simpl;
      case_ifs; reflexivity.
  - inv_turn Hc; obs_dispatch; obs_events; autorewrite with obs; rewrite IH;
      destruct (auditDB p); reflexivity.
Qed.

(** The session deltas of the loop end, on the completion path, with
    the working prompt and the final plan. *)
Lemma loop_deltas maxTurns turn n st tr o evs :
  loop_run env p ctx sessionID basePrompt maxTurns turn n st tr o evs ->
  finalized o = true ->
  exists ds, session_deltas evs = (ds ++ [(prompt (final o), result o)])%list.
Proof.
  induction 1 as [turn n st tr Hgt
                 |turn n st tr res err st' evs Hle Hc
                 |turn n st tr st' evs o evs' Hle Hc Hr IH]; intros Hfin.
  - discriminate.
  - inv_turn Hc; [discriminate|].
    exists []. obs_events; autorewrite with obs; simpl.
    case_ifs; reflexivity.
  - destruct (IH Hfin) as (ds & IHds).
    exists (session_deltas evs ++ ds)%list.
    autorewrite with obs. rewrite IHds. now rewrite app_assoc.
Qed.

(** The state of the loop keeps the first prompt as a prefix of the
    working prompt. *)
Lemma turn_prompt_prefix st tr r evs :
  turn_case env p ctx sessionID basePrompt st tr r evs ->
  exists suffix,
    prompt (match r with Return _ _ st' => st' | Continue st' => st' end)
    = prompt st ++ suffix.
Proof.
  intros Hc; inv_turn Hc; simpl.
  - exists EmptyString. clear. induction (prompt st); simpl; congruence.
  - exists EmptyString. clear. induction (prompt st); simpl; congruence.
  - eexists. reflexivity.
  - unfold buildFollowupPrompt. eexists. reflexivity.
Qed.

Lemma loop_prompt_prefix maxTurns turn n st tr o evs :
  loop_run env p ctx sessionID basePrompt maxTurns turn n st tr o evs ->
  exists suffix, prompt (final o) = prompt st ++ suffix.
Proof.
  induction 1 as [turn n st tr Hgt
                 |turn n st tr res err st' evs Hle Hc
                 |turn n st tr st' evs o evs' Hle Hc Hr IH].
  - exists EmptyString. simpl. now rewrite append_nil_r.
  - apply turn_prompt_prefix in Hc. exact Hc.
  - apply turn_prompt_prefix in Hc. destruct Hc as (s1 & Hs1).
    destruct IH as (s2 & Hs2). simpl in Hs1. exists (s1 ++ s2).
    now rewrite Hs2, Hs1, append_assoc.
Qed.

(** The working prompt only grows: a turn that goes on to another turn
    makes it strictly longer, the returning turn leaves it. *)
Lemma loop_prompt_growth maxTurns turn n st tr o evs :
  loop_run env p ctx sessionID basePrompt maxTurns turn n st tr o evs ->
  (String.length (prompt st) <= String.length (prompt (final o)))%nat /\
  (exhausted o = false ->
   (n < iterations o)%nat
   /\ (iterations o = S n -> prompt (final o) = prompt st)
   /\ ((S n < iterations o)%nat ->
       (String.length (prompt st) < String.length (prompt (final o)))%nat)).
Proof.
  induction 1 as [turn n st tr Hgt
                 |turn n st tr res err st' evs Hle Hc
                 |turn n st tr st' evs o evs' Hle Hc Hr IH]; simpl.
  - split; [lia|discriminate].
  - assert (Hp : prompt st' = prompt st) by (inv_turn Hc; reflexivity).
    rewrite Hp. split; [lia|]. intros _. split; [lia|]. split; [auto|lia].
  - assert (Hp : (String.length (prompt st) < String.length (prompt st'))%nat).
    { inv_turn Hc; simpl; unfold buildFollowupPrompt;
        rewrite !length_append; simpl; lia. }
    destruct IH as (IH1 & IH2). split; [lia|].
    intros Hex. destruct (IH2 Hex) as (I1 & I2 & I3).
    split; [lia|]. split; [lia|lia].
Qed.

(** The loop returns an error exactly when a plan request failed, and
    then its last call records [PLAN_ERROR]. *)
Lemma loop_error maxTurns turn n st tr o evs :
  loop_run env p ctx sessionID basePrompt maxTurns turn n st tr o evs ->
  (forall e, In (inl e) (plan_replies evs) -> error o = Some ("GetPlan: " ++ e)) /\
  (forall msg, error o = Some msg ->
     exists pre input e a,
       msg = "GetPlan: " ++ e /\
       evs = (pre ++ [EvGetPlan (outgoing_md ctx) input (inl e)]
              ++ audit_ev p ctx sessionID "PLAN_ERROR" (DataError e) a)%list /\
       forall e', ~ In (inl e') (plan_replies pre)).
Proof.
  induction 1 as [turn n st tr Hgt
                 |turn n st tr res err st' evs Hle Hc
                 |turn n st tr st' evs o evs' Hle Hc Hr IH]; simpl.
  - split; [intros e []|discriminate].
  - inv_turn Hc; simpl; split.
    + intros e. obs_events; autorewrite with obs; destruct (auditDB p); simpl;
        intros [He|[]]; congruence.
    + intros msg Hmsg. inversion Hmsg; subst.
      eexists (context_events _ _ _ _ _ _), _, _, _.
      split; [reflexivity|]. split; [reflexivity|].
      intros e'. simpl. tauto.
    + intros e. obs_events; autorewrite with obs;
        case_ifs; intros [He|[]]; congruence.
    + discriminate.
  - destruct IH as (IH1 & IH2).
    assert (Hclean : forall e, ~ In (inl e) (plan_replies evs)).
    { intros e. inv_turn Hc; obs_dispatch; obs_events; autorewrite with obs;
        destruct (auditDB p); simpl; intros [He|[]]; congruence. }
    split.
    + intros e. autorewrite with obs. rewrite in_app_iff.
      intros [He|He]; [destruct (Hclean _ He)|exact (IH1 _ He)].
    + intros msg Hmsg. destruct (IH2 _ Hmsg) as (pre & input & e & a & -> & -> & Hpre).
      exists (evs ++ pre)%list, input, e, a. split; [reflexivity|].
      split; [now rewrite app_assoc|].
      intros e'. autorewrite with obs. rewrite in_app_iff.
      intros [He|He]; [destruct (Hclean _ He)|destruct (Hpre _ He)].
Qed.

(** Under a model that always asks for a tool the loop runs out its
    budget. *)
Lemma loop_always_tool maxTurns turn n st tr o evs :
  always_tool_call env ->
  loop_run env p ctx sessionID basePrompt maxTurns turn n st tr o evs ->
  maxTurns < max_int -> 1 <= turn <= maxTurns + 1 ->
  exhausted o = true /\ result o = sentinel /\ error o = None /\
  Z.of_nat (iterations o) = Z.of_nat n + (maxTurns - turn + 1) /\
  Z.of_nat (List.length (plan_requests evs)) = maxTurns - turn + 1.
Proof.
  intros Hmodel.
  induction 1 as [turn n st tr Hgt
                 |turn n st tr res err st' evs Hle Hc
                 |turn n st tr st' evs o evs' Hle Hc Hr IH]; intros Hmax Hturn; simpl.
  - repeat split; lia.
  - exfalso. inv_turn Hc;
      match goal with
      | H : model_GetPlan env ?t ?m ?i = _ |- _ =>
        destruct (Hmodel t m i) as (plan' & Hp & Hcall); rewrite Hp in H
      end; [discriminate|].
    match goal with H : inr _ = inr _ |- _ => inversion H; subst end.
    contradiction.
  - assert (Hw : wrap64 (turn + 1) = turn + 1).
    { unfold wrap64, max_int in *. rewrite Z.mod_small; lia. }
    rewrite Hw in IH. destruct IH as (E1 & E2 & E3 & E4 & E5); [assumption|lia|].
    repeat split; try assumption; [lia|].
    autorewrite with obs. rewrite length_app, Nat2Z.inj_add, E5.
    assert (Hone : List.length (plan_requests evs) = 1%nat).
    { inv_turn Hc; obs_dispatch; obs_events; autorewrite with obs;
        destruct (auditDB p); reflexivity. }
    rewrite Hone. lia.
Qed.

End LoopFacts.

Section Runs.
Variable env : Env.
Variable p : PlannerT.
Variable ctx : Context.
Variable prompt0 sessionID : string.

Hypothesis Hurls : urls_parse env p sessionID = true.

(** A run within the budget, with addresses that parse, returns, with
    the shape of [loop_run]. *)
Lemma run_shape :
  MaxTurns (cfg p) < max_int ->
  exists o tr a ts e evs,
    run env p ctx prompt0 sessionID = (Some o, tr) /\
    tr = (opening p (injectTraceIDToOutgoingGRPC ctx) sessionID prompt0 a ts e ++ evs)%list /\
    loop_run env p (injectTraceIDToOutgoingGRPC ctx) sessionID prompt0
             (effective_max_turns p) 1 0 (start_state prompt0)
             (opening p (injectTraceIDToOutgoingGRPC ctx) sessionID prompt0 a ts e) o evs.
Proof.
  intros Hmax.
  assert (Hwp : wp (AgentLoop_run env p (enough_fuel p) ctx prompt0 sessionID)
                   (fun r tr => exists o a ts e evs,
                        r = Some o /\
                        tr = (opening p (injectTraceIDToOutgoingGRPC ctx) sessionID prompt0 a ts e ++ evs)%list /\
                        loop_run env p (injectTraceIDToOutgoingGRPC ctx) sessionID prompt0
                                 (effective_max_turns p) 1 0 (start_state prompt0)
                                 (opening p (injectTraceIDToOutgoingGRPC ctx) sessionID prompt0 a ts e) o evs) []).
  { unfold AgentLoop_run.
    apply wp_bind, wp_RecordStep; intros a.
    apply wp_bind, wp_PublishStatus; intros ts e.
    simpl app.
    fold (opening p (injectTraceIDToOutgoingGRPC ctx) sessionID prompt0 a ts e).
    fold (start_state prompt0).
    destruct (loop_returns env p (injectTraceIDToOutgoingGRPC ctx) sessionID prompt0 Hurls
                           (effective_max_turns p) (enough_fuel p) 1 0 (start_state prompt0)
                           (opening p (injectTraceIDToOutgoingGRPC ctx) sessionID prompt0 a ts e))
      as (o & tr' & Hloop).
    - unfold effective_max_turns, max_int in *.
      destruct (Z.leb_spec (MaxTurns (cfg p)) 0); lia.
    - lia.
    - unfold enough_fuel, effective_max_turns.
      destruct (Z.leb_spec (MaxTurns (cfg p)) 0); lia.
    - exists (Some o), tr'. split; [exact Hloop|].
      apply loop_spec in Hloop; [|exact Hurls]. destruct Hloop as (evs & -> & Hr).
      exists o, a, ts, e, evs. auto. }
  destruct Hwp as (r & tr & Hrun & o & a & ts & e & evs & -> & Htr & Hl).
  exists o, tr, a, ts, e, evs. split; [|auto].
  unfold run. now rewrite Hrun.
Qed.

End Runs.

Section Claims.
Variable env : Env.
Variable p : PlannerT.
Variable ctx : Context.
Variable prompt0 sessionID : string.

Lemma opening_audit a ts e :
  audit_types (opening p (injectTraceIDToOutgoingGRPC ctx) sessionID prompt0 a ts e)
  = if auditDB p then ["PLAN_START"] else [].
Proof. obs_events. autorewrite with obs. case_ifs; reflexivity. Qed.

Lemma opening_published a ts e :
  published (opening p (injectTraceIDToOutgoingGRPC ctx) sessionID prompt0 a ts e)
  = if redis p then [Status "STARTED"] else [].
Proof. obs_events. autorewrite with obs. case_ifs; reflexivity. Qed.

Lemma opening_quiet a ts e :
  let op := opening p (injectTraceIDToOutgoingGRPC ctx) sessionID prompt0 a ts e in
  session_deltas op = [] /\ playbook_posts op = [] /\ plan_replies op = []
  /\ plan_requests op = [].
Proof. obs_events. autorewrite with obs. case_ifs; auto. Qed.



(** C5, as the code behaves: on the completion path the last session
    delta stored has as user text the working prompt of the finalizing
    turn, not the request prompt [AgentLoop] keeps in [basePrompt], and
    as assistant text the final plan.  The working prompt begins with
    the request prompt, and is the request prompt exactly when the run
    finalizes on its first turn: after any earlier tool turn it carries
    the feedback of that turn as well. *)
Theorem final_delta_stores_working_prompt :
  urls_parse env p sessionID = true ->
  MaxTurns (cfg p) < max_int ->
  exists o tr,
    run env p ctx prompt0 sessionID = (Some o, tr)
    /\ (finalized o = true ->
        (exists ds, session_deltas tr = (ds ++ [(prompt (final o), result o)])%list)
        /\ (exists suffix, prompt (final o) = prompt0 ++ suffix)
        /\ (prompt (final o) = prompt0 <-> iterations o = 1%nat)).
Proof.
  intros Hurls Hmax.
  destruct (run_shape env p ctx prompt0 sessionID Hurls Hmax)
    as (o & tr & a & ts & e & evs & Hrun & -> & Hloop).
  exists o, (opening p (injectTraceIDToOutgoingGRPC ctx) sessionID prompt0 a ts e ++ evs)%list.
  split; [exact Hrun|]. intros Hfin.
  destruct (loop_deltas _ _ _ _ _ _ _ _ _ _ _ _ Hloop Hfin) as (ds & Hds).
  destruct (loop_prompt_prefix _ _ _ _ _ _ _ _ _ _ _ _ Hloop) as (suffix & Hsuf).
  destruct (loop_prompt_growth _ _ _ _ _ _ _ _ _ _ _ _ Hloop) as (_ & Hgrow).
  assert (Hex : exhausted o = false).
  { unfold finalized in Hfin. destruct (exhausted o); [discriminate|reflexivity]. }
  destruct (Hgrow Hex) as (G1 & G2 & G3). simpl in G2, G3, Hsuf.
  split; [|split].
  - exists ds. autorewrite with obs.
    destruct (opening_quiet a ts e) as (-> & _). exact Hds.
  - exists suffix. exact Hsuf.
  - split; [|exact G2].
    intros Heq. destruct (Nat.eq_dec (iterations o) 1) as [|Hne]; [assumption|].
    assert (Hlt : (1 < iterations o)%nat) by lia.
    apply G3 in Hlt. rewrite Heq in Hlt. lia.
Qed.



(** C9: a turn whose tool dispatch returns an RPC error leaves the
    playbook sequence and [hadToolStep] as they were and stores no
    session delta; after the failed dispatch the only call is the
    recording of [TOOL_ERROR], and the working prompt of the next turn is
    the old one followed by a blank line, "Tool error: " and the text of
    the error [executeTool] returned. *)
Theorem tool_error_turn_frame (st : LoopState) (tr : list Event) :
  urls_parse env p sessionID = true ->
  forall md req e,
    In (EvExecuteTool md req (inl e))
       (skipn (List.length tr) (snd (turn_body env p ctx sessionID prompt0 st tr))) ->
    let text := "ExecuteTool(" ++ fmt_q env (ToolName req) ++ "): " ++ e in
    exists before a,
      turn_body env p ctx sessionID prompt0 st tr
      = (Some (Continue {| prompt := prompt st ++ nl ++ nl ++ "Tool error: " ++ text;
                           playbookSeq := playbookSeq st;
                           hadToolStep := hadToolStep st |}),
         (tr ++ before ++ [EvExecuteTool md req (inl e)]
             ++ audit_ev p ctx sessionID "TOOL_ERROR"
                         (DataToolError (ToolName req) text) a)%list)
      /\ session_deltas before = [].
Proof.
  intros Hurls md req e Hin text.
  destruct (turn_body_spec env p ctx sessionID prompt0 Hurls st tr)
    as (r & tr1 & Hb & evs & Htr & Hc).
  rewrite Hb in Hin |- *. cbn [snd] in Hin. rewrite Htr in Hin |- *.
  rewrite skipn_app, skipn_all, Nat.sub_diag in Hin. simpl in Hin.
  destruct r as [res err st'|st'].
  - exfalso. inv_turn Hc; obs_events; split_in Hin; intuition (try discriminate).
  - inv_turn Hc.
    + match goal with H : tool_dispatch _ _ _ _ _ _ _ |- _ => inversion H; subst; clear H end.
      * exfalso. obs_events; split_in Hin; intuition (try discriminate).
      * assert (Hev : EvExecuteTool md req (inl e)
                      = EvExecuteTool (outgoing_md ctx)
                          {| ToolName := Name tc;
                             tr_Args := match Args tc with Some a => a | None => [] end |}
                          (inl err0)).
        { obs_events; split_in Hin;
            intuition (try discriminate; try (symmetry; assumption)). }
        inversion Hev; subst.
        exists before, a3. split; [reflexivity|].
        subst before. obs_events; autorewrite with obs; case_ifs; reflexivity.
    + exfalso.
      match goal with H : tool_dispatch _ _ _ _ _ _ _ |- _ => inversion H; subst; clear H end;
        obs_events; split_in Hin; intuition (try discriminate).
Qed.

End Claims.

Import Scenarios.

Lemma always_tool_always : always_tool_call always_tool.
Proof.
  intros tr md input. exists tool_plan. split.
  - unfold always_tool, scripted. cbn [model_GetPlan].
    destruct (List.length (filter is_GetPlan tr)); reflexivity.
  - vm_compute. discriminate.
Defined.

Lemma small_budget n : n < 100 -> MaxTurns (cfg (planner n)) < max_int.
Proof. unfold max_int. cbn. lia. Defined.




(** C5 as stated fails: after one tool turn no stored session delta
    has the request prompt as its user text. *)
Lemma final_delta_not_original_prompt :
  let r := run tool_then_answer (planner 3) ctx0 "search foo" "s2" in
  option_map finalized (fst r) = Some true
  /\ option_map result (fst r) = Some "answer: bar"
  /\ ~ In ("search foo", "answer: bar") (session_deltas (snd r))
  /\ last (session_deltas (snd r)) (EmptyString, EmptyString)
     = (buildFollowupPrompt "search foo" tool_plan (encode_tool_output tool_ok),
        "answer: bar").
Proof.
  intros r. split; [vm_compute; reflexivity|]. split; [vm_compute; reflexivity|].
  split; [|vm_compute; reflexivity].
  vm_compute. intros H.
  repeat (destruct H as [H|H]; [discriminate H|]). exact H.
Qed.

Lemma final_delta_stores_working_prompt_witness :
  exists o tr,
    run tool_then_answer (planner 3) ctx0 "search foo" "s2" = (Some o, tr)
    /\ (finalized o = true ->
        (exists ds, session_deltas tr = (ds ++ [(prompt (final o), result o)])%list)
        /\ (exists suffix, prompt (final o) = "search foo" ++ suffix)
        /\ (prompt (final o) = "search foo" <-> iterations o = 1%nat)).
Proof.
  apply (final_delta_stores_working_prompt tool_then_answer (planner 3) ctx0 "search foo" "s2").
  - reflexivity.
  - apply small_budget. lia.
Defined.



Lemma tool_error_turn_frame_witness :
  let text := "ExecuteTool(" ++ fmt_q tool_fails_then_answer "search" ++ "): "
              ++ "rpc error: unavailable" in
  exists before a,
    turn_body tool_fails_then_answer (planner 3) ctx0 "s3" "x" (start_state "x") []
    = (Some (Continue {| prompt := "x" ++ nl ++ nl ++ "Tool error: " ++ text;
                         playbookSeq := [("user", "x")];
                         hadToolStep := false |}),
       ([] ++ before ++ [EvExecuteTool [] search_request (inl "rpc error: unavailable")]
           ++ audit_ev (planner 3) ctx0 "s3" "TOOL_ERROR"
                       (DataToolError "search" text) a)%list)
    /\ session_deltas before = [].
Proof.
  apply (tool_error_turn_frame tool_fails_then_answer (planner 3) ctx0 "x" "s3"
                               (start_state "x") [] eq_refl [] search_request
                               "rpc error: unavailable").
  vm_compute. do 5 right. left. reflexivity.
Defined.

(** The seed scenarios of the specification. *)
Example scenario_final_answer :
  AgentLoop answer_at_once (planner 3) ctx0 "hello" "s1" = Some ("hi there", None)
  /\ audit_types (snd (run answer_at_once (planner 3) ctx0 "hello" "s1"))
     = ["PLAN_START"; "PLAN_MODEL_RESPONSE"; "PLAN_END"].
Proof. split; vm_compute; reflexivity. Qed.

Example scenario_tool_then_answer :
  AgentLoop tool_then_answer (planner 3) ctx0 "search foo" "s2" = Some ("answer: bar", None)
  /\ audit_types (snd (run tool_then_answer (planner 3) ctx0 "search foo" "s2"))
     = ["PLAN_START"; "PLAN_MODEL_RESPONSE"; "TOOL_CALL"; "TOOL_RESULT";
        "PLAN_MODEL_RESPONSE"; "PLAN_END"].
Proof. split; vm_compute; reflexivity. Qed.

Example scenario_tool_error :
  AgentLoop tool_fails_then_answer (planner 3) ctx0 "x" "s3" = Some ("done", None)
  /\ audit_types (snd (run tool_fails_then_answer (planner 3) ctx0 "x" "s3"))
     = ["PLAN_START"; "PLAN_MODEL_RESPONSE"; "TOOL_CALL"; "TOOL_ERROR";
        "PLAN_MODEL_RESPONSE"; "PLAN_END"].
Proof. split; vm_compute; reflexivity. Qed.

Example scenario_plan_error :
  AgentLoop plan_fails (planner 2) ctx0 "x" "s5"
  = Some (EmptyString, Some "GetPlan: rpc error: deadline exceeded")
  /\ audit_types (snd (run plan_fails (planner 2) ctx0 "x" "s5"))
     = ["PLAN_START"; "PLAN_ERROR"].
Proof. split; vm_compute; reflexivity. Qed.

(** A session id holding a line feed gives an address that does not
    parse: the request of [fetchSessionHistory] is nil and [AgentLoop]
    panics on its first turn, after [PLAN_START] and [STARTED]. *)
Example session_id_with_line_feed_panics :
  urls_parse answer_at_once (planner 3) ("s1" ++ nl) = false
  /\ panics answer_at_once (planner 3) ctx0 "hello" ("s1" ++ nl)
  /\ AgentLoop answer_at_once (planner 3) ctx0 "hello" ("s1" ++ nl) = None
  /\ audit_types (snd (run answer_at_once (planner 3) ctx0 "hello" ("s1" ++ nl)))
     = ["PLAN_START"].
Proof. repeat split; vm_compute; reflexivity. Qed.

End PlannerFacts.

(* ------------------------------------------------------------------ *)
(** ** More on a run of [AgentLoop] *)

Module WireFacts.
Import GoUTF8 GoJSON Planner Shapes ByteFacts JSONFacts GatewayFacts.

(** The text of an object with four string members is read back as
    that object. *)
Lemma members4_roundtrip k1 v1 k2 v2 k3 v3 k4 v4 :
  parse ("{" ++ (appendString k1 ++ ":" ++ (marshal_value (PString v1)
         ++ "," ++ (appendString k2 ++ ":" ++ (marshal_value (PString v2)
         ++ "," ++ (appendString k3 ++ ":" ++ (marshal_value (PString v3)
         ++ "," ++ (appendString k4 ++ ":"
                    ++ (marshal_value (PString v4) ++ "}")))))))))
  = Some (JObject [(coerce k1, JString (coerce v1)); (coerce k2, JString (coerce v2));
                   (coerce k3, JString (coerce v3)); (coerce k4, JString (coerce v4))]).
Proof.
  unfold parse.
  match goal with |- context [S (String.length ?t)] => set (text := t) end.
  assert (HL : (10 <= String.length text)%nat).
  { subst text. cbn [marshal_value]. rewrite !length_append.
    pose proof (length_appendString k1). pose proof (length_appendString v1).
    pose proof (length_appendString k2). pose proof (length_appendString v2).
    pose proof (length_appendString k3). pose proof (length_appendString v3).
    pose proof (length_appendString k4). pose proof (length_appendString v4).
    simpl String.length. lia. }
  destruct (String.length text) as [|[|[|[|[|[|[|[|[|L]]]]]]]]]; try lia.
  subst text.
  change ("{" ++ ?x) with (String "{" x).
  rewrite (appendString_head k1).
  rewrite parse_value_object by (unfold maxNestingDepth; lia).
  rewrite <- (appendString_head k1).
  rewrite member_roundtrip. cbn [marshal_value]. rewrite string_roundtrip.
  do 3 (change ("," ++ ?x) with (String "," x); cbn [skip_ws];
        change (is_ws ",") with false; cbv iota;
        change (byte "," =? 44) with true; cbv iota;
        rewrite member_roundtrip; rewrite string_roundtrip).
  change ("}" ++ EmptyString) with (String "}" EmptyString). cbn [skip_ws].
  change (is_ws "}") with false. cbv iota.
  change (byte "}" =? 44) with false. change (byte "}" =? 125) with true. cbv iota.
  reflexivity.
Qed.

(** A notification names its trace and its session on the wire. *)
Lemma notification_wire traceID sessionID body ts :
  names_on_wire traceID sessionID
                {| n_trace_id := traceID; n_session_id := sessionID;
                   n_body := body; n_timestamp := ts |}.
Proof.
  unfold names_on_wire, notification_json, Marshal. cbn [n_trace_id n_session_id n_body n_timestamp].
  destruct body as [status|result].
  - change (sort_keys _) with
      [("session_id", PString sessionID); ("status", PString status);
       ("timestamp", PString ts); ("trace_id", PString traceID)].
    cbn [marshal_members]. rewrite !append_assoc.
    eexists. split; [apply members4_roundtrip|]. split; reflexivity.
  - change (sort_keys _) with
      [("result", PString result); ("session_id", PString sessionID);
       ("timestamp", PString ts); ("trace_id", PString traceID)].
    cbn [marshal_members]. rewrite !append_assoc.
    eexists. split; [apply members4_roundtrip|]. split; reflexivity.
Qed.

End WireFacts.

Module ShapeFacts.
Import GoJSON Planner Observe Shapes ByteFacts PlannerFacts WireFacts.

Section Projections.

Lemma history_requests_app a b :
  history_requests (a ++ b) = (history_requests a ++ history_requests b)%list.
Proof. apply flat_map_app. Qed.
Lemma rag_requests_app a b :
  rag_requests (a ++ b) = (rag_requests a ++ rag_requests b)%list.
Proof. apply flat_map_app. Qed.
Lemma tool_requests_app a b :
  tool_requests (a ++ b) = (tool_requests a ++ tool_requests b)%list.
Proof. apply flat_map_app. Qed.

End Projections.

#[local] Hint Rewrite audit_types_app published_app session_deltas_app
  playbook_posts_app plan_replies_app plan_requests_app
  history_requests_app rag_requests_app tool_requests_app : obs.

Ltac loop_induction H :=
  induction H as [turn n st tr Hgt
                 |turn n st tr res err st' evs Hle Hc
                 |turn n st tr st' evs o evs' Hle Hc Hr IH].

Section Loop.
Variable env : Env.
Variable p : PlannerT.
Variable ctx : Context.
Variable sessionID basePrompt : string.

(** The audit events of the loop, turn by turn. *)
Lemma loop_audit_turns maxTurns turn n st tr o evs :
  loop_run env p ctx sessionID basePrompt maxTurns turn n st tr o evs ->
  exists turns,
    audit_types evs
    = (if auditDB p then (flat_map step_audit turns ++ closing_audit o)%list else [])
    /\ (List.length turns + n)%nat = steps_taken o.
Proof.
  intros H. loop_induction H.
  - exists []. split; [now destruct (auditDB p)|reflexivity].
  - exists []. split; [|reflexivity].
    inv_turn Hc; obs_events; autorewrite with obs; unfold closing_audit; simpl;
      case_ifs; reflexivity.
  - destruct IH as (turns & IH & Hn).
    assert (Hstep : exists ok,
               audit_types evs = if auditDB p then step_audit ok else []).
    { inv_turn Hc; obs_dispatch; obs_events; autorewrite with obs;
        [exists false|exists false|exists true|exists true];
        destruct (auditDB p); reflexivity. }
    destruct Hstep as (ok & Hstep). exists (ok :: turns). split.
    + autorewrite with obs. rewrite Hstep, IH.
      destruct (auditDB p); [|reflexivity].
      cbn [flat_map]. now rewrite <- app_assoc.
    + simpl. lia.
Qed.

(** One history request, one retrieval request and one plan request
    per turn. *)
Lemma loop_requests maxTurns turn n st tr o evs :
  loop_run env p ctx sessionID basePrompt maxTurns turn n st tr o evs ->
  (List.length (history_requests evs) + n)%nat = iterations o
  /\ (List.length (rag_requests evs) + n)%nat = iterations o
  /\ (List.length (plan_requests evs) + n)%nat = iterations o
  /\ (List.length (tool_requests evs) + n <= steps_taken o)%nat.
Proof.
  intros H. loop_induction H.
  - simpl. unfold steps_taken. simpl. lia.
  - unfold steps_taken. simpl.
    inv_turn Hc; obs_events; autorewrite with obs; simpl; case_ifs;
      repeat split; lia.
  - destruct IH as (I1 & I2 & I3 & I4).
    assert (Hone : List.length (history_requests evs) = 1%nat
                   /\ List.length (rag_requests evs) = 1%nat
                   /\ List.length (plan_requests evs) = 1%nat
                   /\ (List.length (tool_requests evs) <= 1)%nat).
    { inv_turn Hc; obs_dispatch; obs_events; autorewrite with obs;
        destruct (auditDB p); simpl; repeat split; lia. }
    destruct Hone as (H1 & H2 & H3 & H4).
    autorewrite with obs. rewrite !length_app, H1, H2, H3. repeat split; lia.
Qed.

Lemma asked_app a b : asked (a ++ b) = (asked a ++ asked b)%list.
Proof. apply flat_map_app. Qed.

(** Every turn asks for the history, the context and the plan, once
    each and in this order. *)
Lemma loop_asked maxTurns turn n st tr o evs :
  loop_run env p ctx sessionID basePrompt maxTurns turn n st tr o evs ->
  exists k, asked evs = asked_in_turns k /\ (k + n)%nat = iterations o.
Proof.
  intros H. loop_induction H.
  - exists O. split; reflexivity.
  - exists 1%nat. simpl. split; [|reflexivity].
    inv_turn Hc; obs_events; rewrite ?asked_app; simpl; case_ifs; reflexivity.
  - destruct IH as (k & IH & Hk). exists (S k). split; [|simpl; lia].
    rewrite asked_app, IH.
    assert (Hone : asked evs = [AskHistory; AskContext; AskPlan]).
    { inv_turn Hc; obs_dispatch; obs_events; rewrite ?asked_app; simpl;
        case_ifs; reflexivity. }
    rewrite Hone. reflexivity.
Qed.

(** The loop body is entered at most [maxTurns - turn + 1] times. *)
Lemma loop_iterations_bound maxTurns turn n st tr o evs :
  loop_run env p ctx sessionID basePrompt maxTurns turn n st tr o evs ->
  maxTurns < max_int -> 1 <= turn <= maxTurns + 1 ->
  Z.of_nat n <= Z.of_nat (iterations o) <= Z.of_nat n + (maxTurns - turn + 1)
  /\ (exhausted o = true -> Z.of_nat (iterations o) = Z.of_nat n + (maxTurns - turn + 1))
  /\ (turn <= maxTurns -> (n < iterations o)%nat).
Proof.
  intros H. loop_induction H; intros Hmax Hturn; simpl.
  - repeat split; try lia.
  - repeat split; try lia; discriminate.
  - assert (Hw : wrap64 (turn + 1) = turn + 1).
    { unfold wrap64, max_int in *. rewrite Z.mod_small; lia. }
    rewrite Hw in IH. destruct IH as (I1 & I2 & I3); [assumption|lia|].
    repeat split; try lia. intros Hex. specialize (I2 Hex). lia.
Qed.

(** The deltas stored and the playbook built by the loop mirror each
    other: two of each for every successful tool turn, one of each on
    the completion path. *)
Lemma loop_steps maxTurns turn n st tr o evs :
  loop_run env p ctx sessionID basePrompt maxTurns turn n st tr o evs ->
  exists steps,
    session_deltas evs = (flat_map step_deltas steps ++ final_delta o)%list
    /\ playbookSeq (final o)
       = (playbookSeq st ++ flat_map step_entries steps ++ final_entry o)%list
    /\ hadToolStep (final o) = hadToolStep st || negb (List.length steps =? 0)%nat
    /\ (List.length steps <= List.length (tool_requests evs))%nat.
Proof.
  intros H. loop_induction H.
  - exists []. simpl. rewrite app_nil_r, orb_false_r. auto.
  - exists []. unfold final_delta, final_entry, finalized.
    inv_turn Hc; obs_events; autorewrite with obs; simpl;
      rewrite ?app_nil_r, ?orb_false_r; case_ifs; repeat split; auto; lia.
  - destruct IH as (steps & I1 & I2 & I3 & I4).
    inv_turn Hc; cbn [playbookSeq hadToolStep] in *.
    + exists steps. obs_dispatch; obs_events; autorewrite with obs; rewrite I1;
        destruct (auditDB p); simpl; repeat split; auto; lia.
    + match goal with
      | H : tool_dispatch _ _ _ _ _ _ (inr ?out) |- _ =>
        exists ((plan, out) :: steps); inversion H; subst; clear H
      end.
      obs_events; autorewrite with obs; rewrite I1, I2, I3.
      destruct (auditDB p); simpl; rewrite <- ?app_assoc, ?orb_true_r;
        repeat split; auto; lia.
Qed.

(** Every call of the loop is made for the request at hand. *)
Lemma loop_carries maxTurns turn n st tr o evs :
  loop_run env p ctx sessionID basePrompt maxTurns turn n st tr o evs ->
  Forall (carries ctx sessionID) evs.
Proof.
  intros H. loop_induction H.
  - constructor.
  - inv_turn Hc; obs_events; case_ifs;
      repeat first [apply Forall_app; split | apply Forall_cons | apply Forall_nil];
      simpl; auto using notification_wire.
  - apply Forall_app. split; [|exact IH].
    inv_turn Hc; obs_dispatch; obs_events; case_ifs;
      repeat first [apply Forall_app; split | apply Forall_cons | apply Forall_nil];
      simpl; auto using notification_wire.
Qed.

(** What the loop returns: the last plan on the completion path. *)
Lemma loop_result maxTurns turn n st tr o evs :
  loop_run env p ctx sessionID basePrompt maxTurns turn n st tr o evs ->
  (exhausted o = true -> result o = sentinel /\ error o = None)
  /\ (error o <> None -> result o = EmptyString)
  /\ (finalized o = true ->
      tryParseToolCall (result o) = None
      /\ exists pre, plan_replies evs = (pre ++ [inr (result o)])%list).
Proof.
  intros H. loop_induction H.
  - unfold finalized. simpl. split; [auto|]. split; [congruence|discriminate].
  - unfold finalized. inv_turn Hc; simpl.
    + split; [discriminate|]. split; [auto|discriminate].
    + split; [discriminate|]. split; [congruence|]. intros _. split; [assumption|].
      exists []. obs_events; autorewrite with obs; case_ifs; reflexivity.
  - destruct IH as (I1 & I2 & I3). split; [exact I1|]. split; [exact I2|].
    intros Hfin. destruct (I3 Hfin) as (Hno & pre & Hpre). split; [exact Hno|].
    exists (plan_replies evs ++ pre)%list. autorewrite with obs.
    now rewrite Hpre, app_assoc.
Qed.

(** Without a tool client the tool service is never called. *)
Lemma loop_no_client maxTurns turn n st tr o evs :
  toolClient p = false ->
  loop_run env p ctx sessionID basePrompt maxTurns turn n st tr o evs ->
  tool_requests evs = [].
Proof.
  intros Hnil H. loop_induction H.
  - reflexivity.
  - inv_turn Hc; obs_events; autorewrite with obs; case_ifs; reflexivity.
  - autorewrite with obs. rewrite IH.
    inv_turn Hc;
      match goal with
      | H : tool_dispatch _ _ _ _ _ _ _ |- _ => inversion H; subst; clear H
      end; try congruence;
      obs_events; autorewrite with obs; case_ifs; reflexivity.
Qed.

End Loop.

Section Runs.
Variable env : Env.
Variable p : PlannerT.
Variable ctx : Context.
Variable prompt0 sessionID : string.

Lemma opening_calls a ts e :
  let op := opening p (injectTraceIDToOutgoingGRPC ctx) sessionID prompt0 a ts e in
  history_requests op = [] /\ rag_requests op = [] /\ tool_requests op = []
  /\ Forall (carries (injectTraceIDToOutgoingGRPC ctx) sessionID) op.
Proof.
  obs_events. autorewrite with obs. case_ifs; repeat split; auto;
    repeat (apply Forall_cons; [simpl; auto using notification_wire|]); apply Forall_nil.
Qed.

Lemma effective_max_turns_range :
  MaxTurns (cfg p) < max_int ->
  1 <= effective_max_turns p < max_int.
Proof.
  unfold effective_max_turns, max_int.
  destruct (Z.leb_spec (MaxTurns (cfg p)) 0); lia.
Qed.

Lemma step_audit_steps turns : Forall is_step (flat_map step_audit turns).
Proof.
  induction turns as [|ok turns IH]; [constructor|].
  cbn [flat_map step_audit app].
  repeat (constructor; [unfold is_step; destruct ok; auto|]). exact IH.
Qed.

Lemma step_audit_last turns :
  turns <> [] ->
  exists before last,
    flat_map step_audit turns = (before ++ [last])%list
    /\ (last = "TOOL_RESULT" \/ last = "TOOL_ERROR").
Proof.
  intros Hne. destruct (exists_last Hne) as (turns' & ok & ->).
  rewrite flat_map_app. cbn [flat_map step_audit]. rewrite app_nil_r.
  exists (flat_map step_audit turns' ++ ["PLAN_MODEL_RESPONSE"; "TOOL_CALL"])%list,
    (if ok then "TOOL_RESULT" else "TOOL_ERROR").
  split; [now rewrite <- app_assoc|]. destruct ok; auto.
Qed.


(** X1: the audit stream of a run, turn by turn: [PLAN_START], then for
    every turn that goes on [PLAN_MODEL_RESPONSE], [TOOL_CALL] and one
    of [TOOL_RESULT] and [TOOL_ERROR], then for the turn that returns
    [PLAN_MODEL_RESPONSE] and [PLAN_END], or [PLAN_ERROR] alone, and
    nothing when the budget runs out. *)
Theorem audit_stream_by_turns :
  urls_parse env p sessionID = true ->
  MaxTurns (cfg p) < max_int ->
  exists o tr turns,
    run env p ctx prompt0 sessionID = (Some o, tr)
    /\ List.length turns = steps_taken o
    /\ audit_types tr
       = if auditDB p
         then ("PLAN_START" :: flat_map step_audit turns ++ closing_audit o)%list
         else [].
Proof.
  intros Hurls Hmax.
  destruct (run_shape env p ctx prompt0 sessionID Hurls Hmax)
    as (o & tr & a & ts & e & evs & Hrun & -> & Hloop).
  destruct (loop_audit_turns _ _ _ _ _ _ _ _ _ _ _ _ Hloop) as (turns & Haud & Hn).
  exists o, (opening p (injectTraceIDToOutgoingGRPC ctx) sessionID prompt0 a ts e ++ evs)%list,
    turns.
  split; [exact Hrun|]. split; [lia|].
  autorewrite with obs. rewrite opening_audit, Haud.
  destruct (auditDB p); reflexivity.
Qed.





(** X6: what [AgentLoop] returns is the sentinel when the budget ran
    out, the empty string beside an error, and otherwise the text of
    the last plan the gateway returned, unchanged, which is not a tool
    call. *)
Theorem result_is_the_last_plan :
  urls_parse env p sessionID = true ->
  MaxTurns (cfg p) < max_int ->
  exists o tr,
    run env p ctx prompt0 sessionID = (Some o, tr)
    /\ AgentLoop env p ctx prompt0 sessionID = Some (result o, error o)
    /\ (exhausted o = true -> result o = sentinel /\ error o = None)
    /\ (error o <> None -> result o = EmptyString)
    /\ (finalized o = true ->
        tryParseToolCall (result o) = None
        /\ exists pre, plan_replies tr = (pre ++ [inr (result o)])%list).
Proof.
  intros Hurls Hmax.
  destruct (run_shape env p ctx prompt0 sessionID Hurls Hmax)
    as (o & tr & a & ts & e & evs & Hrun & -> & Hloop).
  destruct (loop_result _ _ _ _ _ _ _ _ _ _ _ _ Hloop) as (R1 & R2 & R3).
  exists o, (opening p (injectTraceIDToOutgoingGRPC ctx) sessionID prompt0 a ts e ++ evs)%list.
  split; [exact Hrun|]. split; [unfold AgentLoop; now rewrite Hrun|].
  split; [exact R1|]. split; [exact R2|].
  intros Hfin. destruct (R3 Hfin) as (Hno & pre & Hpre). split; [exact Hno|].
  exists pre. autorewrite with obs.
  destruct (opening_quiet p ctx prompt0 sessionID a ts e) as (_ & _ & -> & _). exact Hpre.
Qed.


(** X8: when [url.Parse] accepts the two addresses the planner posts
    to, [AgentLoop] panics exactly when [url.Parse] rejects the address
    of the history request, which ends in the session id: the request
    is then nil, and the run ends in its first turn, after
    [PLAN_START] and [STARTED], before any other call. *)
Theorem panics_iff_history_address_unparsable :
  url_Parse_ok env (memory_url p "/memory/store") = true ->
  url_Parse_ok env (memory_url p "/memory/playbook") = true ->
  MaxTurns (cfg p) < max_int ->
  (panics env p ctx prompt0 sessionID
   <-> url_Parse_ok env (memory_url p "/memory/latest?session_id=" ++ sessionID) = false)
  /\ (panics env p ctx prompt0 sessionID ->
      AgentLoop env p ctx prompt0 sessionID = None
      /\ exists a ts e,
          snd (run env p ctx prompt0 sessionID)
          = opening p (injectTraceIDToOutgoingGRPC ctx) sessionID prompt0 a ts e).
Proof.
  intros Hstore Hplaybook Hmax.
  assert (Hback : url_Parse_ok env (memory_url p "/memory/latest?session_id=" ++ sessionID)
                  = false ->
                  exists a ts e,
                    AgentLoop_run env p (enough_fuel p) ctx prompt0 sessionID []
                    = (None, opening p (injectTraceIDToOutgoingGRPC ctx)
                                     sessionID prompt0 a ts e)).
  { intros Hbad.
    pose proof (effective_max_turns_range Hmax) as Heff.
    unfold enough_fuel.
    destruct (Z.to_nat (effective_max_turns p)) as [|f] eqn:Hf; [lia|].
    unfold AgentLoop_run, opening, audit_ev, publish_ev, RecordStep, PublishStatus,
      publish, bind, call, ret.
    cbn [loop].
    destruct (Z.leb_spec 1 (effective_max_turns p)); [|lia].
    unfold turn_body, fetchSessionHistory, http, bind, request_url, panic.
    rewrite Hbad.
    destruct (auditDB p), (redis p); cbn [negb app];
      first [ exists None, EmptyString, None; reflexivity
            | eexists _, EmptyString, None; reflexivity
            | eexists None, _, _; reflexivity
            | eexists _, _, _; reflexivity ]. }
  assert (Hfwd : panics env p ctx prompt0 sessionID ->
                 url_Parse_ok env (memory_url p "/memory/latest?session_id=" ++ sessionID)
                 = false).
  { intros Hp.
    destruct (url_Parse_ok env (memory_url p "/memory/latest?session_id=" ++ sessionID))
      eqn:Hlatest; [exfalso|reflexivity].
    assert (Hurls : urls_parse env p sessionID = true).
    { unfold urls_parse. now rewrite Hlatest, Hstore, Hplaybook. }
    destruct (run_shape env p ctx prompt0 sessionID Hurls Hmax)
      as (o & tr & _ & _ & _ & _ & Hrun & _).
    unfold panics in Hp. unfold run in Hrun.
    destruct (AgentLoop_run env p (enough_fuel p) ctx prompt0 sessionID [])
      as [[[o'|]|] tr']; simpl in Hp; congruence. }
  split; [split; [exact Hfwd|]|].
  - intros Hbad. destruct (Hback Hbad) as (a & ts & e & Hrun).
    unfold panics. now rewrite Hrun.
  - intros Hp. destruct (Hback (Hfwd Hp)) as (a & ts & e & Hrun).
    unfold AgentLoop, run. rewrite Hrun. split; [reflexivity|].
    exists a, ts, e. reflexivity.
Qed.

End Runs.

(* ---------------------------------------------------------------- *)
(** *** The theorems at concrete inputs *)

Import GoUTF8 GoStrings GoJSON Planner Observe Scenarios Shapes Deployments PlannerFacts.

(** A base address with a space in its host is rejected by
    [url.Parse] whatever the session id: every request of such a
    planner panics on its first turn. *)
Example malformed_base_address_panics :
  urls_parse answer_at_once (planner_at "http://a b") "s1" = false
  /\ panics answer_at_once (planner_at "http://a b") ctx0 "hello" "s1"
  /\ AgentLoop answer_at_once (planner_at "http://a b") ctx0 "hello" "s1" = None
  /\ audit_types (snd (run answer_at_once (planner_at "http://a b") ctx0 "hello" "s1"))
     = ["PLAN_START"].
Proof. repeat split; vm_compute; reflexivity. Qed.


Lemma audit_stream_by_turns_witness :
  exists (o : Outcome) (tr : list Event) (turns : list bool),
  run tool_fails_then_answer (planner 3) ctx0 "x" "s1" = (Some o, tr) /\
  Datatypes.length turns = steps_taken o /\
  audit_types tr =
  (if auditDB (planner 3)
   then "PLAN_START" :: flat_map step_audit turns ++ closing_audit o
   else []).
Proof.
  apply (audit_stream_by_turns tool_fails_then_answer (planner 3) ctx0 "x" "s1").
  - reflexivity.
  - vm_compute; reflexivity.
Defined.





Lemma result_is_the_last_plan_witness :
  exists (o : Outcome) (tr : list Event),
  run answer_at_once (planner 3) ctx0 "x" "s1" = (Some o, tr) /\
  AgentLoop answer_at_once (planner 3) ctx0 "x" "s1" = Some (result o, error o) /\
  (exhausted o = true -> result o = sentinel /\ error o = None) /\
  (error o <> None -> result o = EmptyString) /\
  (finalized o = true ->
   tryParseToolCall (result o) = None /\
   exists pre : list (string + string), plan_replies tr = (pre ++ [inr (result o)])%list).
Proof.
  apply (result_is_the_last_plan answer_at_once (planner 3) ctx0 "x" "s1").
  - reflexivity.
  - vm_compute; reflexivity.
Defined.


Lemma panics_iff_history_address_unparsable_witness :
  (panics answer_at_once (planner 3) ctx0 "x" "s1" <->
   url_Parse_ok answer_at_once (memory_url (planner 3) "/memory/latest?session_id=" ++ "s1") = false) /\
  (panics answer_at_once (planner 3) ctx0 "x" "s1" ->
   AgentLoop answer_at_once (planner 3) ctx0 "x" "s1" = None /\
   exists (a : option string) (ts : string) (e : option string),
   snd (run answer_at_once (planner 3) ctx0 "x" "s1") =
   opening (planner 3) (injectTraceIDToOutgoingGRPC ctx0) "s1" "x" a ts e).
Proof.
  apply (panics_iff_history_address_unparsable answer_at_once (planner 3) ctx0 "x" "s1").
  - reflexivity.
  - reflexivity.
  - vm_compute; reflexivity.
Defined.

End ShapeFacts.

(* ------------------------------------------------------------------ *)
(** ** The planner in front of the gateway of the repository *)

Module CompositionFacts.
Import GoJSON Planner Observe Shapes ByteFacts JSONFacts GatewayFacts PlannerFacts
       ShapeFacts.

#[local] Hint Rewrite audit_types_app published_app session_deltas_app
  playbook_posts_app plan_replies_app plan_requests_app
  history_requests_app rag_requests_app tool_requests_app : obs.

Lemma strings_fit l :
  forallb numbers_fit (map (fun s => JString (coerce s)) l) = true.
Proof. induction l; simpl; auto. Qed.

(** The plan string the gateway builds has no [tool] member. *)
Lemma plan_of_content_no_tool provider prompt content :
  tryParseToolCall (Gateway.plan_of_content provider prompt content) = None.
Proof.
  destruct (plan_of_content_steps provider prompt content) as (-> & Hne).
  unfold tryParseToolCall, Unmarshal_map.
  rewrite payload_roundtrip by exact Hne.
  cbn [numbers_fit forallb snd]. rewrite strings_fit. reflexivity.
Qed.

(** X9: a plan returned by the gateway's [GetPlan] is never read as a
    tool call by the planner's [tryParseToolCall]: the plan is an
    object with the members [model_type], [prompt] and [steps] and no
    member [tool], whatever the model answered. *)
Theorem gateway_plan_is_never_a_tool_call s CreateChatCompletion prompt resp :
  Gateway.GetPlan s CreateChatCompletion prompt = inr resp ->
  tryParseToolCall (Gateway.Plan resp) = None.
Proof.
  unfold Gateway.GetPlan. intros H.
  destruct (Gateway.llm s) as [rt|]; [|discriminate].
  destruct (negb (Gateway.Client rt)); [discriminate|].
  destruct (CreateChatCompletion _) as [err|choices]; [discriminate|].
  inversion H; subst; clear H. cbn [Gateway.Plan].
  apply plan_of_content_no_tool.
Qed.

Section Turns.
Variable env : Env.
Variable p : PlannerT.
Variable ctx : Context.
Variable prompt0 sessionID : string.
Variable s : Gateway.server.
Variable completion : list Event -> Gateway.ChatCompletionRequest -> string + list string.

Hypothesis Hgw : gateway_backed env s completion.

Lemma gateway_reply tr md input plan :
  model_GetPlan env tr md input = inr plan -> tryParseToolCall plan = None.
Proof.
  rewrite Hgw.
  destruct (Gateway.GetPlan s (completion tr) input) as [err|resp] eqn:E; [discriminate|].
  intros H; inversion H; subst.
  unfold Gateway.GetPlan in E.
  destruct (Gateway.llm s) as [rt|]; [|discriminate].
  destruct (negb (Gateway.Client rt)); [discriminate|].
  destruct (completion tr _) as [err|choices]; [discriminate|].
  inversion E; subst; clear E. cbn [Gateway.Plan].
  apply plan_of_content_no_tool.
Qed.

Lemma gateway_turn st tr r evs :
  turn_case env p ctx sessionID prompt0 st tr r evs ->
  exists res err st', r = Return res err st' /\ tool_requests evs = []
                      /\ st' = match err with
                               | None => {| prompt := prompt st;
                                            playbookSeq := (playbookSeq st
                                                            ++ [("assistant", res)])%list;
                                            hadToolStep := hadToolStep st |}
                               | Some _ => st
                               end.
Proof.
  intros Hc. inv_turn Hc.
  - eexists _, _, _. split; [reflexivity|]. split; [|reflexivity].
    obs_events; autorewrite with obs; case_ifs; reflexivity.
  - eexists _, _, _. split; [reflexivity|]. split; [|reflexivity].
    obs_events; autorewrite with obs; case_ifs; reflexivity.
  - match goal with H : model_GetPlan _ _ _ _ = inr _ |- _ =>
                    apply gateway_reply in H end. congruence.
  - match goal with H : model_GetPlan _ _ _ _ = inr _ |- _ =>
                    apply gateway_reply in H end. congruence.
Qed.

End Turns.


(* ---------------------------------------------------------------- *)
(** *** The theorems at concrete inputs *)

Import GoUTF8 GoStrings GoJSON Planner Observe Scenarios Shapes Deployments PlannerFacts
       ShapeFacts.


Lemma gateway_plan_is_never_a_tool_call_witness :
  exists resp,
    Gateway.GetPlan server0 model0 "hello" = inr resp
    /\ tryParseToolCall (Gateway.Plan resp) = None.
Proof.
  eexists. split; [reflexivity|].
  apply (gateway_plan_is_never_a_tool_call server0 model0 "hello").
  reflexivity.
Defined.

End CompositionFacts.

(* ------------------------------------------------------------------ *)
(** ** strconv: what [Atoi] accepts *)

Module StrconvFacts.
Import GoJSON GoStrconv ByteFacts.

Lemma digit_cases c :
  (48 <=? byte c) && (byte c <=? 57) = true
  /\ (byte c - 48) mod 256 = byte c - 48 /\ 0 <= byte c - 48 <= 9
  \/ (48 <=? byte c) && (byte c <=? 57) = false /\ 9 < (byte c - 48) mod 256.
Proof.
  pose proof (byte_range c) as Hr.
  destruct (Z.leb_spec 48 (byte c)); destruct (Z.leb_spec (byte c) 57); cbn [andb].
  - left. split; [reflexivity|]. rewrite Z.mod_small by lia. lia.
  - right. split; [reflexivity|]. rewrite Z.mod_small by lia. lia.
  - right. split; [reflexivity|].
    replace (byte c - 48) with (byte c + 208 + (-1) * 256) by lia.
    rewrite Z.mod_add by lia. rewrite Z.mod_small by lia. lia.
  - lia.
Qed.

Lemma atoi_loop_digits s : forall n,
  atoi_loop n s = if all_digits s then Some (digits_value n s) else None.
Proof.
  induction s as [|c s IH]; intros n; cbn [atoi_loop all_digits digits_value].
  - reflexivity.
  - destruct (digit_cases c) as [(Hd & Hm & Hr)|(Hd & Hm)]; rewrite Hd; cbn [andb].
    + rewrite Hm. destruct (Z.ltb_spec 9 (byte c - 48)); [lia|]. apply IH.
    + destruct (Z.ltb_spec 9 ((byte c - 48) mod 256)); [reflexivity|lia].
Qed.

Lemma digits_value_bounds s : forall n,
  0 <= n -> all_digits s = true ->
  n * 10 ^ Z.of_nat (String.length s) <= digits_value n s
  < (n + 1) * 10 ^ Z.of_nat (String.length s).
Proof.
  induction s as [|c s IH]; intros n Hn Hd; cbn [all_digits digits_value String.length] in *.
  - simpl. lia.
  - apply andb_true_iff in Hd. destruct Hd as (Hc & Hd).
    apply andb_true_iff in Hc. rewrite !Z.leb_le in Hc.
    specialize (IH (n * 10 + (byte c - 48)) ltac:(lia) Hd).
    rewrite Nat2Z.inj_succ, Z.pow_succ_r by lia.
    nia.
Qed.

(** The loop of [ParseUint] gives a value exactly on a digit string
    whose value fits [uint64]. *)
Lemma parse_uint_loop_spec s : forall n v,
  0 <= n <= maxUint64 ->
  (parse_uint_loop n s = inr v
   <-> all_digits s = true /\ v = digits_value n s /\ v <= maxUint64).
Proof.
  induction s as [|c s IH]; intros n v Hn;
    cbn [parse_uint_loop all_digits digits_value]; unfold maxUint64 in *.
  - split.
    + intros H; inversion H; subst. repeat split; lia.
    + intros (_ & -> & _). reflexivity.
  - destruct ((48 <=? byte c) && (byte c <=? 57)) eqn:Hd; cbn [andb].
    2:{ split; [discriminate|]. intros (H & _). discriminate. }
    apply andb_true_iff in Hd. rewrite !Z.leb_le in Hd.
    destruct (Z.leb_spec ((2 ^ 64 - 1) / 10 + 1) n) as [Hcut|Hcut].
    { split; [discriminate|]. intros (Hall & -> & Hle). exfalso.
      pose proof (digits_value_bounds s (n * 10 + (byte c - 48)) ltac:(lia) Hall) as Hb.
      assert (1 <= 10 ^ Z.of_nat (String.length s)) by (apply Z.pow_le_mono_r with (b := 0); lia).
      change ((2 ^ 64 - 1) / 10 + 1) with 1844674407370955162 in Hcut.
      change (2 ^ 64 - 1) with 18446744073709551615 in Hle. nia. }
    destruct (Z.ltb_spec (2 ^ 64 - 1) (n * 10 + (byte c - 48))) as [Hov|Hov].
    { split; [discriminate|]. intros (Hall & -> & Hle). exfalso.
      pose proof (digits_value_bounds s (n * 10 + (byte c - 48)) ltac:(lia) Hall) as Hb.
      assert (1 <= 10 ^ Z.of_nat (String.length s)) by (apply Z.pow_le_mono_r with (b := 0); lia).
      nia. }
    apply IH. lia.
Qed.

Lemma parse_uint_loop_syntax s : forall n,
  parse_uint_loop n s = inl ErrSyntax -> all_digits s = false.
Proof.
  induction s as [|c s IH]; intros n; cbn [parse_uint_loop all_digits].
  - discriminate.
  - destruct ((48 <=? byte c) && (byte c <=? 57)); cbn [andb]; [|reflexivity].
    destruct (_ <=? n); [discriminate|].
    destruct (_ <? _); [discriminate|]. apply IH.
Qed.

Lemma decimal_sign c rest :
  decimal (String c rest)
  = let signed := (byte c =? 45) || (byte c =? 43) in
    let ds := if signed then rest else String c rest in
    if (negb (String.eqb ds EmptyString)) && all_digits ds
    then Some (if byte c =? 45 then - digits_value 0 ds else digits_value 0 ds)
    else None.
Proof.
  cbn [decimal]. cbv zeta.
  destruct ((byte c =? 45) || (byte c =? 43)).
  - destruct rest; reflexivity.
  - reflexivity.
Qed.

(** [ParseInt] gives a value exactly on the text of a decimal integer
    that fits [int64]. *)
Lemma ParseInt_spec s v :
  ParseInt s = inr v <-> decimal s = Some v /\ - 2 ^ 63 <= v < 2 ^ 63.
Proof.
  destruct s as [|c rest]; [cbn; split; [discriminate|intros (H & _); discriminate]|].
  rewrite decimal_sign. cbv zeta. unfold ParseInt.
  rewrite (orb_comm (byte c =? 43)).
  set (ds := if (byte c =? 45) || (byte c =? 43) then rest else String c rest).
  assert (Hneg : (byte c =? 45) = true -> ds = rest).
  { intros H. subst ds. now rewrite H. }
  unfold ParseUint.
  destruct ds as [|d ds'] eqn:Hds.
  { cbn [String.eqb negb andb]. split; [discriminate|intros (H & _); discriminate]. }
  cbn [String.eqb negb andb]. rewrite <- Hds in *. clear Hds.
  pose proof (parse_uint_loop_spec ds 0) as Hspec.
  destruct (parse_uint_loop 0 ds) as [[|]|un] eqn:Hp.
  - apply parse_uint_loop_syntax in Hp. rewrite Hp.
    split; [discriminate|intros (H & _); discriminate].
  - (* a range error of the unsigned parse *)
    assert (Hbig : all_digits ds = true -> maxUint64 < digits_value 0 ds).
    { intros Hall. destruct (Z.ltb_spec maxUint64 (digits_value 0 ds)); [assumption|].
      exfalso. assert (Habs : inl ErrRange = inr (digits_value 0 ds)
                              :> NumError + Z).
      { apply (Hspec (digits_value 0 ds)); [unfold maxUint64; lia|].
        repeat split; auto. }
      discriminate. }
    unfold maxUint64 in *.
    destruct (byte c =? 45) eqn:Hc; cbn [negb andb].
    + change (2 ^ 63 <? 2 ^ 64 - 1) with true. cbv iota.
      split; [discriminate|]. intros (H & Hr). exfalso.
      destruct (all_digits ds) eqn:Hall; [|discriminate].
      inversion H; subst. specialize (Hbig eq_refl). lia.
    + change (2 ^ 63 <=? 2 ^ 64 - 1) with true. cbv iota.
      split; [discriminate|]. intros (H & Hr). exfalso.
      destruct (all_digits ds) eqn:Hall; [|discriminate].
      inversion H; subst. specialize (Hbig eq_refl). lia.
  - destruct (proj1 (Hspec un ltac:(unfold maxUint64; lia)) eq_refl) as (Hall & -> & Hle).
    rewrite Hall.
    pose proof (digits_value_bounds ds 0 ltac:(lia) Hall) as Hb.
    destruct (byte c =? 45) eqn:Hc; cbn [negb andb].
    + destruct (Z.ltb_spec (2 ^ 63) (digits_value 0 ds)) as [Hlt|Hge].
      * split; [discriminate|]. intros (E & Hr). inversion E; subst. lia.
      * split; intros E.
        -- inversion E; subst. split; [reflexivity|lia].
        -- destruct E as (E & _). inversion E; subst. reflexivity.
    + destruct (Z.leb_spec (2 ^ 63) (digits_value 0 ds)) as [Hge|Hlt].
      * split; [discriminate|]. intros (E & Hr). inversion E; subst. lia.
      * split; intros E.
        -- inversion E; subst. split; [reflexivity|lia].
        -- destruct E as (E & _). inversion E; subst. reflexivity.
Qed.

(** [Atoi], on both of its paths, gives a value exactly on the text of
    a decimal integer that fits [int]. *)
Lemma Atoi_spec s v :
  Atoi s = inr v <-> decimal s = Some v /\ - 2 ^ 63 <= v < 2 ^ 63.
Proof.
  unfold Atoi.
  destruct ((0 <? String.length s)%nat && (String.length s <? 19)%nat) eqn:Hfast;
    [|apply ParseInt_spec].
  apply andb_true_iff in Hfast. destruct Hfast as (H0 & H19).
  apply Nat.ltb_lt in H0, H19.
  destruct s as [|c rest]; [simpl in H0; lia|].
  rewrite decimal_sign. cbv zeta.
  set (ds := if (byte c =? 45) || (byte c =? 43) then rest else String c rest).
  assert (Hlen : (String.length ds <= 18)%nat).
  { subst ds. destruct ((byte c =? 45) || (byte c =? 43)); cbn [String.length] in *; lia. }
  rewrite atoi_loop_digits.
  destruct ds as [|d ds'] eqn:Hds.
  { assert (Hs : (byte c =? 45) || (byte c =? 43) = true).
    { subst ds. destruct ((byte c =? 45) || (byte c =? 43)); [reflexivity|discriminate]. }
    rewrite Hs. cbn. split; [discriminate|intros (H & _); discriminate]. }
  rewrite <- Hds in *.
  assert (Hne : (String.length ds <? 1)%nat = false /\ String.eqb ds EmptyString = false).
  { rewrite Hds. split; reflexivity. }
  destruct Hne as (Hn1 & Hn2). rewrite Hn1, Hn2, andb_false_r. cbn [negb andb].
  clear Hds.
  destruct (all_digits ds) eqn:Hall; [|split; [discriminate|intros (H & _); discriminate]].
  pose proof (digits_value_bounds ds 0 ltac:(lia) Hall) as Hb.
  assert (Hpow : 10 ^ Z.of_nat (String.length ds) <= 10 ^ 18).
  { apply Z.pow_le_mono_r; lia. }
  change (10 ^ 18) with 1000000000000000000 in Hpow.
  change (2 ^ 63) with 9223372036854775808.
  split; intros H.
  - inversion H; subst. split; [reflexivity|]. destruct (byte c =? 45); lia.
  - destruct H as (H & _). inversion H; subst. reflexivity.
Qed.

End StrconvFacts.

(* ------------------------------------------------------------------ *)
(** ** The configuration of the gateway *)

Module GatewayMainFacts.
Import GoStrings GoStringsMore GoStrconv Gateway GatewayMain ByteFacts StrconvFacts.

Lemma getEnvInt_decimal os_Getenv key fallback :
  getEnvInt os_Getenv key fallback
  = match decimal (os_Getenv key) with
    | Some n => if (0 <? n) && (n <? 2 ^ 63) then n else fallback
    | None => fallback
    end.
Proof.
  unfold getEnvInt.
  destruct (String.eqb_spec (os_Getenv key) EmptyString) as [->|Hne]; [reflexivity|].
  pose proof (Atoi_spec (os_Getenv key)) as Hspec.
  destruct (Atoi (os_Getenv key)) as [e|i].
  - destruct (decimal (os_Getenv key)) as [n|]; [|reflexivity].
    destruct (Z.ltb_spec 0 n); [|reflexivity].
    destruct (Z.ltb_spec n (2 ^ 63)); [|reflexivity]. exfalso.
    assert (Habs : inl e = inr n :> NumError + Z).
    { apply Hspec. split; [reflexivity|lia]. }
    discriminate.
  - destruct (proj1 (Hspec i) eq_refl) as (-> & Hr).
    destruct (Z.leb_spec i 0); destruct (Z.ltb_spec 0 i); try lia; cbn [andb];
      [reflexivity|].
    destruct (Z.ltb_spec i (2 ^ 63)); [reflexivity|lia].
Qed.

Lemma getEnvInt_positive os_Getenv key fallback :
  0 < fallback -> 0 < getEnvInt os_Getenv key fallback.
Proof.
  intros Hpos. rewrite getEnvInt_decimal.
  destruct (decimal (os_Getenv key)) as [n|]; [|exact Hpos].
  destruct (Z.ltb_spec 0 n); cbn [andb]; [|exact Hpos].
  destruct (n <? 2 ^ 63); [assumption|exact Hpos].
Qed.

(** X11: [getEnvInt] gives the value of the variable exactly when its
    text is a decimal integer (an optional sign, then digits and nothing
    else) that is positive and fits [int]; for every other text, and for
    a variable that is empty or not set, it gives the fallback.  A
    positive fallback therefore always gives a positive result. *)
Theorem getEnvInt_reads_positive_decimals os_Getenv key fallback :
  getEnvInt os_Getenv key fallback
  = match decimal (os_Getenv key) with
    | Some n => if (0 <? n) && (n <? 2 ^ 63) then n else fallback
    | None => fallback
    end
  /\ (0 < fallback -> 0 < getEnvInt os_Getenv key fallback).
Proof.
  split; [apply getEnvInt_decimal|apply getEnvInt_positive].
Qed.

(** X12: the port the gateway listens on is never 0: it is 50051 when
    [MODEL_GATEWAY_GRPC_PORT] is not set, is not the text of a decimal
    integer that fits [int], or is zero, and otherwise the value of the
    text as it stands, negative values and values above 65535
    included. *)
Theorem grpc_port_is_never_zero os_Getenv :
  grpc_port os_Getenv <> 0
  /\ grpc_port os_Getenv
     = match decimal (os_Getenv "MODEL_GATEWAY_GRPC_PORT") with
       | Some n => if (n =? 0) || (n <? - 2 ^ 63) || (2 ^ 63 <=? n)
                   then DEFAULT_GRPC_PORT else n
       | None => DEFAULT_GRPC_PORT
       end.
Proof.
  unfold grpc_port.
  pose proof (Atoi_spec (os_Getenv "MODEL_GATEWAY_GRPC_PORT")) as Hspec.
  destruct (Atoi (os_Getenv "MODEL_GATEWAY_GRPC_PORT")) as [e|port].
  - split; [unfold DEFAULT_GRPC_PORT; lia|].
    destruct (decimal (os_Getenv "MODEL_GATEWAY_GRPC_PORT")) as [n|]; [|reflexivity].
    destruct (Z.eqb_spec n 0); [reflexivity|].
    destruct (Z.ltb_spec n (- 2 ^ 63)); [reflexivity|].
    destruct (Z.leb_spec (2 ^ 63) n); [reflexivity|]. exfalso.
    assert (Habs : inl e = inr n :> NumError + Z).
    { apply Hspec. split; [reflexivity|lia]. }
    discriminate.
  - destruct (proj1 (Hspec port) eq_refl) as (-> & Hr).
    destruct (Z.eqb_spec port 0); cbn [orb].
    + split; [unfold DEFAULT_GRPC_PORT; lia|reflexivity].
    + split; [assumption|].
      destruct (Z.ltb_spec port (- 2 ^ 63)); [lia|].
      destruct (Z.leb_spec (2 ^ 63) port); [lia|]. reflexivity.
Qed.

(** X13: the number of seconds [main] reads for the request timeout
    is at least one, and the timeout is that many seconds, so at least
    one second, exactly when the number is at most 9223372036: beyond
    it the product with [time.Second] leaves [int64] and wraps, and
    from 9223372037 to 18446744073 seconds the timeout is negative.
    (With the variable not set it is five seconds.) *)
Theorem requestTimeout_exact_up_to_overflow os_Getenv :
  let sec := getEnvInt os_Getenv "REQUEST_TIMEOUT_SECONDS" defaultRequestTimeoutSec in
  1 <= sec
  /\ (requestTimeout os_Getenv = sec * 1000000000 <-> sec <= 9223372036)
  /\ (9223372037 <= sec <= 18446744073 ->
      requestTimeout os_Getenv = sec * 1000000000 - 2 ^ 64
      /\ requestTimeout os_Getenv < 0)
  /\ (os_Getenv "REQUEST_TIMEOUT_SECONDS" = EmptyString ->
      requestTimeout os_Getenv = 5000000000).
Proof.
  intros sec.
  assert (Hpos : 1 <= sec).
  { subst sec.
    pose proof (getEnvInt_positive os_Getenv "REQUEST_TIMEOUT_SECONDS"
                                   defaultRequestTimeoutSec) as H.
    unfold defaultRequestTimeoutSec in *. lia. }
  split; [exact Hpos|]. split.
  - unfold requestTimeout. fold sec. unfold Planner.wrap64.
    change (2 ^ 63) with 9223372036854775808.
    change (2 ^ 64) with 18446744073709551616.
    split; intros H.
    + destruct (Z.le_gt_cases sec 9223372036) as [|Hbig]; [assumption|exfalso].
      pose proof (Z.mod_pos_bound (sec * 1000000000 + 9223372036854775808)
                                  18446744073709551616 ltac:(lia)) as Hm.
      lia.
    + rewrite Z.mod_small by lia. lia.
  - split.
    + intros Hbig. unfold requestTimeout. fold sec. unfold Planner.wrap64.
      change (2 ^ 63) with 9223372036854775808.
      change (2 ^ 64) with 18446744073709551616.
      rewrite <- (Z.mod_unique_pos (sec * 1000000000 + 9223372036854775808)
                                   18446744073709551616 1
                                   (sec * 1000000000 + 9223372036854775808
                                    - 18446744073709551616)) by lia.
      lia.
    + intros Hunset. unfold requestTimeout, getEnvInt. rewrite Hunset. reflexivity.
Qed.

Lemma skipn_str_app s t : skipn_str (String.length s) (s ++ t) = t.
Proof. induction s; simpl; auto. Qed.

Lemma HasSuffix_app s suffix : HasSuffix (s ++ suffix) suffix = true.
Proof.
  unfold HasSuffix. rewrite length_append.
  replace (String.length s + String.length suffix - String.length suffix)%nat
    with (String.length s) by lia.
  rewrite skipn_str_app, String.eqb_refl, andb_true_r.
  apply Nat.leb_le. lia.
Qed.

Lemma HasSuffix_split s suffix :
  HasSuffix s suffix = true -> exists t, s = t ++ suffix.
Proof.
  unfold HasSuffix. intros H. apply andb_true_iff in H. destruct H as (_ & H).
  apply String.eqb_eq in H.
  exists (firstn_str (String.length s - String.length suffix) s).
  pose proof (firstn_skipn_str (String.length s - String.length suffix) s) as E.
  rewrite H in E. symmetry. exact E.
Qed.

Lemma TrimRightSlash_snoc s c :
  c <> "/"%char -> TrimRightSlash (s ++ String c EmptyString) = s ++ String c EmptyString.
Proof.
  intros Hc. induction s as [|a s IH]; cbn [append TrimRightSlash].
  - destruct (Ascii.eqb_spec c "/"); [contradiction|reflexivity].
  - rewrite IH. destruct s; reflexivity.
Qed.

Lemma TrimRightSlash_slash s : TrimRightSlash (s ++ "/") = TrimRightSlash s.
Proof.
  induction s as [|a s IH]; cbn [append TrimRightSlash]; [reflexivity|].
  now rewrite IH.
Qed.

Lemma TrimRightSlash_v1 s : TrimRightSlash (s ++ "/v1") = s ++ "/v1".
Proof.
  replace (s ++ "/v1") with ((s ++ "/v") ++ "1") by (now rewrite append_assoc).
  apply TrimRightSlash_snoc. discriminate.
Qed.

Lemma normalizeOllamaBaseURL_suffix base :
  HasSuffix (normalizeOllamaBaseURL base) "/v1" = true.
Proof.
  unfold normalizeOllamaBaseURL.
  destruct (HasSuffix (TrimRightSlash base) "/v1") eqn:Hs; [exact Hs|].
  apply HasSuffix_app.
Qed.

(** X14: [normalizeOllamaBaseURL] gives an address that ends in [/v1],
    and it is idempotent; trailing slashes of the base do not count,
    and [/v1] is only appended to a base that does not already end in
    it. *)
Theorem normalizeOllamaBaseURL_idempotent base :
  let r := normalizeOllamaBaseURL base in
  HasSuffix r "/v1" = true
  /\ normalizeOllamaBaseURL r = r
  /\ normalizeOllamaBaseURL (base ++ "/") = r
  /\ (r = TrimRightSlash base \/ r = TrimRightSlash base ++ "/v1").
Proof.
  intros r. subst r. unfold normalizeOllamaBaseURL.
  rewrite TrimRightSlash_slash.
  destruct (HasSuffix (TrimRightSlash base) "/v1") eqn:Hs.
  - destruct (HasSuffix_split _ _ Hs) as (t & Ht).
    rewrite Ht, TrimRightSlash_v1, HasSuffix_app. auto.
  - rewrite TrimRightSlash_v1, HasSuffix_app. auto.
Qed.

Lemma length_lower_bytes s : String.length (lower_bytes s) = String.length s.
Proof. induction s; simpl; congruence. Qed.

Lemma getEnv_nonempty os_Getenv key fallback :
  fallback <> EmptyString -> getEnv os_Getenv key fallback <> EmptyString.
Proof.
  intros Hf. unfold getEnv.
  destruct (String.eqb_spec (os_Getenv key) EmptyString); cbn [negb]; assumption.
Qed.

Section Init.
Variable lower_table : Z -> Z.
Variable fmt_q : string -> string.
Variable os_Getenv : Environ.

(** X15: for an ASCII value of [LLM_PROVIDER] ([openrouter] when the
    variable is empty or not set), compared without regard to case:
    [ollama] always gives a runtime, whose client has no key and an
    address ending in [/v1]; [openrouter] gives one exactly when
    [OPENROUTER_API_KEY] is not empty; any other value is an error.  A
    runtime always has a client. *)
Theorem initializeLLMClient_by_provider :
  let v := getEnv os_Getenv "LLM_PROVIDER" defaultProvider in
  isASCII v = true ->
  match initializeLLMClient lower_table fmt_q os_Getenv with
  | inr (rt, cc) =>
    Client rt = true
    /\ ((lower_bytes v = "ollama"
         /\ Provider rt = providerOllama
         /\ Model rt = getEnv os_Getenv "OLLAMA_MODEL_NAME" "llama3"
         /\ authToken cc = EmptyString
         /\ HasSuffix (BaseURL cc) "/v1" = true)
        \/ (lower_bytes v = "openrouter"
            /\ Provider rt = providerOpenRouter
            /\ Model rt = getEnv os_Getenv "OPENROUTER_MODEL_NAME"
                                 "mistralai/mistral-7b-instruct:free"
            /\ authToken cc = os_Getenv "OPENROUTER_API_KEY"
            /\ authToken cc <> EmptyString
            /\ BaseURL cc = "https://openrouter.ai/api/v1"))
  | inl err =>
    (lower_bytes v = "openrouter"
     /\ os_Getenv "OPENROUTER_API_KEY" = EmptyString
     /\ err = "OPENROUTER_API_KEY is required when LLM_PROVIDER=openrouter")
    \/ (lower_bytes v <> "ollama" /\ lower_bytes v <> "openrouter"
        /\ err = "unsupported LLM_PROVIDER=" ++ fmt_q (lower_bytes v)
                 ++ " (supported: openrouter, ollama)")
  end.
Proof.
  intros v Hascii. unfold initializeLLMClient. fold v.
  unfold ToLower. rewrite Hascii.
  assert (Hne : lower_bytes v <> EmptyString).
  { intros He. apply (f_equal String.length) in He.
    rewrite length_lower_bytes in He.
    assert (Hv : v <> EmptyString) by (apply getEnv_nonempty; discriminate).
    destruct v; [congruence|discriminate]. }
  unfold providerOllama, providerOpenRouter.
  destruct (String.eqb_spec (lower_bytes v) "ollama") as [Ho|Ho].
  - split; [reflexivity|]. left. repeat split; auto.
    cbn [BaseURL]. apply (normalizeOllamaBaseURL_suffix).
  - destruct (String.eqb_spec (lower_bytes v) "openrouter") as [Hr|Hr]; cbn [orb].
    + destruct (String.eqb_spec (os_Getenv "OPENROUTER_API_KEY") EmptyString) as [Hk|Hk].
      * left. auto.
      * split; [reflexivity|]. right. repeat split; auto.
    + destruct (String.eqb_spec (lower_bytes v) EmptyString) as [He|He]; [contradiction|].
      right. auto.
Qed.

(** X16: a server that [main] registers never answers [LLM client not
    initialized]: it has a runtime with a client, of the provider
    [ollama] or [openrouter], and its [GetPlan] fails exactly when the
    completion call fails, with that error. *)
Theorem started_server_always_plans s :
  main_server lower_table fmt_q os_Getenv = inr s ->
  exists rt,
    llm s = Some rt /\ Client rt = true
    /\ (Provider rt = providerOllama \/ Provider rt = providerOpenRouter)
    /\ forall CreateChatCompletion prompt,
        GetPlan s CreateChatCompletion prompt
        = match CreateChatCompletion {| req_Model := Model rt;
                                        req_system := system_message;
                                        req_user := user_message prompt |} with
          | inl err => inl err
          | inr choices =>
            inr {| Plan := plan_of_content (Provider rt) prompt (hd EmptyString choices);
                   ModelName := Model rt |}
          end.
Proof.
  unfold main_server, initializeLLMClient.
  destruct (String.eqb _ providerOllama).
  - intros H; inversion H; subst; clear H. eexists. split; [reflexivity|].
    split; [reflexivity|]. split; [left; reflexivity|].
    intros C prompt. unfold GetPlan. cbn [llm Client negb Model Provider].
    destruct (C _) as [err|[|c choices]]; reflexivity.
  - destruct (_ || _).
    + destruct (String.eqb (os_Getenv "OPENROUTER_API_KEY") EmptyString); [discriminate|].
      intros H; inversion H; subst; clear H. eexists. split; [reflexivity|].
      split; [reflexivity|]. split; [right; reflexivity|].
      intros C prompt. unfold GetPlan. cbn [llm Client negb Model Provider].
      destruct (C _) as [err|[|c choices]]; reflexivity.
    + discriminate.
Qed.

End Init.

(* ---------------------------------------------------------------- *)
(** *** The theorems at concrete inputs *)

Import GoUTF8 GoStrings GoStringsMore GoStrconv Gateway GatewayMain Scenarios Deployments.

Lemma initializeLLMClient_by_provider_witness :
  exists rt cc,
    initializeLLMClient no_case quoted (setenv "LLM_PROVIDER" "OLLAMA") = inr (rt, cc)
    /\ Client rt = true
    /\ Provider rt = providerOllama
    /\ HasSuffix (BaseURL cc) "/v1" = true.
Proof.
  pose proof (initializeLLMClient_by_provider
                no_case quoted (setenv "LLM_PROVIDER" "OLLAMA")) as H.
  cbv zeta in H. specialize (H eq_refl).
  destruct (initializeLLMClient no_case quoted (setenv "LLM_PROVIDER" "OLLAMA"))
    as [err|[rt cc]] eqn:E.
  - vm_compute in E. discriminate.
  - exists rt, cc. split; [reflexivity|].
    destruct H as [Hc [(_ & Hp & _ & _ & Hs)|(Hl & _)]].
    + auto.
    + vm_compute in Hl. discriminate.
Defined.

Lemma started_server_always_plans_witness :
  exists s rt,
    main_server no_case quoted (setenv "LLM_PROVIDER" "OLLAMA") = inr s
    /\ llm s = Some rt /\ Client rt = true
    /\ (Provider rt = providerOllama \/ Provider rt = providerOpenRouter)
    /\ forall CreateChatCompletion prompt,
        GetPlan s CreateChatCompletion prompt
        = match CreateChatCompletion {| req_Model := Model rt;
                                        req_system := system_message;
                                        req_user := user_message prompt |} with
          | inl err => inl err
          | inr choices =>
            inr {| Plan := plan_of_content (Provider rt) prompt (hd EmptyString choices);
                   ModelName := Model rt |}
          end.
Proof.
  eexists.
  destruct (started_server_always_plans
              no_case quoted (setenv "LLM_PROVIDER" "OLLAMA") _ eq_refl) as (rt & H).
  exists rt. split; [reflexivity|]. exact H.
Defined.

End GatewayMainFacts.

(* ------------------------------------------------------------------ *)
(** ** The HTTP endpoint *)

Module ServerFacts.
Import GoUTF8 GoJSON Planner Observe Shapes Server ByteFacts JSONFacts GatewayFacts
       PlannerFacts ShapeFacts.

#[local] Hint Rewrite audit_types_app published_app session_deltas_app
  playbook_posts_app plan_replies_app plan_requests_app
  history_requests_app rag_requests_app tool_requests_app : obs.

Lemma Marshal_single k v :
  Marshal [(k, v)] = "{" ++ (appendString k ++ ":" ++ (marshal_value v ++ "}")).
Proof.
  unfold Marshal. cbn [sort_keys fold_right insert_sorted marshal_members].
  now rewrite !append_assoc.
Qed.

(** The text [Encode] writes for a single member is read back as an
    object with that member. *)
Lemma Encode_roundtrip k text :
  parse (Encode [(k, PString text)])
  = Some (JObject [(coerce k, JString (coerce text))]).
Proof.
  unfold parse, Encode. rewrite Marshal_single. rewrite !append_assoc.
  match goal with |- context [S (String.length ?t)] => set (text' := t) end.
  assert (HL : (4 <= String.length text')%nat).
  { subst text'. cbn [marshal_value]. rewrite !length_append.
    pose proof (length_appendString k). pose proof (length_appendString text).
    simpl String.length. lia. }
  destruct (String.length text') as [|[|[|L]]]; try lia.
  subst text'.
  change ("{" ++ ?x) with (String "{" x).
  rewrite (appendString_head k).
  rewrite parse_value_object by (unfold maxNestingDepth; lia).
  rewrite <- (appendString_head k).
  rewrite member_roundtrip. cbn [marshal_value]. rewrite string_roundtrip.
  reflexivity.
Qed.

Lemma Marshal_request prompt sessionID :
  Marshal [("prompt", PString prompt); ("session_id", PString sessionID)]
  = "{" ++ (appendString "prompt" ++ ":" ++ (marshal_value (PString prompt)
            ++ "," ++ (appendString "session_id" ++ ":"
                       ++ (marshal_value (PString sessionID) ++ "}")))).
Proof.
  unfold Marshal.
  change (sort_keys _) with
    [("prompt", PString prompt); ("session_id", PString sessionID)].
  cbn [marshal_members]. now rewrite !append_assoc.
Qed.

(** X17: a request body made of the marshalled object with [prompt]
    and [session_id], followed by anything at all, decodes to these two
    strings (an invalid byte read back as U+FFFD): the decoder reads
    the first JSON value of the body and nothing after it. *)
Theorem Decode_PlanRequest_reads_first_value prompt sessionID rest :
  Decode_PlanRequest
    (Marshal [("prompt", PString prompt); ("session_id", PString sessionID)] ++ rest)
  = Some {| Prompt := coerce prompt; SessionID := coerce sessionID |}.
Proof.
  unfold Decode_PlanRequest. rewrite Marshal_request. rewrite !append_assoc.
  match goal with |- context [S (String.length ?t)] => set (text := t) end.
  assert (HL : (6 <= String.length text)%nat).
  { subst text. cbn [marshal_value]. rewrite !length_append.
    pose proof (length_appendString prompt). pose proof (length_appendString sessionID).
    simpl String.length. lia. }
  destruct (String.length text) as [|[|[|[|[|L]]]]]; try lia.
  subst text.
  change ("{" ++ ?x) with (String "{" x).
  rewrite (appendString_head "prompt").
  rewrite parse_value_object by (unfold maxNestingDepth; lia).
  rewrite <- (appendString_head "prompt").
  rewrite member_roundtrip. cbn [marshal_value]. rewrite string_roundtrip.
  change ("," ++ ?x) with (String "," x). cbn [skip_ws].
  change (is_ws ",") with false. cbv iota.
  change (byte "," =? 44) with true. cbv iota.
  rewrite member_roundtrip. rewrite string_roundtrip.
  change ("}" ++ ?x) with (String "}" x). cbn [skip_ws].
  change (is_ws "}") with false. cbv iota.
  change (byte "}" =? 44) with false. change (byte "}" =? 125) with true. cbv iota.
  change (coerce "prompt") with "prompt". change (coerce "session_id") with "session_id".
  cbn [fold_left store_request_member].
  change (field_matches "prompt" "prompt") with true.
  change (field_matches "session_id" "prompt") with false.
  change (field_matches "session_id" "session_id") with true.
  cbv iota. cbn [store_string Prompt SessionID andb]. reflexivity.
Qed.

Section Handler.
Variable env : Env.
Variable p : PlannerT.
Variable ctx : Context.
Variable body : string.

Lemma handlePlan_accepted :
  handlePlan env p ctx body
  = match accepted body with
    | None =>
      (Some (writeJSONError StatusBadRequest
               (match Decode_PlanRequest body with
                | None => "Invalid request body"
                | Some _ => "Prompt and session_id are required"
                end)), [])
    | Some req =>
      match run env p ctx (Prompt req) (SessionID req) with
      | (None, tr) => (None, tr)
      | (Some o, tr) =>
        (Some (match error o with
               | Some err => writeJSONError StatusInternalServerError
                                            ("Agent execution failed: " ++ err)
               | None => {| StatusCode := StatusOK;
                            ContentType := "application/json";
                            Body := Encode [("result", PString (result o))] |}
               end), tr)
      end
    end.
Proof.
  unfold handlePlan, accepted.
  destruct (Decode_PlanRequest body) as [req|]; [|reflexivity].
  destruct (_ || _); [reflexivity|].
  destruct (run env p ctx (Prompt req) (SessionID req)) as [[o|] tr]; [|reflexivity].
  destruct (error o); reflexivity.
Qed.

(** X18: the handler answers 400 exactly when the body does not decode
    into a request or one of [prompt] and [session_id] is empty, and it
    has then called nothing: no audit record, no notification, no
    request to the memory service or to the model. *)
Theorem handlePlan_rejects_without_running :
  accepted body = None
  <-> exists resp,
      handlePlan env p ctx body = (Some resp, [])
      /\ StatusCode resp = StatusBadRequest.
Proof.
  rewrite handlePlan_accepted. split.
  - intros ->. eexists. split; reflexivity.
  - intros (resp & H & Hs).
    destruct (accepted body) as [req|]; [exfalso|reflexivity].
    destruct (run env p ctx (Prompt req) (SessionID req)) as [[o|] tr']; [|discriminate].
    inversion H; subst; clear H. destruct (error o); discriminate.
Qed.


(** X20: whatever the handler answers, the body is the JSON text of an
    object with a single string member followed by a newline: [result]
    beside the status 200, [error] beside any other status. *)
Theorem handlePlan_body_is_json resp tr :
  handlePlan env p ctx body = (Some resp, tr) ->
  exists key text,
    Body resp = Marshal [(key, PString text)] ++ nl
    /\ parse (Body resp) = Some (JObject [(key, JString (coerce text))])
    /\ (StatusCode resp = StatusOK /\ key = "result"
        \/ StatusCode resp <> StatusOK /\ key = "error").
Proof.
  rewrite handlePlan_accepted. intros H.
  assert (Herr : forall status msg,
             status <> StatusOK -> resp = writeJSONError status msg ->
             exists key text,
               Body resp = Marshal [(key, PString text)] ++ nl
               /\ parse (Body resp) = Some (JObject [(key, JString (coerce text))])
               /\ (StatusCode resp = StatusOK /\ key = "result"
                   \/ StatusCode resp <> StatusOK /\ key = "error")).
  { intros status msg Hs ->. exists "error", msg. cbn [Body writeJSONError StatusCode].
    split; [reflexivity|]. split; [apply Encode_roundtrip|]. right. auto. }
  destruct (accepted body) as [req|].
  - destruct (run env p ctx (Prompt req) (SessionID req)) as [[o|] tr']; [|discriminate].
    inversion H; subst; clear H.
    destruct (error o) as [err|].
    + eapply Herr; [|reflexivity]. discriminate.
    + exists "result", (result o). cbn [Body StatusCode].
      split; [reflexivity|]. split; [apply Encode_roundtrip|]. left. auto.
  - inversion H; subst; clear H. eapply Herr; [|reflexivity]. discriminate.
Qed.

End Handler.


(* ---------------------------------------------------------------- *)
(** *** The theorems at concrete inputs *)

Import GoUTF8 GoStrings GoJSON Planner Observe Scenarios Shapes Server Deployments PlannerFacts
       ShapeFacts.



Lemma handlePlan_body_is_json_witness :
  exists resp tr,
    handlePlan answer_at_once (planner 3) ctx0 plan_body = (Some resp, tr)
    /\ exists key text,
        Body resp = Marshal [(key, PString text)] ++ nl
        /\ parse (Body resp) = Some (JObject [(key, JString (coerce text))])
        /\ (StatusCode resp = StatusOK /\ key = "result"
            \/ StatusCode resp <> StatusOK /\ key = "error").
Proof.
  eexists _, _. split; [vm_compute; reflexivity|].
  eapply (handlePlan_body_is_json answer_at_once (planner 3) ctx0 plan_body).
  vm_compute. reflexivity.
Defined.

End ServerFacts.

(* ------------------------------------------------------------------ *)
(** ** The life of a planner *)

Module LifecycleFacts.
Import GoJSON Planner Observe Shapes Lifecycle PlannerFacts ShapeFacts.

#[local] Hint Rewrite audit_types_app published_app session_deltas_app
  playbook_posts_app plan_replies_app plan_requests_app
  history_requests_app rag_requests_app tool_requests_app : obs.

(** Run [NewPlanner] on every answer of the outside world. *)
Ltac boot_cases :=
  unfold NewPlanner, Close, bind_B, unit_B, dial, open_audit, new_redis, ping, close;
  cbn [app];
  repeat match goal with
         | |- context [grpc_DialContext ?b ?tr ?a] =>
           destruct (grpc_DialContext b tr a); cbn [app]
         | |- context [audit_NewAuditDB ?b ?tr ?a] =>
           destruct (audit_NewAuditDB b tr a); cbn [app]
         | |- context [redis_Ping ?b ?tr] =>
           destruct (redis_Ping b tr); cbn [app]
         end.

(** X22: when [NewPlanner] fails it has closed every resource it had
    obtained, last obtained first, and nothing else; exactly one step
    failed, a dial or the opening of the audit database, and the error
    returned is the error of that step after the name of the stage.  A
    broker that does not answer the ping is never the reason. *)
Theorem NewPlanner_failure_leaks_nothing boot cfg err tr :
  NewPlanner boot cfg [] = (inl err, tr) ->
  closed tr = rev (opened tr)
  /\ ~ In RedisClient (opened tr)
  /\ exists stage cause,
      failures tr = [cause] /\ err = stage ++ cause
      /\ In stage ["dial model gateway: "; "dial memory service: ";
                   "dial rust sandbox: "; "init audit db: "].
Proof.
  boot_cases; intros H; inversion H; subst; clear H;
    (split; [reflexivity|]); (split; [simpl; intuition discriminate|]);
    match goal with
    | |- exists stage cause, failures ?t = _ /\ _ =>
      let f := eval cbn in (failures t) in
      match f with
      | [?c] =>
        first [ solve [exists "dial model gateway: ", c; repeat split; simpl; auto 6]
              | solve [exists "dial memory service: ", c; repeat split; simpl; auto 6]
              | solve [exists "dial rust sandbox: ", c; repeat split; simpl; auto 6]
              | solve [exists "init audit db: ", c; repeat split; simpl; auto 6] ]
      end
    end.
Qed.

(** X23: when [NewPlanner] succeeds the planner has its three
    connections, a tool client and an audit database, and a broker
    client exactly when the ping was answered; [Close] then closes each
    of the five resources obtained exactly once, the broker client of an
    unanswered ping having been closed at once and not again. *)
Theorem NewPlanner_then_Close_closes_once boot cfg h tr :
  NewPlanner boot cfg [] = (inr h, tr) ->
  Planner.cfg (planner h) = cfg
  /\ toolClient (planner h) = true /\ auditDB (planner h) = true
  /\ (redis (planner h) = true <-> In (EvPing None) tr)
  /\ failures tr = []
  /\ let tr' := snd (Close (Some h) tr) in
     opened tr' = [ModelConn; MemoryConn; RustConn; AuditDBHandle; RedisClient]
     /\ closed tr'
        = if redis (planner h)
          then [ModelConn; MemoryConn; RustConn; AuditDBHandle; RedisClient]
          else [RedisClient; ModelConn; MemoryConn; RustConn; AuditDBHandle].
Proof.
  boot_cases; intros H; inversion H; subst; clear H;
    cbn [planner Planner.cfg toolClient auditDB redis modelConn memoryConn rustConn snd];
    repeat split; auto; try (intros; simpl in *; intuition discriminate);
    try (simpl; auto 8).
Qed.

Section Loop.
Variable env : Env.
Variable p : PlannerT.
Variable ctx : Context.
Variable sessionID basePrompt : string.

(** With a tool client every turn that goes on has called the tool
    service once. *)
Lemma loop_with_client maxTurns turn n st tr o evs :
  toolClient p = true ->
  loop_run env p ctx sessionID basePrompt maxTurns turn n st tr o evs ->
  (List.length (tool_requests evs) + n)%nat = steps_taken o.
Proof.
  intros Hcl H. loop_induction H.
  - reflexivity.
  - unfold steps_taken. simpl.
    inv_turn Hc; obs_events; autorewrite with obs; simpl; case_ifs; reflexivity.
  - autorewrite with obs. rewrite length_app.
    assert (Hone : List.length (tool_requests evs) = 1%nat).
    { inv_turn Hc;
        match goal with
        | H : tool_dispatch _ _ _ _ _ _ _ |- _ => inversion H; subst; clear H
        end; try congruence;
        obs_events; autorewrite with obs; case_ifs; reflexivity. }
    rewrite Hone. lia.
Qed.

Lemma tool_traffic_app a b : tool_traffic (a ++ b) = (tool_traffic a ++ tool_traffic b)%list.
Proof. apply flat_map_app. Qed.

(** With a tool client and an audit database, every turn that goes on
    records the call and then makes exactly one request. *)
Lemma loop_traffic maxTurns turn n st tr o evs :
  toolClient p = true -> auditDB p = true ->
  loop_run env p ctx sessionID basePrompt maxTurns turn n st tr o evs ->
  exists k, tool_traffic evs = dispatched k /\ (k + n)%nat = steps_taken o.
Proof.
  intros Hcl Haud H. loop_induction H.
  - exists O. split; reflexivity.
  - exists O. unfold steps_taken. simpl. split; [|reflexivity].
    inv_turn Hc; obs_events; rewrite ?tool_traffic_app; simpl;
      case_ifs; first [reflexivity | discriminate Haud].
  - destruct IH as (k & IH & Hk). exists (S k). split; [|simpl; lia].
    rewrite tool_traffic_app, IH.
    assert (Hone : tool_traffic evs = [false; true]).
    { inv_turn Hc;
        match goal with
        | H : tool_dispatch _ _ _ _ _ _ _ |- _ => inversion H; subst; clear H
        end; try congruence;
        obs_events; rewrite ?tool_traffic_app; simpl;
        case_ifs; first [reflexivity | discriminate Haud]. }
    rewrite Hone. reflexivity.
Qed.

End Loop.


(* ---------------------------------------------------------------- *)
(** *** The theorems at concrete inputs *)

Import GoJSON Planner Observe Scenarios Shapes Lifecycle Deployments.

Lemma NewPlanner_failure_leaks_nothing_witness :
  exists err tr,
    NewPlanner sandbox_down (config 3) [] = (inl err, tr)
    /\ closed tr = rev (opened tr)
    /\ ~ In RedisClient (opened tr)
    /\ exists stage cause,
        failures tr = [cause] /\ err = stage ++ cause
        /\ In stage ["dial model gateway: "; "dial memory service: ";
                     "dial rust sandbox: "; "init audit db: "].
Proof.
  eexists _, _. split; [vm_compute; reflexivity|].
  eapply (NewPlanner_failure_leaks_nothing sandbox_down (config 3)).
  vm_compute. reflexivity.
Defined.

Lemma NewPlanner_then_Close_closes_once_witness :
  exists h tr,
    NewPlanner all_up (config 3) [] = (inr h, tr)
    /\ Planner.cfg (planner h) = config 3
    /\ toolClient (planner h) = true /\ auditDB (planner h) = true
    /\ (redis (planner h) = true <-> In (EvPing None) tr)
    /\ failures tr = []
    /\ let tr' := snd (Close (Some h) tr) in
       opened tr' = [ModelConn; MemoryConn; RustConn; AuditDBHandle; RedisClient]
       /\ closed tr'
          = if redis (planner h)
            then [ModelConn; MemoryConn; RustConn; AuditDBHandle; RedisClient]
            else [RedisClient; ModelConn; MemoryConn; RustConn; AuditDBHandle].
Proof.
  eexists _, _. split; [vm_compute; reflexivity|].
  eapply (NewPlanner_then_Close_closes_once all_up (config 3)).
  vm_compute. reflexivity.
Defined.


End LifecycleFacts.

(* ------------------------------------------------------------------ *)
(** ** strings.TrimSpace *)

Module TrimFacts.
Import GoUTF8 GoStrings GoStringsMore ByteFacts UTF8Facts.

Lemma decode_ascii c s : byte c < RuneSelf -> DecodeRuneInString (String c s) = (byte c, 1%nat).
Proof.
  unfold RuneSelf. intros H. unfold DecodeRuneInString, first.
  destruct (Z.ltb_spec (byte c) 128); [reflexivity|lia].
Qed.

(** A decoded rune takes at least one byte and no more than there are. *)
Lemma decode_size c s :
  (1 <= snd (DecodeRuneInString (String c s)) <= String.length (String c s))%nat.
Proof.
  destruct (Z.ltb_spec (byte c) RuneSelf) as [Ha|Hh].
  - rewrite decode_ascii by assumption. simpl. lia.
  - destruct (decode_cases c s Hh) as [->|(r & size & -> & Hsz & Hle & _)]; simpl in *; lia.
Qed.

(** The first byte of a rune that decodes to something else than
    U+FFFD is not a continuation byte. *)
Lemma decode_start c s :
  fst (DecodeRuneInString (String c s)) <> RuneError -> cont (byte c) = false.
Proof.
  unfold DecodeRuneInString. destruct (first (byte c)) as [| |sz lo hi] eqn:F.
  - intros _. apply first_ascii in F. unfold cont.
    destruct (Z.leb_spec 128 (byte c)); [lia|reflexivity].
  - simpl. congruence.
  - intros _. destruct (first_lead _ _ _ _ F) as (_ & _ & Hsz). unfold cont.
    destruct (Z.leb_spec (byte c) 191); [|apply andb_false_r].
    destruct (Z.leb_spec 128 (byte c)); [|reflexivity]. lia.
Qed.

(** A rune of more than one byte has a continuation byte second. *)
Lemma decode_second c s :
  (2 <= snd (DecodeRuneInString (String c s)))%nat ->
  exists c1 s1, s = String c1 s1 /\ cont (byte c1) = true.
Proof.
  unfold DecodeRuneInString. destruct (first (byte c)) as [| |sz lo hi] eqn:F;
    [simpl; lia|simpl; lia|].
  destruct (first_lead _ _ _ _ F) as (Hlo & Hhi & _).
  destruct s as [|c1 s1]; [simpl; lia|].
  destruct (Z.ltb_spec (byte c1) lo); [simpl; lia|].
  destruct (Z.ltb_spec hi (byte c1)); [simpl; lia|].
  intros _. exists c1, s1. split; [reflexivity|]. apply cont_spec. lia.
Qed.

(** Decoding a prefix gives the rune of the whole string, or U+FFFD
    when the prefix cuts the rune short. *)
Lemma decode_prefix n s :
  (1 <= n)%nat ->
  DecodeRuneInString (firstn_str n s) = DecodeRuneInString s
  \/ DecodeRuneInString (firstn_str n s) = (RuneError, 1%nat).
Proof.
  intros Hn. destruct s as [|c0 s1]; [left; now destruct n|].
  destruct n as [|n]; [lia|]. cbn [firstn_str].
  unfold DecodeRuneInString.
  destruct (first (byte c0)) as [| |sz lo hi]; [now left|now left|].
  destruct s1 as [|c1 s2]; [left; now destruct n|].
  destruct n as [|n]; [now right|]. cbn [firstn_str].
  destruct ((byte c1 <? lo) || (hi <? byte c1)); [now left|].
  destruct (sz <=? 2)%nat; [now left|].
  destruct s2 as [|c2 s3]; [left; now destruct n|].
  destruct n as [|n]; [now right|]. cbn [firstn_str].
  destruct (negb (cont (byte c2))); [now left|].
  destruct (sz <=? 3)%nat; [now left|].
  destruct s3 as [|c3 s4]; [left; now destruct n|].
  destruct n as [|n]; [now right|]. cbn [firstn_str]. now left.
Qed.

(** A rune other than U+FFFD is decoded the same whatever follows it. *)
Lemma decode_extend s r size t :
  DecodeRuneInString s = (r, size) -> r <> RuneError ->
  DecodeRuneInString (firstn_str size s ++ t) = (r, size).
Proof.
  intros Hd Hr. destruct s as [|c s1]; [simpl in Hd; inversion Hd; subst; congruence|].
  destruct (Z.ltb_spec (byte c) RuneSelf) as [Ha|Hh].
  - rewrite decode_ascii in Hd by assumption. inversion Hd; subst.
    cbn [firstn_str append]. now apply decode_ascii.
  - destruct (decode_cases c s1 Hh) as [He|(r' & size' & Hd' & _ & _ & _ & Hall)].
    + rewrite He in Hd. inversion Hd; subst. congruence.
    + rewrite Hd' in Hd. inversion Hd; subst. apply Hall.
Qed.

Lemma IsSpace_RuneError : IsSpace RuneError = false.
Proof. reflexivity. Qed.

Lemma IsSpace_not_error r : IsSpace r = true -> r <> RuneError.
Proof. intros H ->. discriminate. Qed.

(* ---------------------------------------------------------------- *)
(** *** Reversal and the last rune *)

Lemma rev_str_snoc s : forall acc c,
  rev_str acc (s ++ String c EmptyString) = String c (rev_str acc s).
Proof. induction s as [|a s IH]; intros acc c; simpl; [reflexivity|apply IH]. Qed.

Lemma snoc_cases s : s = EmptyString \/ exists s' c, s = s' ++ String c EmptyString.
Proof.
  induction s as [|a s IH]; [now left|right].
  destruct IH as [->|(s' & c & ->)].
  - exists EmptyString, a. reflexivity.
  - exists (String a s'), c. reflexivity.
Qed.

Lemma rev_str_length s : forall acc,
  String.length (rev_str acc s) = (String.length s + String.length acc)%nat.
Proof.
  induction s as [|a s IH]; intros acc; simpl; [reflexivity|].
  rewrite IH. simpl. lia.
Qed.

Lemma skipn_str_length_app s t : skipn_str (String.length s) (s ++ t) = t.
Proof. induction s; simpl; auto. Qed.

Lemma decode_single c :
  RuneSelf <= byte c -> DecodeRuneInString (String c EmptyString) = (RuneError, 1%nat).
Proof.
  intros H. unfold DecodeRuneInString.
  destruct (first (byte c)) eqn:F; try reflexivity.
  apply first_ascii in F. unfold RuneSelf in H. lia.
Qed.

(** The last rune of a string is the rune decoded at its start. *)
Lemma decode_last_spec s r size :
  s <> EmptyString ->
  DecodeLastRuneInString s = (r, size) ->
  (1 <= size <= String.length s)%nat
  /\ DecodeRuneInString (skipn_str (String.length s - size) s) = (r, size).
Proof.
  intros Hne. destruct (snoc_cases s) as [->|(s' & c & ->)]; [congruence|].
  unfold DecodeLastRuneInString. rewrite rev_str_snoc.
  assert (Hlen : String.length (s' ++ String c EmptyString) = S (String.length s')).
  { rewrite length_append. simpl. lia. }
  destruct (Z.ltb_spec (byte c) RuneSelf) as [Ha|Hh].
  - intros H; inversion H; subst. rewrite Hlen. split; [lia|].
    replace (S (String.length s') - 1)%nat with (String.length s') by lia.
    rewrite skipn_str_length_app. now apply decode_ascii.
  - match goal with
    | |- context [skipn_str (_ - ?b) _] => set (back := b)
    end.
    assert (Hback : (1 <= back <= S (String.length s'))%nat).
    { subst back. pose proof (rev_str_length s' EmptyString) as Hr. simpl in Hr.
      destruct (rev_str EmptyString s') as [|c1 [|c2 [|c3 r3]]]; simpl in Hr;
        repeat match goal with
               | |- context [if ?b then _ else _] => destruct b
               end; lia. }
    rewrite Hlen.
    destruct (DecodeRuneInString (skipn_str (S (String.length s') - back)
                                            (s' ++ String c EmptyString)))
      as [r' size'] eqn:Hd.
    destruct (Nat.eqb_spec size' back) as [->|Hneq].
    + intros H; inversion H; subst. split; [lia|exact Hd].
    + intros H; inversion H; subst. split; [lia|].
      replace (S (String.length s') - 1)%nat with (String.length s') by lia.
      rewrite skipn_str_length_app. now apply decode_single.
Qed.

(* ---------------------------------------------------------------- *)
(** *** Trimming on the left *)

Lemma TrimLeftSpace_fixed s : starts_ok s -> TrimLeftSpace s = s.
Proof.
  unfold TrimLeftSpace. intros [->|H]; [reflexivity|].
  destruct s as [|c s]; [reflexivity|]. cbn [String.length TrimLeftSpace_fuel].
  destruct (DecodeRuneInString (String c s)) as [r size]. simpl in H. now rewrite H.
Qed.

Lemma TrimLeftSpace_fuel_starts fuel : forall s,
  (String.length s <= fuel)%nat -> starts_ok (TrimLeftSpace_fuel fuel s).
Proof.
  induction fuel as [|fuel IH]; intros s Hlen.
  - destruct s; [now left|simpl in Hlen; lia].
  - destruct s as [|c s]; [now left|]. cbn [TrimLeftSpace_fuel].
    pose proof (decode_size c s) as Hsz.
    destruct (DecodeRuneInString (String c s)) as [r size] eqn:Hd.
    destruct (IsSpace r) eqn:Hsp.
    + apply IH. rewrite length_skipn_str. cbn [snd String.length] in *. lia.
    + right. rewrite Hd. exact Hsp.
Qed.

Lemma TrimLeftSpace_starts s : starts_ok (TrimLeftSpace s).
Proof. apply TrimLeftSpace_fuel_starts. lia. Qed.

(* ---------------------------------------------------------------- *)
(** *** Trimming on the right *)

Lemma firstn_str_all s : firstn_str (String.length s) s = s.
Proof. induction s; simpl; congruence. Qed.

Lemma firstn_str_nonempty i s :
  (1 <= i <= String.length s)%nat -> firstn_str i s <> EmptyString.
Proof. destruct i, s; simpl; intros; try lia; discriminate. Qed.

Lemma skipn_firstn_str i j s :
  (i <= j)%nat -> skipn_str i (firstn_str j s) = firstn_str (j - i) (skipn_str i s).
Proof.
  revert j s. induction i as [|i IH]; intros j s Hij.
  - simpl. now rewrite Nat.sub_0_r.
  - destruct j as [|j]; [lia|]. destruct s as [|c s]; simpl.
    + now destruct (j - i)%nat.
    + apply IH. lia.
Qed.

Lemma skipn_str_cons i s :
  (i < String.length s)%nat -> exists c rest, skipn_str i s = String c rest.
Proof.
  revert s. induction i as [|i IH]; intros [|c s] H; simpl in *; try lia; eauto.
  apply IH. lia.
Qed.

Lemma firstn_firstn_str i j s :
  (i <= j)%nat -> firstn_str i (firstn_str j s) = firstn_str i s.
Proof.
  revert j s. induction i as [|i IH]; intros j s Hij; [reflexivity|].
  destruct j as [|j]; [lia|]. destruct s as [|c s]; [reflexivity|].
  simpl. f_equal. apply IH. lia.
Qed.

(** Where the backward scan stops: at a rune that is not a space and
    ends at a rune boundary. *)
Lemma lastIndexNotSpace_spec fuel : forall s i,
  (i <= fuel)%nat -> (i <= String.length s)%nat -> boundary s i ->
  match lastIndexNotSpace fuel s i with
  | None => True
  | Some i' =>
    exists r size,
      (1 <= size)%nat /\ (i' + size <= String.length s)%nat
      /\ DecodeLastRuneInString (firstn_str (i' + size) s) = (r, size)
      /\ IsSpace r = false
      /\ boundary s (i' + size)
  end.
Proof.
  induction fuel as [|fuel IH]; intros s i Hf Hi Hb; [exact I|].
  cbn [lastIndexNotSpace].
  destruct (Nat.eqb_spec i 0) as [->|Hi0]; [exact I|].
  destruct (DecodeLastRuneInString (firstn_str i s)) as [r size] eqn:Hd.
  assert (Hne : firstn_str i s <> EmptyString) by (apply firstn_str_nonempty; lia).
  destruct (decode_last_spec _ _ _ Hne Hd) as (Hsz & Hfw).
  rewrite length_firstn_str in Hsz, Hfw by lia.
  destruct (IsSpace r) eqn:Hsp.
  - apply IH; [lia|lia|].
    right. rewrite skipn_firstn_str in Hfw by lia.
    destruct (skipn_str_cons (i - size) s ltac:(lia)) as (c & rest & Hs).
    exists c, rest. split; [exact Hs|].
    rewrite Hs in Hfw.
    destruct (i - (i - size))%nat as [|k] eqn:Hk; [lia|].
    cbn [firstn_str] in Hfw.
    apply decode_start with (s := firstn_str k rest). rewrite Hfw. simpl.
    now apply IsSpace_not_error.
  - exists r, size. replace (i - size + size)%nat with i by lia.
    repeat split; auto; lia.
Qed.

(** What [TrimRightSpace] gives: a prefix that is empty or ends with
    a rune that is not a space. *)
Lemma TrimRightSpace_spec s :
  exists j, (j <= String.length s)%nat
            /\ TrimRightSpace s = firstn_str j s
            /\ ends_ok (firstn_str j s).
Proof.
  unfold TrimRightSpace.
  pose proof (lastIndexNotSpace_spec (String.length s) s (String.length s)
                ltac:(lia) ltac:(lia) ltac:(now left)) as H.
  destruct (lastIndexNotSpace (String.length s) s (String.length s)) as [i'|].
  2:{ exists 0%nat. split; [lia|]. split; [reflexivity|now left]. }
  destruct H as (r & size & Hsz & Hle & Hd & Hsp & Hb).
  exists (i' + size)%nat. split; [exact Hle|].
  assert (Hok : ends_ok (firstn_str (i' + size) s)).
  { right. rewrite Hd. exact Hsp. }
  split; [|exact Hok].
  assert (Hne : firstn_str (i' + size) s <> EmptyString)
    by (apply firstn_str_nonempty; lia).
  destruct (decode_last_spec _ _ _ Hne Hd) as (_ & Hfw).
  rewrite length_firstn_str in Hfw by lia.
  replace (i' + size - size)%nat with i' in Hfw by lia.
  rewrite skipn_firstn_str in Hfw by lia.
  replace (i' + size - i')%nat with size in Hfw by lia.
  destruct (skipn_str_cons i' s ltac:(lia)) as (c & rest & Hs).
  rewrite Hs in *.
  destruct (Z.leb_spec RuneSelf (byte c)) as [Hh|Ha].
  - (* the width of the rune in the whole string is its width in the prefix *)
    f_equal. f_equal.
    destruct (decode_prefix size (String c rest) ltac:(lia)) as [Heq|Heq].
    + rewrite <- Heq, Hfw. reflexivity.
    + rewrite Hfw in Heq. inversion Heq; subst.
      destruct (le_lt_dec 2 (snd (DecodeRuneInString (String c rest)))) as [Hbig|Hsmall].
      * exfalso. destruct (decode_second _ _ Hbig) as (c1 & s1 & -> & Hc1).
        destruct Hb as [Hb|(c' & rest' & Hs' & Hc')].
        -- apply (f_equal String.length) in Hs. rewrite length_skipn_str in Hs.
           simpl in Hs. lia.
        -- replace (i' + 1)%nat with (S i') in Hs' by lia.
           assert (Hsk : skipn_str (S i') s = String c1 s1).
           { clear - Hs. revert s Hs. induction i' as [|i' IH]; intros [|a s] Hs;
               simpl in *; try discriminate.
             - now inversion Hs.
             - now apply IH. }
           rewrite Hsk in Hs'. inversion Hs'; subst. congruence.
      * pose proof (decode_size c rest). lia.
  - destruct size as [|size]; [lia|]. cbn [firstn_str] in Hfw.
    rewrite decode_ascii in Hfw by assumption. inversion Hfw; subst. reflexivity.
Qed.

Lemma TrimRightSpace_fixed s : ends_ok s -> TrimRightSpace s = s.
Proof.
  intros [->|Hok]; [reflexivity|].
  destruct (String.eqb_spec s EmptyString) as [->|Hne]; [reflexivity|].
  unfold TrimRightSpace.
  destruct (String.length s) as [|n] eqn:Hlen; [destruct s; [congruence|discriminate]|].
  cbn [lastIndexNotSpace Nat.eqb]. rewrite <- Hlen, firstn_str_all.
  destruct (DecodeLastRuneInString s) as [r size] eqn:Hd. simpl in Hok. rewrite Hok.
  destruct (decode_last_spec _ _ _ Hne Hd) as (Hsz & Hfw).
  destruct (skipn_str_cons (String.length s - size) s ltac:(lia)) as (c & rest & Hs).
  rewrite Hs in *.
  destruct (Z.leb_spec RuneSelf (byte c)) as [Hh|Ha].
  - rewrite Hfw. cbn [snd].
    replace (String.length s - size + size)%nat with (String.length s) by lia.
    apply firstn_str_all.
  - rewrite decode_ascii in Hfw by assumption. inversion Hfw; subst.
    replace (String.length s - 1 + 1)%nat with (String.length s) by lia.
    apply firstn_str_all.
Qed.

Lemma starts_ok_prefix j s : starts_ok s -> starts_ok (firstn_str j s).
Proof.
  intros [->|H]; [left; now destruct j|].
  destruct j as [|j]; [now left|].
  destruct (decode_prefix (S j) s ltac:(lia)) as [Heq|Heq]; right; rewrite Heq;
    [exact H|reflexivity].
Qed.

(** What [TrimSpace] gives is empty or has a rune that is not a space
    at either end, and [TrimSpace] leaves such a string alone. *)
Lemma TrimSpace_ok s : starts_ok (TrimSpace s) /\ ends_ok (TrimSpace s).
Proof.
  unfold TrimSpace.
  destruct (TrimRightSpace_spec (TrimLeftSpace s)) as (j & _ & -> & Hends).
  split; [|exact Hends]. apply starts_ok_prefix, TrimLeftSpace_starts.
Qed.

Lemma TrimSpace_fixed s : starts_ok s -> ends_ok s -> TrimSpace s = s.
Proof.
  intros Hs He. unfold TrimSpace. rewrite TrimLeftSpace_fixed by assumption.
  now apply TrimRightSpace_fixed.
Qed.

Lemma TrimSpace_idempotent s : TrimSpace (TrimSpace s) = TrimSpace s.
Proof. destruct (TrimSpace_ok s). now apply TrimSpace_fixed. Qed.

End TrimFacts.

(* ------------------------------------------------------------------ *)
(** ** How the gateway reads the answer of the model *)

Module NormalizeFacts.
Import GoUTF8 GoStrings GoStringsMore GoJSON Gateway ByteFacts UTF8Facts JSONFacts
       GatewayFacts TrimFacts.

Lemma starts_ok_ascii c s :
  byte c < RuneSelf -> IsSpace (byte c) = false -> starts_ok (String c s).
Proof. intros Ha Hs. right. now rewrite decode_ascii. Qed.

Lemma ends_ok_ascii s c :
  byte c < RuneSelf -> IsSpace (byte c) = false -> ends_ok (s ++ String c EmptyString).
Proof.
  intros Ha Hs. right. unfold DecodeLastRuneInString. rewrite rev_str_snoc.
  destruct (Z.ltb_spec (byte c) RuneSelf); [exact Hs|lia].
Qed.

(** A text between braces, or between back quotes, is left alone. *)
Lemma TrimSpace_braces s : TrimSpace ("{" ++ s ++ "}") = "{" ++ s ++ "}".
Proof.
  apply TrimSpace_fixed.
  - now apply starts_ok_ascii.
  - change ("{" ++ s ++ "}") with (("{" ++ s) ++ "}"). now apply ends_ok_ascii.
Qed.

Lemma decoded_steps_TrimSpace raw : decoded_steps (TrimSpace raw) = decoded_steps raw.
Proof. unfold decoded_steps. now rewrite TrimSpace_idempotent. Qed.

Lemma stripFences_unfenced s :
  HasPrefix (TrimSpace s) fence = false -> stripFences s = TrimSpace s.
Proof. unfold stripFences. now intros ->. Qed.

Lemma plan_of_content_by_steps provider prompt content :
  plan_of_content provider prompt content
  = Marshal (plan_payload provider (plan_steps content) prompt).
Proof. apply plan_of_content_steps. Qed.

(** X25: a content that, trimmed, does not begin with a code fence is
    read as a JSON object with a non-empty [steps] array of strings,
    whose steps become those of the plan; when it is not one, the
    trimmed content is kept whole as the only step.  White space around
    the content never counts. *)
Theorem unfenced_content_is_json_or_one_step provider prompt content :
  HasPrefix (TrimSpace content) fence = false ->
  plan_of_content provider prompt content
  = Marshal (plan_payload provider
               (match decoded_steps content with
                | Some steps => steps
                | None => [TrimSpace content]
                end) prompt)
  /\ plan_of_content provider prompt (TrimSpace content)
     = plan_of_content provider prompt content.
Proof.
  intros Hf. split.
  - rewrite plan_of_content_by_steps. unfold plan_steps.
    rewrite decoded_steps_TrimSpace.
    destruct (decoded_steps content) as [steps|] eqn:E; [reflexivity|].
    rewrite stripFences_unfenced by (now rewrite TrimSpace_idempotent).
    now rewrite TrimSpace_idempotent, decoded_steps_TrimSpace, E.
  - unfold plan_of_content. now rewrite TrimSpace_idempotent.
Qed.

Lemma Index_none_cons a s substr :
  Index (String a s) substr = None ->
  HasPrefix (String a s) substr = false /\ Index s substr = None.
Proof.
  cbn [Index]. destruct (HasPrefix (String a s) substr); [discriminate|].
  destruct (Index s substr); [discriminate|auto].
Qed.

Lemma HasPrefix_nil s : HasPrefix s EmptyString = true.
Proof. destruct s; reflexivity. Qed.

Lemma Index_line tag rest :
  Index tag nl = None -> Index (tag ++ nl ++ rest) nl = Some (String.length tag).
Proof.
  induction tag as [|a tag IH]; intros H.
  - cbn [append String.length]. unfold nl. cbn [Index HasPrefix append].
    now rewrite Ascii.eqb_refl, HasPrefix_nil.
  - destruct (Index_none_cons _ _ _ H) as (Hp & Hi).
    cbn [append String.length Index]. unfold nl in *. cbn [HasPrefix] in *.
    rewrite HasPrefix_nil in *. rewrite andb_true_r in *. rewrite Hp.
    fold nl in IH, Hi |- *. now rewrite (IH Hi).
Qed.

Lemma LastIndex_fence body : LastIndex (body ++ fence) fence = Some (String.length body).
Proof.
  induction body as [|a body IH]; [reflexivity|].
  cbn [append String.length LastIndex]. now rewrite IH.
Qed.

Lemma Index_cons_other a s :
  Ascii.eqb a LF = false -> Index s nl = None -> Index (String a s) nl = None.
Proof.
  intros Ha Hs. cbn [Index]. unfold nl at 1. cbn [HasPrefix].
  rewrite Ha. cbn [andb]. now rewrite Hs.
Qed.

Lemma Index_fence_tag tag :
  Index tag nl = None -> Index (fence ++ tag) nl = None.
Proof.
  intros H. unfold fence. cbn [append].
  repeat (apply Index_cons_other; [reflexivity|]). exact H.
Qed.

Lemma firstn_str_length_app s t : firstn_str (String.length s) (s ++ t) = s.
Proof. induction s; simpl; congruence. Qed.

(** The text of a fenced block: the fence, a tag, a newline, the body
    and the closing fence. *)
Lemma stripFences_block tag body :
  Index tag nl = None ->
  TrimSpace (fence ++ tag ++ nl ++ body ++ fence) = fence ++ tag ++ nl ++ body ++ fence
  /\ stripFences (fence ++ tag ++ nl ++ body ++ fence) = TrimSpace body.
Proof.
  intros Htag.
  assert (Hfix : TrimSpace (fence ++ tag ++ nl ++ body ++ fence)
                 = fence ++ tag ++ nl ++ body ++ fence).
  { apply TrimSpace_fixed.
    - unfold fence. cbn [append]. now apply starts_ok_ascii.
    - replace (fence ++ tag ++ nl ++ body ++ fence)
        with ((fence ++ tag ++ nl ++ body ++ "``") ++ "`")
        by (unfold fence; now rewrite !append_assoc).
      now apply ends_ok_ascii. }
  split; [exact Hfix|].
  unfold stripFences. rewrite Hfix.
  assert (Hpre : HasPrefix (fence ++ tag ++ nl ++ body ++ fence) fence = true).
  { unfold fence. cbn [append HasPrefix]. now rewrite HasPrefix_nil. }
  rewrite Hpre. cbn [negb].
  rewrite <- (append_assoc fence tag), Index_line by (now apply Index_fence_tag).
  rewrite <- (append_assoc (fence ++ tag) nl).
  replace (String.length (fence ++ tag) + 1)%nat
    with (String.length ((fence ++ tag) ++ nl))
    by (rewrite !length_append; reflexivity).
  rewrite skipn_str_length_app, LastIndex_fence.
  now rewrite firstn_str_length_app.
Qed.

(** X26: a fenced block, that is a fence, a tag without newline, a
    newline, a body and the closing fence, is unwrapped to its trimmed
    body; when the body is a JSON object with a non-empty [steps] array
    of strings the plan is the one of the bare body, and otherwise the
    whole block, fences included, is the only step. *)
Theorem fenced_content_is_unwrapped provider prompt tag body :
  Index tag nl = None ->
  let content := fence ++ tag ++ nl ++ body ++ fence in
  stripFences content = TrimSpace body
  /\ plan_of_content provider prompt content
     = Marshal (plan_payload provider
                  (match decoded_steps body with
                   | Some steps => steps
                   | None => [content]
                   end) prompt)
  /\ (decoded_steps body <> None ->
      plan_of_content provider prompt content = plan_of_content provider prompt body).
Proof.
  intros Htag content.
  destruct (stripFences_block tag body Htag) as (Hfix & Hstrip). fold content in Hfix, Hstrip.
  assert (Hraw : decoded_steps content = None).
  { unfold decoded_steps. rewrite Hfix. reflexivity. }
  assert (Hplan : plan_steps content
                  = match decoded_steps body with
                    | Some steps => steps
                    | None => [content]
                    end).
  { unfold plan_steps. rewrite Hfix, Hraw, Hstrip, decoded_steps_TrimSpace.
    destruct (decoded_steps body); reflexivity. }
  split; [exact Hstrip|]. split.
  - now rewrite plan_of_content_by_steps, Hplan.
  - intros Hsome. rewrite !plan_of_content_by_steps, Hplan. unfold plan_steps.
    rewrite decoded_steps_TrimSpace.
    destruct (decoded_steps body); [reflexivity|congruence].
Qed.

Lemma store_strings l : forall old,
  store_elems EmptyString store_string (map (fun s => JString (coerce s)) l) old
  = ((map coerce l ++ skipn (List.length l) old)%list, true).
Proof.
  induction l as [|s l IH]; intros old; cbn [map store_elems List.length skipn app].
  - reflexivity.
  - rewrite IH. cbn [store_string andb].
    destruct old; cbn [tl hd]; [now rewrite skipn_nil|reflexivity].
Qed.

Lemma store_member_model_type st v : store_member st ("model_type", v) = st.
Proof. destruct st as (d, ok). reflexivity. Qed.

Lemma store_member_prompt d ok t :
  store_member (d, ok) ("prompt", JString t) = ({| Steps := Steps d; Prompt := t |}, ok).
Proof.
  unfold store_member. change (field_matches "prompt" "steps") with false.
  change (field_matches "prompt" "prompt") with true. cbv iota.
  cbn [store_string]. now rewrite andb_true_r.
Qed.

Lemma store_member_steps d ok l :
  l <> [] ->
  store_member (d, ok) ("steps", JArray (map (fun s => JString (coerce s)) l))
  = ({| Steps := mkSlice (map coerce l ++ skipn (List.length l) (arr (Steps d)))%list
                         (List.length l);
        Prompt := Prompt d |}, ok).
Proof.
  intros Hne. unfold store_member. change (field_matches "steps" "steps") with true.
  cbv iota. destruct l as [|s l]; [congruence|].
  cbn [map store_slice].
  pose proof (store_strings (s :: l) (arr (Steps d))) as Hs. cbn [map] in Hs.
  rewrite Hs. rewrite andb_true_r. cbn [List.length]. now rewrite length_map.
Qed.

(** X27: a plan in the format of the gateway, given back as the
    content of the model, is accepted by [normalizeJSON]: its steps are
    kept (an invalid byte read back as U+FFFD), and its [model_type]
    and [prompt] are replaced by the provider and the prompt of the
    request at hand. *)
Theorem normalizeJSON_reads_back_a_plan provider prompt provider' prompt' steps :
  steps <> [] ->
  normalizeJSON provider prompt (Marshal (plan_payload provider' steps prompt'))
  = Some (Marshal (plan_payload provider (map coerce steps) prompt))
  /\ plan_of_content provider prompt (Marshal (plan_payload provider' steps prompt'))
     = Marshal (plan_payload provider (map coerce steps) prompt).
Proof.
  intros Hne.
  assert (Hn : normalizeJSON provider prompt (Marshal (plan_payload provider' steps prompt'))
               = Some (Marshal (plan_payload provider (map coerce steps) prompt))).
  { unfold normalizeJSON.
    assert (Hfix : TrimSpace (Marshal (plan_payload provider' steps prompt'))
                   = Marshal (plan_payload provider' steps prompt')).
    { unfold Marshal. apply TrimSpace_braces. }
    rewrite Hfix. unfold Marshal at 1. cbn [append HasPrefix negb].
    change (Ascii.eqb "{" "{") with true. cbn [andb negb].
    rewrite HasPrefix_nil. cbn [negb].
    unfold Unmarshal_decoded. rewrite payload_roundtrip by exact Hne.
    cbn [fold_left].
    rewrite store_member_model_type, store_member_prompt, store_member_steps by exact Hne.
    cbn [Steps Prompt arr nil_slice]. unfold elements. cbn [arr len].
    rewrite skipn_nil, app_nil_r.
    rewrite <- (length_map coerce steps), firstn_all, length_map.
    destruct steps; [congruence|reflexivity]. }
  split; [exact Hn|].
  unfold plan_of_content.
  assert (Hfix : TrimSpace (Marshal (plan_payload provider' steps prompt'))
                 = Marshal (plan_payload provider' steps prompt')).
  { unfold Marshal. apply TrimSpace_braces. }
  now rewrite Hfix, Hn.
Qed.

(** The text of a plan decodes to its steps. *)
Lemma decoded_steps_payload provider prompt steps :
  steps <> [] ->
  decoded_steps (Marshal (plan_payload provider steps prompt)) = Some (map coerce steps).
Proof.
  intros Hne. unfold decoded_steps.
  assert (Hfix : TrimSpace (Marshal (plan_payload provider steps prompt))
                 = Marshal (plan_payload provider steps prompt)).
  { unfold Marshal. apply TrimSpace_braces. }
  rewrite Hfix. unfold Marshal at 1. cbn [append HasPrefix negb].
  change (Ascii.eqb "{" "{") with true. cbn [andb negb].
  rewrite HasPrefix_nil. cbn [negb].
  unfold Unmarshal_decoded. rewrite payload_roundtrip by exact Hne.
  cbn [fold_left].
  rewrite store_member_model_type, store_member_prompt, store_member_steps by exact Hne.
  cbn [Steps Prompt arr nil_slice]. unfold elements. cbn [arr len].
  rewrite skipn_nil, app_nil_r.
  rewrite <- (length_map coerce steps), firstn_all, length_map.
  destruct steps; [congruence|reflexivity].
Qed.

(** The steps of a fenced block are those of its body, and the whole
    block when the body has none. *)
Lemma plan_steps_block content tag body :
  TrimSpace content = fence ++ tag ++ nl ++ body ++ fence ->
  Index tag nl = None ->
  plan_steps content
  = match decoded_steps body with
    | Some steps => steps
    | None => [TrimSpace content]
    end.
Proof.
  intros Hc Htag.
  destruct (stripFences_block tag body Htag) as (Hfix & Hstrip).
  unfold plan_steps. rewrite Hc.
  assert (Hraw : decoded_steps (fence ++ tag ++ nl ++ body ++ fence) = None).
  { unfold decoded_steps. rewrite Hfix. reflexivity. }
  rewrite Hraw, Hstrip, decoded_steps_TrimSpace.
  destruct (decoded_steps body); reflexivity.
Qed.

(** C10: whenever [GetPlan] returns without error, for a prompt that is
    valid UTF-8 (as every protobuf string is), the plan is the JSON
    text of an object with exactly the keys [model_type], a string,
    [prompt], the request prompt, and [steps], a non-empty array of
    strings.  The steps are those of the content of the model when it
    is a JSON object with a non-empty [steps] array of strings (those
    of a plan in the format of the gateway, for one); those of the body
    of a fenced block when the content is a fence, a tag, a newline, a
    body that is such an object and the closing fence; and the trimmed
    content alone when it is neither: a text with no fence in front
    that is no such object, or a fenced block whose body is none. *)
Theorem GetPlan_plan_is_json_object s CreateChatCompletion prompt resp :
  ValidString prompt = true ->
  GetPlan s CreateChatCompletion prompt = inr resp ->
  exists rt choices steps,
    llm s = Some rt
    /\ CreateChatCompletion {| req_Model := Model rt;
                               req_system := system_message;
                               req_user := user_message prompt |} = inr choices
    /\ Plan resp = Marshal (plan_payload (Provider rt) steps prompt)
    /\ steps <> []
    /\ parse (Plan resp)
       = Some (JObject [("model_type", JString (coerce (Provider rt)));
                        ("prompt", JString prompt);
                        ("steps", JArray (map (fun s => JString (coerce s)) steps))])
    /\ let content := hd EmptyString choices in
       (* raw JSON *)
       (forall st, decoded_steps content = Some st -> steps = st)
       /\ (forall provider' prompt' st,
             st <> [] ->
             content = Marshal (plan_payload provider' st prompt') ->
             steps = map coerce st)
       (* fenced JSON *)
       /\ (forall tag body st,
             TrimSpace content = fence ++ tag ++ nl ++ body ++ fence ->
             Index tag nl = None ->
             decoded_steps body = Some st ->
             steps = st)
       (* anything else *)
       /\ (HasPrefix (TrimSpace content) fence = false ->
           decoded_steps content = None ->
           steps = [TrimSpace content])
       /\ (forall tag body,
             TrimSpace content = fence ++ tag ++ nl ++ body ++ fence ->
             Index tag nl = None ->
             decoded_steps body = None ->
             steps = [TrimSpace content]).
Proof.
  intros Hvalid Hget. unfold GetPlan in Hget.
  destruct (llm s) as [rt|]; [|discriminate].
  destruct (negb (Client rt)); [discriminate|].
  destruct (CreateChatCompletion _) as [err|choices] eqn:Hcall; [discriminate|].
  inversion Hget; subst; clear Hget.
  exists rt, choices, (plan_steps (hd EmptyString choices)).
  split; [reflexivity|]. split; [exact Hcall|]. cbn [Plan].
  assert (Hc : match choices with c :: _ => c | [] => EmptyString end
               = hd EmptyString choices) by (destruct choices; reflexivity).
  rewrite Hc. set (content := hd EmptyString choices).
  destruct (plan_of_content_steps (Provider rt) prompt content) as (Hp & Hne).
  split; [exact Hp|]. split; [exact Hne|]. split.
  { rewrite Hp, payload_roundtrip by exact Hne.
    unfold coerce at 2. rewrite coerce_valid; [reflexivity|lia|exact Hvalid]. }
  assert (Hraw : forall st, decoded_steps content = Some st -> plan_steps content = st).
  { intros st Hst. unfold plan_steps. now rewrite decoded_steps_TrimSpace, Hst. }
  cbv zeta. split; [exact Hraw|]. split; [|split; [|split]].
  - intros provider' prompt' st Hst Hcontent. apply Hraw.
    rewrite Hcontent. now apply decoded_steps_payload.
  - intros tag body st Hblock Htag Hst.
    now rewrite (plan_steps_block content tag body Hblock Htag), Hst.
  - intros Hf Hnone. unfold plan_steps.
    rewrite decoded_steps_TrimSpace, Hnone.
    rewrite stripFences_unfenced by (now rewrite TrimSpace_idempotent).
    now rewrite TrimSpace_idempotent, decoded_steps_TrimSpace, Hnone.
  - intros tag body Hblock Htag Hnone.
    now rewrite (plan_steps_block content tag body Hblock Htag), Hnone.
Qed.

(* ---------------------------------------------------------------- *)
(** *** The theorems at concrete inputs *)

Import GoUTF8 GoStrings GoJSON Gateway Scenarios Deployments.

Lemma GetPlan_plan_is_json_object_witness :
  exists resp,
    GetPlan Scenarios.server0 Scenarios.model0 "hello" = inr resp
    /\ Plan resp
       = Marshal (plan_payload providerOllama ["look up foo"; "answer"] "hello")
    /\ parse (Plan resp)
       = Some (JObject [("model_type", JString "ollama");
                        ("prompt", JString "hello");
                        ("steps", JArray [JString "look up foo"; JString "answer"])]).
Proof.
  eexists. split; [reflexivity|].
  destruct (GetPlan_plan_is_json_object Scenarios.server0 Scenarios.model0 "hello" _
              eq_refl eq_refl)
    as (rt & choices & steps & Hllm & Hcall & Hplan & Hne & Hparse & _ & _ & Hfenced & _).
  inversion Hllm; subst rt. inversion Hcall; subst choices.
  assert (Hsteps : steps = ["look up foo"; "answer"]).
  { apply (Hfenced "json" (dq "{'steps':['look up foo','answer']}" ++ nl));
      vm_compute; reflexivity. }
  subst steps. split; [exact Hplan|]. rewrite Hparse. reflexivity.
Defined.

Lemma unfenced_content_is_json_or_one_step_witness :
  plan_of_content providerOllama "p" "  look up foo  " =
  Marshal
  (plan_payload providerOllama
     match decoded_steps "  look up foo  " with
     | Some steps => steps
     | None => [TrimSpace "  look up foo  "]
     end "p") /\
  plan_of_content providerOllama "p" (TrimSpace "  look up foo  ") =
  plan_of_content providerOllama "p" "  look up foo  ".
Proof.
  apply (unfenced_content_is_json_or_one_step providerOllama "p" "  look up foo  ").
  - vm_compute; reflexivity.
Defined.

Lemma normalizeJSON_reads_back_a_plan_witness :
  normalizeJSON providerOllama "p"
  (Marshal (plan_payload providerOpenRouter ["look up foo"; "answer"] "q")) =
  Some (Marshal (plan_payload providerOllama (map coerce ["look up foo"; "answer"]) "p")) /\
  plan_of_content providerOllama "p"
  (Marshal (plan_payload providerOpenRouter ["look up foo"; "answer"] "q")) =
  Marshal (plan_payload providerOllama (map coerce ["look up foo"; "answer"]) "p").
Proof.
  apply (normalizeJSON_reads_back_a_plan providerOllama "p" providerOpenRouter "q" ["look up foo"; "answer"]).
  - discriminate.
Defined.

Lemma fenced_content_is_unwrapped_witness :
  stripFences Scenarios.fenced_content
  = TrimSpace (dq "{'steps':['look up foo','answer']}" ++ nl)
  /\ plan_of_content providerOllama "p" Scenarios.fenced_content
     = Marshal (plan_payload providerOllama ["look up foo"; "answer"] "p").
Proof.
  destruct (fenced_content_is_unwrapped
              providerOllama "p" "json"
              (dq "{'steps':['look up foo','answer']}" ++ nl) eq_refl)
    as (H1 & H2 & _).
  split; [exact H1|exact H2].
Defined.

End NormalizeFacts.

Module ToolFacts.
Import GoUTF8 GoJSON Planner Observe ByteFacts JSONFacts GatewayFacts ServerFacts.

Lemma Marshal_tool_output resp :
  encode_tool_output resp
  = "{" ++ (appendString "status" ++ ":" ++ (marshal_value (PString (tr_Status resp))
      ++ "," ++ (appendString "stderr" ++ ":" ++ (marshal_value (PString (Stderr resp))
      ++ "," ++ (appendString "stdout" ++ ":"
                 ++ (marshal_value (PString (Stdout resp)) ++ "}")))))).
Proof.
  unfold encode_tool_output, Marshal.
  change (sort_keys _) with
    [("status", PString (tr_Status resp)); ("stderr", PString (Stderr resp));
     ("stdout", PString (Stdout resp))].
  cbn [marshal_members]. now rewrite !append_assoc.
Qed.

Lemma tool_output_roundtrip resp :
  parse (encode_tool_output resp)
  = Some (JObject [("status", JString (coerce (tr_Status resp)));
                   ("stderr", JString (coerce (Stderr resp)));
                   ("stdout", JString (coerce (Stdout resp)))]).
Proof.
  unfold parse. rewrite Marshal_tool_output.
  match goal with |- context [S (String.length ?t)] => set (text := t) end.
  assert (HL : (8 <= String.length text)%nat).
  { subst text. cbn [marshal_value]. rewrite !length_append.
    pose proof (length_appendString (tr_Status resp)).
    pose proof (length_appendString (Stderr resp)).
    pose proof (length_appendString (Stdout resp)).
    simpl String.length. lia. }
  destruct (String.length text) as [|[|[|[|[|[|[|L]]]]]]]; try lia.
  subst text.
  change ("{" ++ ?x) with (String "{" x).
  rewrite (appendString_head "status").
  rewrite parse_value_object by (unfold maxNestingDepth; lia).
  rewrite <- (appendString_head "status").
  rewrite member_roundtrip. cbn [marshal_value]. rewrite string_roundtrip.
  change ("," ++ ?x) with (String "," x). cbn [skip_ws].
  change (is_ws ",") with false. cbv iota.
  change (byte "," =? 44) with true. cbv iota.
  rewrite member_roundtrip. rewrite string_roundtrip.
  change ("," ++ ?x) with (String "," x). cbn [skip_ws].
  change (is_ws ",") with false. cbv iota.
  change (byte "," =? 44) with true. cbv iota.
  rewrite member_roundtrip. rewrite string_roundtrip.
  change ("}" ++ EmptyString) with (String "}" EmptyString). cbn [skip_ws].
  change (is_ws "}") with false. cbv iota.
  change (byte "}" =? 44) with false. change (byte "}" =? 125) with true. cbv iota.
  reflexivity.
Qed.

(** X28: what [executeToolGRPC] returns without an error is a JSON
    object with exactly the members [status], [stderr] and [stdout],
    holding the three strings of the response the sandbox gave to the
    one call made (an invalid byte read back as U+FFFD). *)
Theorem executeToolGRPC_output_is_json env p ctx toolName args tr out tr' :
  executeToolGRPC env p ctx toolName args tr = (Some (inr out), tr') ->
  exists req resp,
    req = {| ToolName := toolName;
             tr_Args := match args with Some a => a | None => [] end |}
    /\ tool_ExecuteTool env tr (outgoing_md ctx) req = inr resp
    /\ tr' = (tr ++ [EvExecuteTool (outgoing_md ctx) req (inr resp)])%list
    /\ parse out
       = Some (JObject [("status", JString (coerce (tr_Status resp)));
                        ("stderr", JString (coerce (Stderr resp)));
                        ("stdout", JString (coerce (Stdout resp)))]).
Proof.
  unfold executeToolGRPC. destruct (toolClient p); cbn [negb].
  - unfold bind, call, ret.
    destruct (tool_ExecuteTool env tr (outgoing_md ctx) _) as [err|resp] eqn:E;
      intros H; inversion H; subst.
    eexists _, resp. split; [reflexivity|]. split; [exact E|].
    split; [reflexivity|]. apply tool_output_roundtrip.
  - unfold ret. intros H. inversion H.
Qed.

(* ---------------------------------------------------------------- *)
(** *** The theorems at concrete inputs *)

Import GoJSON Planner Observe Scenarios Deployments.

Lemma executeToolGRPC_output_is_json_witness :
  exists out tr',
    executeToolGRPC always_tool (planner 3) ctx0 "search" (Some [("q", JString "foo")]) []
    = (Some (inr out), tr')
    /\ exists req resp,
        req = search_request
        /\ tool_ExecuteTool always_tool [] (outgoing_md ctx0) req = inr resp
        /\ tr' = [EvExecuteTool (outgoing_md ctx0) req (inr resp)]
        /\ parse out
           = Some (JObject [("status", JString (coerce (tr_Status resp)));
                            ("stderr", JString (coerce (Stderr resp)));
                            ("stdout", JString (coerce (Stdout resp)))]).
Proof.
  eexists _, _. split; [vm_compute; reflexivity|].
  eapply (executeToolGRPC_output_is_json always_tool (planner 3) ctx0 "search"
            (Some [("q", JString "foo")]) []).
  vm_compute. reflexivity.
Defined.

End ToolFacts.

Module ConfigFacts.
Import GoUTF8 GoStrings GoStrconv GoFmt Planner PlannerConfig ByteFacts StrconvFacts
       TrimFacts.

Lemma getRune_ascii c s n :
  byte c < RuneSelf -> n < hugeWid ->
  getRune {| input := String c s; count := n |}
  = Some (byte c, {| input := s; count := n + 1 |}).
Proof.
  intros Hc Hn. unfold getRune. cbn [count input].
  destruct (Z.leb_spec hugeWid n); [lia|].
  now rewrite decode_ascii.
Qed.

(** A rune that is a decimal digit is decoded from that one byte. *)
Lemma decode_digit c s :
  is_decimal_digit (byte c) = false ->
  is_decimal_digit (fst (DecodeRuneInString (String c s))) = false.
Proof.
  intros Hc. pose proof (byte_range c) as Hr.
  unfold DecodeRuneInString, first, is_decimal_digit, cont, RuneError in *.
  repeat match goal with
         | |- context [if ?b then _ else _] => destruct b eqn:?
         | |- context [match ?s with EmptyString => _ | String _ _ => _ end] =>
           destruct s
         end; cbn [fst]; try exact Hc; try reflexivity;
    repeat match goal with
           | H : (_ <? _) = _ |- _ => apply Z.ltb_lt in H || apply Z.ltb_ge in H
           | H : (_ =? _) = _ |- _ => apply Z.eqb_eq in H || apply Z.eqb_neq in H
           | H : (_ || _) = false |- _ => apply orb_false_iff in H; destruct H
           | H : negb _ = false |- _ => apply negb_false_iff in H
           | H : (_ && _) = true |- _ => apply andb_true_iff in H; destruct H
           | H : (_ <=? _) = true |- _ => apply Z.leb_le in H
           | H : (_ <=? _)%nat = _ |- _ => clear H
           end;
    match goal with
    | |- (?a <=? ?x) && (?x <=? ?b) = false =>
      apply andb_false_iff;
      first [ left; apply Z.leb_gt; lia | right; apply Z.leb_gt; lia ]
    end.
Qed.

Lemma SkipSpace_stays fuel c s n :
  byte c < RuneSelf -> IsSpace (byte c) = false ->
  SkipSpace fuel {| input := String c s; count := n |}
  = Some {| input := String c s; count := n |}.
Proof.
  intros Hc Hs. destruct fuel as [|fuel]; [reflexivity|].
  cbn [SkipSpace]. unfold getRune. cbn [count input].
  destruct (hugeWid <=? n); [reflexivity|].
  rewrite decode_ascii by exact Hc.
  assert (H13 : (byte c =? 13) = false).
  { apply Z.eqb_neq. intros E. rewrite E in Hs. discriminate. }
  assert (H10 : (byte c =? 10) = false).
  { apply Z.eqb_neq. intros E. rewrite E in Hs. discriminate. }
  rewrite H13, H10. cbn [andb]. unfold isSpace. now rewrite Hs.
Qed.

Lemma SkipSpace_end fuel n :
  SkipSpace fuel {| input := EmptyString; count := n |}
  = Some {| input := EmptyString; count := n |}.
Proof.
  destruct fuel; [reflexivity|]. cbn [SkipSpace]. unfold getRune. cbn [count input].
  now destruct (hugeWid <=? n).
Qed.

(** Spaces and tabs are skipped, one rune each. *)
Lemma SkipSpace_blanks sp : forall fuel rest n,
  blanks sp = true ->
  n + Z.of_nat (String.length sp) < hugeWid ->
  SkipSpace (String.length sp + fuel) {| input := sp ++ rest; count := n |}
  = SkipSpace fuel {| input := rest; count := n + Z.of_nat (String.length sp) |}.
Proof.
  induction sp as [|c sp IH]; intros fuel rest n Hb Hn.
  - cbn [String.length append plus Z.of_nat]. now rewrite Z.add_0_r.
  - cbn [blanks] in Hb. apply andb_true_iff in Hb. destruct Hb as [Hc Hb].
    cbn [String.length] in Hn. rewrite Nat2Z.inj_succ in Hn.
    cbn [String.length append plus SkipSpace].
    assert (Hc' : byte c = 32 \/ byte c = 9).
    { apply orb_true_iff in Hc. destruct Hc as [Hc|Hc]; apply Z.eqb_eq in Hc; auto. }
    rewrite getRune_ascii by (unfold RuneSelf; lia).
    assert (H13 : (byte c =? 13) = false) by (apply Z.eqb_neq; lia).
    assert (H10 : (byte c =? 10) = false) by (apply Z.eqb_neq; lia).
    rewrite H13, H10. cbn [andb]. unfold isSpace.
    assert (Hs : IsSpace (byte c) = true) by (destruct Hc' as [E|E]; rewrite E; reflexivity).
    rewrite Hs. cbn [negb]. rewrite IH by (try exact Hb; lia).
    f_equal. f_equal. rewrite Nat2Z.inj_succ. lia.
Qed.

Lemma digit_byte c : is_decimal_digit (byte c) = true -> byte c < RuneSelf.
Proof.
  unfold is_decimal_digit, RuneSelf. intros H. apply andb_true_iff in H.
  destruct H as [_ H]. apply Z.leb_le in H. lia.
Qed.

(** The digits at the head of the input are all read into the token,
    and nothing after them. *)
Lemma accept_digits_spec ds : forall fuel rest n buf,
  all_digits ds = true -> digit_next rest = false ->
  n + Z.of_nat (String.length ds) < hugeWid ->
  snd (accept_digits (String.length ds + fuel)
                     {| input := ds ++ rest; count := n |} buf)
  = buf ++ ds.
Proof.
  induction ds as [|c ds IH]; intros fuel rest n buf Hd Hr Hn.
  - cbn [String.length append plus]. rewrite append_nil_r.
    destruct fuel as [|fuel]; [reflexivity|].
    cbn [accept_digits]. unfold accept, getRune. cbn [count input].
    destruct (hugeWid <=? n); [reflexivity|].
    destruct rest as [|c rest]; [reflexivity|].
    cbn [digit_next] in Hr.
    pose proof (decode_digit c rest Hr) as Hdec.
    destruct (DecodeRuneInString (String c rest)) as [r size]. cbn [fst] in Hdec.
    now rewrite Hdec.
  - cbn [all_digits] in Hd. apply andb_true_iff in Hd. destruct Hd as [Hc Hd].
    cbn [String.length] in Hn. rewrite Nat2Z.inj_succ in Hn.
    cbn [String.length append plus accept_digits]. unfold accept.
    rewrite getRune_ascii by (try apply digit_byte; try exact Hc; lia).
    unfold is_decimal_digit at 1. rewrite Hc. rewrite chr_byte.
    rewrite IH by (try exact Hd; try exact Hr; lia).
    rewrite append_assoc. reflexivity.
Qed.

Lemma sign_not_space c :
  is_sign (byte c) = true -> byte c < RuneSelf /\ IsSpace (byte c) = false.
Proof.
  unfold is_sign, RuneSelf. intros H. apply orb_true_iff in H.
  destruct H as [H|H]; apply Z.eqb_eq in H; rewrite H; split; (lia || reflexivity).
Qed.

Lemma digit_not_space c :
  is_decimal_digit (byte c) = true -> byte c < RuneSelf /\ IsSpace (byte c) = false.
Proof.
  intros H. split; [now apply digit_byte|].
  unfold is_decimal_digit in H. apply andb_true_iff in H. destruct H as [H1 H2].
  apply Z.leb_le in H1, H2. unfold IsSpace.
  destruct (Z.leb_spec 0 (byte c)); [|lia].
  destruct (Z.leb_spec (byte c) 255); [|lia]. cbn [andb].
  repeat match goal with
         | |- context [?a <=? ?b] => destruct (Z.leb_spec a b); try lia
         | |- context [?a =? ?b] => destruct (Z.eqb_spec a b); try lia
         end; reflexivity.
Qed.

(** The text of a decimal integer in range, followed by something
    that is no digit, is scanned to its value. *)
Lemma scanInt_decimal num rest n v fuel :
  decimal num = Some v -> - 2 ^ 63 <= v < 2 ^ 63 ->
  digit_next rest = false ->
  n + Z.of_nat (String.length num) < hugeWid ->
  scanInt (String.length num + fuel) {| input := num ++ rest; count := n |} = Some v.
Proof.
  intros Hd Hv Hr Hn.
  assert (HP : ParseInt num = inr v) by (apply ParseInt_spec; auto).
  destruct num as [|c ds]; [discriminate|].
  rewrite decimal_sign in Hd. cbv zeta in Hd.
  cbn [String.length] in Hn. rewrite Nat2Z.inj_succ in Hn.
  unfold scanInt.
  destruct ((byte c =? 45) || (byte c =? 43)) eqn:Hsign.
  - (* a sign, then the digits *)
    assert (Hs : is_sign (byte c) = true).
    { unfold is_sign. rewrite orb_comm. exact Hsign. }
    destruct (sign_not_space c Hs) as [Hc Hsp].
    destruct ds as [|d ds]; [discriminate|].
    cbn [negb String.eqb andb] in Hd.
    destruct (all_digits (String d ds)) eqn:Hall; [|try rewrite andb_false_r in Hd; discriminate].
    cbn [append]. rewrite SkipSpace_stays by assumption.
    rewrite getRune_ascii by (try exact Hc; lia).
    unfold accept at 1. rewrite getRune_ascii by (try exact Hc; lia).
    rewrite Hs. cbn [append]. rewrite chr_byte.
    pose proof Hall as Hall'. cbn [all_digits] in Hall'.
    apply andb_true_iff in Hall'. destruct Hall' as [Hd0 Hds].
    cbn [String.length] in Hn. rewrite Nat2Z.inj_succ in Hn.
    unfold accept at 1. rewrite getRune_ascii by (try apply digit_byte; try exact Hd0; lia).
    unfold is_decimal_digit at 1. rewrite Hd0. rewrite chr_byte.
    cbn [String.length plus].
    pose proof (accept_digits_spec ds (S (S fuel)) rest (n + 1 + 1)
                  (String c (String d EmptyString)) Hds Hr ltac:(lia)) as HA.
    replace (S (S (String.length ds + fuel))) with (String.length ds + S (S fuel))%nat by lia.
    destruct (accept_digits _ _ _) as [s' tok]. cbn [snd] in HA. subst tok.
    cbn [append]. now rewrite HP.
  - (* digits only *)
    cbn [negb String.eqb andb] in Hd.
    destruct (all_digits (String c ds)) eqn:Hall; [|discriminate].
    pose proof Hall as Hall'. cbn [all_digits] in Hall'.
    apply andb_true_iff in Hall'. destruct Hall' as [Hd0 Hds].
    destruct (digit_not_space c Hd0) as [Hc Hsp].
    assert (Hs : is_sign (byte c) = false).
    { unfold is_sign. rewrite orb_comm. exact Hsign. }
    cbn [append]. rewrite SkipSpace_stays by assumption.
    rewrite getRune_ascii by (try exact Hc; lia).
    unfold accept at 1. rewrite getRune_ascii by (try exact Hc; lia).
    rewrite Hs.
    unfold accept at 1. rewrite getRune_ascii by (try exact Hc; lia).
    unfold is_decimal_digit at 1. rewrite Hd0. cbn [append]. rewrite chr_byte.
    cbn [String.length plus].
    pose proof (accept_digits_spec ds (S fuel) rest (n + 1)
                  (String c EmptyString) Hds Hr ltac:(lia)) as HA.
    replace (S (String.length ds + fuel)) with (String.length ds + S fuel)%nat by lia.
    destruct (accept_digits _ _ _) as [s' tok]. cbn [snd] in HA. subst tok.
    cbn [append]. now rewrite HP.
Qed.

Lemma decimal_head num v :
  decimal num = Some v ->
  exists c s, num = String c s /\ byte c < RuneSelf /\ IsSpace (byte c) = false.
Proof.
  destruct num as [|c ds]; [discriminate|]. intros Hd. exists c, ds.
  split; [reflexivity|].
  rewrite decimal_sign in Hd. cbv zeta in Hd.
  destruct ((byte c =? 45) || (byte c =? 43)) eqn:Hsign.
  - apply sign_not_space. unfold is_sign. now rewrite orb_comm.
  - destruct (all_digits (String c ds)) eqn:Hall;
      [|try rewrite andb_false_r in Hd; discriminate].
    cbn [all_digits] in Hall. apply andb_true_iff in Hall.
    apply digit_not_space, Hall.
Qed.

Lemma Sscanf_d_decimal sp num rest v :
  blanks sp = true -> decimal num = Some v -> - 2 ^ 63 <= v < 2 ^ 63 ->
  digit_next rest = false ->
  Z.of_nat (String.length (sp ++ num ++ rest)) < hugeWid ->
  Sscanf_d (sp ++ num ++ rest) = Some v.
Proof.
  intros Hb Hd Hv Hr Hn. unfold Sscanf_d.
  rewrite !length_append in *. rewrite !Nat2Z.inj_add in Hn.
  rewrite SkipSpace_blanks by (try exact Hb; lia).
  destruct (decimal_head num v Hd) as (c & s & -> & Hc & Hsp).
  cbn [append]. rewrite SkipSpace_stays by assumption.
  change (String c (s ++ rest)) with (String c s ++ rest).
  replace (String.length sp + (String.length (String c s) + String.length rest))%nat
    with (String.length (String c s) + (String.length sp + String.length rest))%nat by lia.
  apply scanInt_decimal; auto. lia.
Qed.

Lemma nonempty_eqb s : s <> EmptyString -> String.eqb s EmptyString = false.
Proof. destruct s; [congruence|reflexivity]. Qed.

Lemma scan_setting_decimal os_Getenv key initial sp num rest v :
  os_Getenv key = sp ++ num ++ rest ->
  blanks sp = true -> decimal num = Some v -> - 2 ^ 63 <= v < 2 ^ 63 ->
  digit_next rest = false ->
  Z.of_nat (String.length (sp ++ num ++ rest)) < hugeWid ->
  scan_setting os_Getenv key initial = v.
Proof.
  intros He Hb Hd Hv Hr Hn. unfold scan_setting. rewrite He.
  rewrite (Sscanf_d_decimal sp num rest v) by assumption.
  rewrite nonempty_eqb; [reflexivity|].
  destruct num; [discriminate|]. destruct sp; discriminate.
Qed.

(** X29: [ConfigFromEnv] takes the turn budget from the decimal
    integer at the head of [AGENT_MAX_TURNS]: spaces and tabs before
    it are skipped and whatever follows it, not being a digit, is
    ignored, so that [5 turns] configures 5. *)
Theorem ConfigFromEnv_reads_leading_integer os_Getenv sp num rest v :
  os_Getenv "AGENT_MAX_TURNS" = sp ++ num ++ rest ->
  blanks sp = true -> decimal num = Some v -> - 2 ^ 63 <= v < 2 ^ 63 ->
  digit_next rest = false ->
  Z.of_nat (String.length (sp ++ num ++ rest)) < hugeWid ->
  MaxTurns (ConfigFromEnv os_Getenv) = v.
Proof.
  intros. unfold ConfigFromEnv. cbn [MaxTurns].
  now apply (scan_setting_decimal _ _ _ sp num rest).
Qed.

Lemma Sscanf_d_unreadable sp rest :
  blanks sp = true -> unreadable_head rest = true ->
  Z.of_nat (String.length (sp ++ rest)) < hugeWid ->
  Sscanf_d (sp ++ rest) = None.
Proof.
  intros Hb Hu Hn. unfold Sscanf_d.
  rewrite length_append in *. rewrite Nat2Z.inj_add in Hn.
  rewrite SkipSpace_blanks by (try exact Hb; lia).
  destruct rest as [|c rest].
  - rewrite SkipSpace_end. unfold scanInt. rewrite SkipSpace_end.
    unfold getRune. cbn [count input]. now destruct (hugeWid <=? _).
  - cbn [unreadable_head] in Hu. cbn [String.length] in *.
    rewrite Nat2Z.inj_succ in Hn.
    destruct (Z.eqb_spec (byte c) 10) as [E|E].
    + cbn [SkipSpace]. rewrite getRune_ascii by (unfold RuneSelf; lia).
      rewrite E. reflexivity.
    + cbn [orb] in Hu.
      apply andb_true_iff in Hu. destruct Hu as [Hu Hd].
      apply andb_true_iff in Hu. destruct Hu as [Hu Hs].
      apply andb_true_iff in Hu. destruct Hu as [Hc Hsp].
      apply Z.ltb_lt in Hc. apply negb_true_iff in Hsp, Hs, Hd.
      rewrite SkipSpace_stays by assumption.
      unfold scanInt. rewrite SkipSpace_stays by assumption.
      rewrite getRune_ascii by (try exact Hc; lia).
      unfold accept. rewrite getRune_ascii by (try exact Hc; lia).
      rewrite Hs. rewrite getRune_ascii by (try exact Hc; lia).
      now rewrite Hd.
Qed.

(** X30: a value of [AGENT_MAX_TURNS] that cannot be scanned, blanks
    followed by nothing, by a line feed or by an ASCII character that
    is no space, sign or digit, is not an error: the turn budget
    stays at its default 3. *)
Theorem ConfigFromEnv_keeps_default_when_unreadable os_Getenv sp rest :
  os_Getenv "AGENT_MAX_TURNS" = sp ++ rest ->
  blanks sp = true -> unreadable_head rest = true ->
  Z.of_nat (String.length (sp ++ rest)) < hugeWid ->
  MaxTurns (ConfigFromEnv os_Getenv) = 3.
Proof.
  intros He Hb Hu Hn. unfold ConfigFromEnv. cbn [MaxTurns].
  unfold scan_setting. rewrite He.
  rewrite (Sscanf_d_unreadable sp rest) by assumption.
  now destruct (negb _).
Qed.

(* ---------------------------------------------------------------- *)
(** *** The theorems at concrete inputs *)

Import GoUTF8 GoStrings GoStrconv GoFmt Planner PlannerConfig Deployments.

Lemma ConfigFromEnv_reads_leading_integer_witness :
  MaxTurns (ConfigFromEnv (setenv "AGENT_MAX_TURNS" " 5 turns")) = 5.
Proof.
  apply (ConfigFromEnv_reads_leading_integer (setenv "AGENT_MAX_TURNS" " 5 turns") " " "5" " turns" 5).
  - reflexivity.
  - reflexivity.
  - reflexivity.
  - split; vm_compute; congruence.
  - reflexivity.
  - vm_compute; reflexivity.
Defined.

Lemma ConfigFromEnv_keeps_default_when_unreadable_witness :
  MaxTurns (ConfigFromEnv (setenv "AGENT_MAX_TURNS" " many")) = 3.
Proof.
  apply (ConfigFromEnv_keeps_default_when_unreadable (setenv "AGENT_MAX_TURNS" " many") " " "many").
  - reflexivity.
  - reflexivity.
  - reflexivity.
  - vm_compute; reflexivity.
Defined.

End ConfigFacts.
